(** * N Lobby MCP server: a model of the extraction and normalisation code

    The development embeds the TypeScript sources of the N Lobby bridge
    (the [NLobbyApi] class, [TRPCClient] and [NextAuthHandler]) as Rocq
    functions and states the documented behaviour of the code as theorems.

    Conventions of the embedding:
    - a JavaScript string is the list of its UTF-16 code units ([jsstring]);
    - a JavaScript number is an IEEE-754 binary64 value, taken from the
      Standard Library's executable specification [spec_float];
    - a [Date] is its time value, an integral number of milliseconds or NaN;
    - a thrown exception is an explicit error result;
    - the clock, the time zone, the random source and the page parser are
      variables of the section [Environment].

    The definitions come first, in the order of the sources; the theorems
    follow, and the last part applies them in a concrete environment. *)

From Stdlib Require Import String Ascii ZArith NArith QArith List Bool Lia.
From Stdlib Require Import SpecFloat.
Import ListNotations.

Local Open Scope Z_scope.

(* ===================================================================== *)
(** * JavaScript strings *)
(* ===================================================================== *)

(** A string value is a finite sequence of 16-bit code units. *)
Definition jsstring := list N.

(** [U "text"] is the string whose code units are the characters of an
    ASCII literal. *)
Definition U (s : string) : jsstring := map N_of_ascii (list_ascii_of_string s).

Fixpoint str_eqb (a b : jsstring) : bool :=
  match a, b with
  | [], [] => true
  | x :: a', y :: b' => N.eqb x y && str_eqb a' b'
  | _, _ => false
  end.

Lemma str_eqb_eq : forall a b, str_eqb a b = true <-> a = b.
Proof.
  induction a as [|x a IH]; destruct b as [|y b]; simpl; split; intro H;
    try discriminate; try reflexivity.
  - apply andb_true_iff in H. destruct H as [H1 H2].
    apply N.eqb_eq in H1. apply IH in H2. congruence.
  - inversion H; subst. rewrite N.eqb_refl. simpl. apply IH. reflexivity.
Qed.

Lemma str_eqb_refl : forall a, str_eqb a a = true.
Proof. intro a. apply str_eqb_eq. reflexivity. Qed.

(* ===================================================================== *)
(** * JavaScript numbers *)
(* ===================================================================== *)

Module Num.

(** Binary64: 53 bits of precision, exponents below 1024. *)
Definition prec : Z := 53.
Definition emax : Z := 1024.

Definition number := spec_float.

Definition add : number -> number -> number := SFadd prec emax.
Definition sub : number -> number -> number := SFsub prec emax.
Definition mul : number -> number -> number := SFmul prec emax.
Definition div : number -> number -> number := SFdiv prec emax.

(** The number nearest to an integer (exact below 2^53). *)
Definition of_Z (z : Z) : number := binary_normalize prec emax z 0 false.
Definition of_nat (n : nat) : number := of_Z (Z.of_nat n).

Definition zero : number := S754_zero false.
Definition nan : number := S754_nan.

(** [x === y] on numbers: NaN differs from itself, the two zeros agree. *)
Definition strict_eq (x y : number) : bool := SFeqb x y.
Definition lt (x y : number) : bool := SFltb x y.

(** ToBoolean on numbers: the zeros and NaN are falsy. *)
Definition truthy (x : number) : bool :=
  match x with
  | S754_zero _ | S754_nan => false
  | _ => true
  end.

(** Structural equality of two representations. *)
Definition same (x y : number) : bool :=
  match x, y with
  | S754_zero a, S754_zero b => Bool.eqb a b
  | S754_infinity a, S754_infinity b => Bool.eqb a b
  | S754_nan, S754_nan => true
  | S754_finite a m e, S754_finite b n f =>
      Bool.eqb a b && Pos.eqb m n && Z.eqb e f
  | _, _ => false
  end.

Lemma same_eq : forall x y, same x y = true <-> x = y.
Proof.
  intros [a| a| |a m e] [b| b| |b n f]; simpl; split; intro H;
    try discriminate; try reflexivity.
  - apply eqb_prop in H. congruence.
  - inversion H. apply eqb_reflx.
  - apply eqb_prop in H. congruence.
  - inversion H. apply eqb_reflx.
  - apply andb_true_iff in H. destruct H as [H H3].
    apply andb_true_iff in H. destruct H as [H1 H2].
    apply eqb_prop in H1. apply Pos.eqb_eq in H2. apply Z.eqb_eq in H3.
    congruence.
  - inversion H; subst. rewrite eqb_reflx, Pos.eqb_refl, Z.eqb_refl.
    reflexivity.
Qed.

(** [Math.round]: the integer nearest to [x], ties towards +infinity;
    infinities, NaN and the zeros are returned unchanged, and a result
    of zero keeps the sign of the argument. *)
Definition Math_round (x : number) : number :=
  match x with
  | S754_finite s m e =>
      if 0 <=? e then x
      else
        let d := 2 ^ (- e) in
        let n := (2 * (if s then Z.neg m else Z.pos m) + d) / (2 * d) in
        if n =? 0 then S754_zero s else of_Z n
  | _ => x
  end.

(** The half-up rounding of the exact quotient [p / q], for [0 < q]. *)
Definition round_half_up (p q : Z) : Z := (2 * p + q) / (2 * q).

End Num.

Import Num.

(* ===================================================================== *)
(** * Course records: progress percentage and average score *)
(* ===================================================================== *)

Record CourseReport := mkCourseReport {
  count : number;
  allCount : number
}.


(** [calculateProgressPercentage]:
<<
    if (report.allCount === 0) return 0;
    return Math.round((report.count / report.allCount) * 100);
>> *)
Definition calculateProgressPercentage (report : CourseReport) : number :=
  if strict_eq (allCount report) (of_Z 0) then of_Z 0
  else Math_round (mul (div (count report) (allCount report)) (of_Z 100)).




(** ** The average as a formula *)




(** ** The rounded mean of the specification *)



(* ===================================================================== *)
(** * String operations of the runtime *)
(* ===================================================================== *)

(** Code units of the characters the code tests for. *)
Definition ch (c : ascii) : N := N_of_ascii c.

Fixpoint starts_with (p s : jsstring) : bool :=
  match p, s with
  | [], _ => true
  | x :: p', y :: s' => N.eqb x y && starts_with p' s'
  | _ :: _, [] => false
  end.

(** [s.includes(p)] *)
Fixpoint includes (s p : jsstring) : bool :=
  starts_with p s ||
  match s with
  | [] => false
  | _ :: s' => includes s' p
  end.

(** The characters removed by [trim]: WhiteSpace and LineTerminator. *)
Definition is_space (c : N) : bool :=
  let n := Z.of_N c in
  ((9 <=? n) && (n <=? 13)) || (n =? 32) || (n =? 160) || (n =? 5760)
  || ((8192 <=? n) && (n <=? 8202)) || (n =? 8232) || (n =? 8233)
  || (n =? 8239) || (n =? 8287) || (n =? 12288) || (n =? 65279).

Fixpoint trim_start (s : jsstring) : jsstring :=
  match s with
  | c :: s' => if is_space c then trim_start s' else s
  | [] => []
  end.

Definition trim (s : jsstring) : jsstring :=
  rev (trim_start (rev (trim_start s))).

(** [s.split(sep)] for a one-character separator: never empty. *)
Fixpoint split_on (sep : N) (s : jsstring) : list jsstring :=
  match s with
  | [] => [[]]
  | c :: s' =>
      if N.eqb c sep then [] :: split_on sep s'
      else match split_on sep s' with
           | w :: ws => (c :: w) :: ws
           | [] => [[c]]
           end
  end.

(** [parts.join(sep)] *)
Fixpoint join (sep : jsstring) (parts : list jsstring) : jsstring :=
  match parts with
  | [] => []
  | [p] => p
  | p :: ps => p ++ sep ++ join sep ps
  end.

(** ** Decimal digits *)

Definition digit_char (d : Z) : N := Z.to_N (48 + d).

Fixpoint decimal_fuel (fuel : nat) (n : Z) (acc : jsstring) : jsstring :=
  match fuel with
  | O => acc
  | S f =>
      let acc' := digit_char (n mod 10) :: acc in
      if n / 10 =? 0 then acc' else decimal_fuel f (n / 10) acc'
  end.

(** The decimal numeral of a non-negative integer. *)
Definition decimal (n : Z) : jsstring :=
  decimal_fuel (S (Z.to_nat (Z.log2 n))) n [].

Definition is_digit (c : N) : bool := (48 <=? c)%N && (c <=? 57)%N.

Definition digit_value (c : N) : Z := Z.of_N c - 48.

(** The value of a numeral, most significant digit first. *)
Definition numeral_value (ds : jsstring) : Z :=
  fold_left (fun acc c => 10 * acc + digit_value c) ds 0.

(* ===================================================================== *)
(** * Numbers and their decimal notation *)
(* ===================================================================== *)

(** The double nearest to [s * 10^e10] for an integer [s >= 0], with the
    sign [neg]: what a decimal literal denotes.  A negative power of ten is
    divided out with a sticky bit below 66 significant bits, which rounds
    as the exact quotient does. *)
Definition of_decimal (neg : bool) (s e10 : Z) : number :=
  if s =? 0 then S754_zero neg
  else if 0 <=? e10 then
    binary_normalize prec emax (cond_Zopp neg (s * 10 ^ e10)) 0 false
  else
    let q := 10 ^ (- e10) in
    let sh := Z.max 0 (Z.log2 q + 66 - Z.log2 s) in
    let a := s * 2 ^ sh in
    let m := 2 * (a / q) + (if a mod q =? 0 then 0 else 1) in
    binary_normalize prec emax (cond_Zopp neg m) (- sh - 1) false.

(** The exact value [num / den] of a positive finite double. *)
Definition exact_num (m : positive) (e : Z) : Z :=
  if 0 <=? e then Z.pos m * 2 ^ e else Z.pos m.
Definition exact_den (e : Z) : Z := if 0 <=? e then 1 else 2 ^ (- e).

(** [num / den < 10^j] *)
Definition below_pow10 (num den j : Z) : bool :=
  if 0 <=? j then num <? den * 10 ^ j else num * 10 ^ (- j) <? den.

(** The [n] with [10^(n-1) <= num/den < 10^n], searched from an estimate. *)
Fixpoint decimal_exponent (fuel : nat) (num den n : Z) : Z :=
  match fuel with
  | O => n
  | S f =>
      if below_pow10 num den (n - 1) then decimal_exponent f num den (n - 1)
      else if below_pow10 num den n then n
      else decimal_exponent f num den (n + 1)
  end.

(** [floor (num/den * 10^j)] *)
Definition scaled_floor (num den j : Z) : Z :=
  if 0 <=? j then (num * 10 ^ j) / den else num / (den * 10 ^ (- j)).

(** Is [s] at least as close to [num/den * 10^j] as [s + 1]?
    On a tie the even one wins. *)
Definition lower_is_closer (num den j s : Z) : bool :=
  let '(p, q) := if 0 <=? j then (num * 10 ^ j, den)
                 else (num, den * 10 ^ (- j)) in
  match 2 * p ?= (2 * s + 1) * q with
  | Lt => true
  | Gt => false
  | Eq => Z.even s
  end.

(** Step 5 of Number::toString: the shortest digit string [s] of [k] digits
    and the exponent [n] with [s * 10^(n-k)] denoting [x]. *)
Fixpoint shortest_digits (fuel : nat) (x : number) (num den n0 k : Z)
  : Z * Z * Z :=
  let j := k - n0 in
  let lo := scaled_floor num den j in
  let hi := lo + 1 in
  let '(hs, hn) := if hi =? 10 ^ k then (10 ^ (k - 1), n0 + 1) else (hi, n0) in
  let lo_ok := (10 ^ (k - 1) <=? lo) && same (of_decimal false lo (n0 - k)) x in
  let hi_ok := same (of_decimal false hs (hn - k)) x in
  match fuel with
  | O => (lo, n0, k)
  | S f =>
      if lo_ok && hi_ok then
        if lower_is_closer num den j lo then (lo, n0, k) else (hs, hn, k)
      else if lo_ok then (lo, n0, k)
      else if hi_ok then (hs, hn, k)
      else shortest_digits f x num den n0 (k + 1)
  end.

Definition zeros (n : Z) : jsstring := repeat (ch "0") (Z.to_nat n).

(** Steps 6 to 10 of Number::toString. *)
Definition format_digits (s n k : Z) : jsstring :=
  let ds := decimal s in
  if (k <=? n) && (n <=? 21) then ds ++ zeros (n - k)
  else if (0 <? n) && (n <=? 21) then
    firstn (Z.to_nat n) ds ++ ch "." :: skipn (Z.to_nat n) ds
  else if (-6 <? n) && (n <=? 0) then
    ch "0" :: ch "." :: zeros (- n) ++ ds
  else
    let e := n - 1 in
    let exp := ch "e" :: (if e <? 0 then ch "-" else ch "+")
               :: decimal (Z.abs e) in
    if k =? 1 then ds ++ exp
    else firstn 1 ds ++ ch "." :: skipn 1 ds ++ exp.

(** Number::toString(x), radix 10. *)
Definition Number_toString (x : number) : jsstring :=
  match x with
  | S754_nan => U "NaN"
  | S754_zero _ => U "0"
  | S754_infinity s => if s then U "-Infinity" else U "Infinity"
  | S754_finite neg m e =>
      let num := exact_num m e in
      let den := exact_den e in
      let est := ((Z.log2 num - Z.log2 den) * 30103) / 100000 + 1 in
      let n0 := decimal_exponent 800 num den est in
      let '(s, n, k) :=
        shortest_digits 17 (S754_finite false m e) num den n0 1 in
      (if neg then [ch "-"] else []) ++ format_digits s n k
  end.

(** ToIntegerOrInfinity on a finite number: truncation towards zero. *)
Definition truncate (x : number) : option Z :=
  match x with
  | S754_zero _ => Some 0
  | S754_finite s m e =>
      let a := if 0 <=? e then Z.pos m * 2 ^ e else Z.pos m / 2 ^ (- e) in
      Some (cond_Zopp s a)
  | _ => None
  end.

(* ===================================================================== *)
(** * Untyped values *)
(* ===================================================================== *)

(** The values the code handles as [any]: what [JSON.parse] produces, and
    [undefined] for a missing property.  An object is the list of its own
    properties in the order [Object.entries] reports them. *)
#[local] Unset Elimination Schemes.
Inductive value : Type :=
| VUndefined
| VNull
| VBool (b : bool)
| VNum (x : number)
| VStr (s : jsstring)
| VArr (items : list value)
| VObj (props : list (jsstring * value)).
#[local] Set Elimination Schemes.

(** ToBoolean *)
Definition truthy_value (v : value) : bool :=
  match v with
  | VUndefined | VNull => false
  | VBool b => b
  | VNum x => truthy x
  | VStr s => negb (str_eqb s [])
  | VArr _ | VObj _ => true
  end.

Definition is_nullish (v : value) : bool :=
  match v with
  | VUndefined | VNull => true
  | _ => false
  end.

(** [typeof v === "object"] (which holds of [null]) *)
Definition typeof_object (v : value) : bool :=
  match v with
  | VNull | VArr _ | VObj _ => true
  | _ => false
  end.

(** [Array.isArray(v)] *)
Definition is_array (v : value) : bool :=
  match v with
  | VArr _ => true
  | _ => false
  end.

(** [a || b] *)
Definition or_else (a b : value) : value :=
  if truthy_value a then a else b.

(** [v === true] and [v === "text"] *)
Definition is_true (v : value) : bool :=
  match v with
  | VBool true => true
  | _ => false
  end.

Definition is_string (v : value) (s : jsstring) : bool :=
  match v with
  | VStr t => str_eqb t s
  | _ => false
  end.

Fixpoint lookup (k : jsstring) (props : list (jsstring * value))
  : option value :=
  match props with
  | [] => None
  | (k', v) :: rest => if str_eqb k k' then Some v else lookup k rest
  end.

(** [key in obj] for an object's own properties *)
Definition has_own (k : jsstring) (props : list (jsstring * value)) : bool :=
  match lookup k props with
  | Some _ => true
  | None => false
  end.

(** An array index: a canonical numeral below 2^32 - 1. *)
Definition array_index (k : jsstring) : option Z :=
  match k with
  | [] => None
  | c :: rest =>
      if forallb is_digit k && (negb (N.eqb c (ch "0")) || str_eqb rest [])
      then let n := numeral_value k in
           if n <? 4294967295 then Some n else None
      else None
  end.

(** Property read [v.k] or [v[k]] on a value that is not nullish.  Only own
    properties are modelled: the code reads data properties whose names
    are no member of the built-in prototypes. *)
Definition get (v : value) (k : jsstring) : value :=
  match v with
  | VObj props =>
      match lookup k props with
      | Some x => x
      | None => VUndefined
      end
  | VArr items =>
      if str_eqb k (U "length") then VNum (of_nat (length items))
      else match array_index k with
           | Some i => nth (Z.to_nat i) items VUndefined
           | None => VUndefined
           end
  | VStr s =>
      if str_eqb k (U "length") then VNum (of_nat (length s))
      else match array_index k with
           | Some i => match nth_error s (Z.to_nat i) with
                       | Some c => VStr [c]
                       | None => VUndefined
                       end
           | None => VUndefined
           end
  | _ => VUndefined
  end.

(** Property read that throws a TypeError ([None]) on [null] and
    [undefined]. *)
Definition get_checked (v : value) (k : jsstring) : option value :=
  if is_nullish v then None else Some (get v k).

(** Defining a property keeps the own-property order: array indices in
    ascending order first, then the other keys in creation order; an
    existing property keeps its place. *)
Fixpoint insert_index (i : Z) (k : jsstring) (v : value)
  (props : list (jsstring * value)) : list (jsstring * value) :=
  match props with
  | [] => [(k, v)]
  | (k', v') :: rest =>
      match array_index k' with
      | Some j => if j <? i then (k', v') :: insert_index i k v rest
                  else (k, v) :: props
      | None => (k, v) :: props
      end
  end.

Fixpoint replace_prop (k : jsstring) (v : value)
  (props : list (jsstring * value)) : list (jsstring * value) :=
  match props with
  | [] => []
  | (k', v') :: rest =>
      if str_eqb k k' then (k', v) :: rest
      else (k', v') :: replace_prop k v rest
  end.

Definition define_prop (props : list (jsstring * value)) (k : jsstring)
  (v : value) : list (jsstring * value) :=
  if has_own k props then replace_prop k v props
  else match array_index k with
       | Some i => insert_index i k v props
       | None => props ++ [(k, v)]
       end.

Fixpoint index_entries (i : Z) (items : list value)
  : list (jsstring * value) :=
  match items with
  | [] => []
  | x :: rest => (decimal i, x) :: index_entries (i + 1) rest
  end.

(** [Object.entries(v)] for a value that is not nullish. *)
Definition entries (v : value) : list (jsstring * value) :=
  match v with
  | VObj props => props
  | VArr items => index_entries 0 items
  | VStr s => index_entries 0 (map (fun c => VStr [c]) s)
  | _ => []
  end.

Fixpoint sequence {A : Type} (l : list (option A)) : option (list A) :=
  match l with
  | [] => Some []
  | None :: _ => None
  | Some x :: rest =>
      match sequence rest with
      | Some xs => Some (x :: xs)
      | None => None
      end
  end.

(** ToString, and equally the method call [v.toString()] on a value that is
    not nullish.  [None] is a TypeError: an object whose own [toString]
    property shadows the inherited method has no primitive value. *)
Fixpoint ToString (v : value) : option jsstring :=
  match v with
  | VUndefined => Some (U "undefined")
  | VNull => Some (U "null")
  | VBool b => Some (if b then U "true" else U "false")
  | VNum x => Some (Number_toString x)
  | VStr s => Some s
  | VArr items =>
      match sequence (map (fun e => if is_nullish e then Some []
                                    else ToString e) items) with
      | Some parts => Some (join [ch ","] parts)
      | None => None
      end
  | VObj props =>
      if has_own (U "toString") props then None
      else Some (U "[object Object]")
  end.

(* ===================================================================== *)
(** * Dates *)
(* ===================================================================== *)

(** A [Date] object is its time value: milliseconds since the epoch (UTC),
    or NaN ([None]) for an Invalid Date. *)
Definition JSDate := option Z.

Definition msPerDay : Z := 86400000.

Definition Day (t : Z) : Z := t / msPerDay.
Definition TimeWithinDay (t : Z) : Z := t mod msPerDay.

Definition DaysInYear (y : Z) : Z :=
  if negb (y mod 4 =? 0) then 365
  else if negb (y mod 100 =? 0) then 366
  else if negb (y mod 400 =? 0) then 365
  else 366.

Definition DayFromYear (y : Z) : Z :=
  365 * (y - 1970) + (y - 1969) / 4 - (y - 1901) / 100 + (y - 1601) / 400.

(** The largest year whose first day is not after day [d]: an estimate
    from the mean year length, corrected by at most one year. *)
Definition YearFromDay (d : Z) : Z :=
  let e := 1970 + (400 * d) / 146097 in
  if d <? DayFromYear e then e - 1
  else if DayFromYear (e + 1) <=? d then e + 1
  else e.

Definition YearFromTime (t : Z) : Z := YearFromDay (Day t).

Definition InLeapYear (t : Z) : Z := DaysInYear (YearFromTime t) - 365.

Definition DayWithinYear (t : Z) : Z := Day t - DayFromYear (YearFromTime t).

(** The day within the year on which month [m] (0 to 11) starts; month 12
    stands for the start of the next year. *)
Definition month_start (m leap : Z) : Z :=
  match m with
  | 0 => 0
  | 1 => 31
  | 2 => 59 + leap
  | 3 => 90 + leap
  | 4 => 120 + leap
  | 5 => 151 + leap
  | 6 => 181 + leap
  | 7 => 212 + leap
  | 8 => 243 + leap
  | 9 => 273 + leap
  | 10 => 304 + leap
  | 11 => 334 + leap
  | _ => 365 + leap
  end.

Definition month_of_day (dwy leap : Z) : Z :=
  if dwy <? 31 then 0
  else if dwy <? 59 + leap then 1
  else if dwy <? 90 + leap then 2
  else if dwy <? 120 + leap then 3
  else if dwy <? 151 + leap then 4
  else if dwy <? 181 + leap then 5
  else if dwy <? 212 + leap then 6
  else if dwy <? 243 + leap then 7
  else if dwy <? 273 + leap then 8
  else if dwy <? 304 + leap then 9
  else if dwy <? 334 + leap then 10
  else 11.

Definition MonthFromTime (t : Z) : Z :=
  month_of_day (DayWithinYear t) (InLeapYear t).

Definition DateFromTime (t : Z) : Z :=
  DayWithinYear t - month_start (MonthFromTime t) (InLeapYear t) + 1.

Definition MakeTime (hour min sec ms : Z) : Z :=
  hour * 3600000 + min * 60000 + sec * 1000 + ms.

(** The day number of the given date; the month and the day of the month
    may lie outside their ranges and carry over. *)
Definition MakeDay (year month date : Z) : Z :=
  let ym := year + month / 12 in
  let mn := month mod 12 in
  DayFromYear ym + month_start mn (DaysInYear ym - 365) + date - 1.

Definition MakeDate (day time : Z) : Z := day * msPerDay + time.

Definition TimeClip (t : Z) : JSDate :=
  if Z.abs t <=? 8640000000000000 then Some t else None.

Definition DaysInMonth (y m : Z) : Z :=
  month_start m (DaysInYear y - 365) - month_start (m - 1) (DaysInYear y - 365).

(** ** The date-time string format *)

Definition two_digits (a b : N) : option Z :=
  if is_digit a && is_digit b then Some (numeral_value [a; b]) else None.

(** [YYYY-MM-DD] naming a day of the calendar. *)
Definition iso_date (s : jsstring) : option (Z * Z * Z) :=
  match s with
  | [y1; y2; y3; y4; h1; m1; m2; h2; d1; d2] =>
      if forallb is_digit [y1; y2; y3; y4]
         && N.eqb h1 (ch "-") && N.eqb h2 (ch "-")
      then
        match two_digits m1 m2, two_digits d1 d2 with
        | Some m, Some d =>
            let y := numeral_value [y1; y2; y3; y4] in
            if (1 <=? m) && (m <=? 12) && (1 <=? d)
               && (d <=? DaysInMonth y m)
            then Some (y, m, d) else None
        | _, _ => None
        end
      else None
  | _ => None
  end.

(** [HH:mm:ss] below 24:00:00. *)
Definition iso_time (s : jsstring) : option (Z * Z * Z) :=
  match s with
  | [h1; h2; c1; m1; m2; c2; s1; s2] =>
      if N.eqb c1 (ch ":") && N.eqb c2 (ch ":") then
        match two_digits h1 h2, two_digits m1 m2, two_digits s1 s2 with
        | Some h, Some m, Some sec =>
            if (h <=? 23) && (m <=? 59) && (sec <=? 59)
            then Some (h, m, sec) else None
        | _, _, _ => None
        end
      else None
  | _ => None
  end.

(** [YYYY-MM-DDTHH:mm:ss], the form without a UTC offset, which denotes a
    local time. *)
Definition iso_local_datetime (s : jsstring)
  : option (Z * Z * Z * (Z * Z * Z)) :=
  match iso_date (firstn 10 s), skipn 10 s with
  | Some d, t :: rest =>
      if N.eqb t (ch "T") then
        match iso_time rest with
        | Some hms => Some (d, hms)
        | None => None
        end
      else None
  | _, _ => None
  end.

(** The calendar day before a given day. *)
Definition day_before (ymd : Z * Z * Z) : Z * Z * Z :=
  let '(y, m, d) := ymd in
  if 1 <? d then (y, m, d - 1)
  else if 1 <? m then (y, m - 1, DaysInMonth y (m - 1))
  else (y - 1, 12, 31).

Inductive date_arg :=
| DateString (s : jsstring)
| DateObject (d : JSDate).

Record CalendarDateRange := mkRange {
  range_from : JSDate;
  range_to : JSDate
}.

(** The two errors [createDateRange] throws. *)
Inductive range_error :=
| InvalidDateFormat       (* "Invalid date format provided" *)
| ToDateTooEarly.         (* "To date must be at least 1 day after from date..." *)

Inductive event_type := TClass | TEvent | TMeeting | TExam.

Record NLobbyScheduleItem := mkScheduleItem {
  item_id : value;
  item_title : value;
  item_description : value;
  startTime : JSDate;
  endTime : JSDate;
  location : value;
  item_type : event_type;
  participants : list value
}.

(** Keywords of the event classification, as UTF-16 code units. *)
Definition kw_jugyou : jsstring := [25480; 26989]%N.                 (* 授業 *)
Definition kw_meeting_ja : jsstring :=
  [12511; 12540; 12486; 12451; 12531; 12464]%N.                       (* ミーティング *)
Definition kw_mendan : jsstring := [38754; 35527]%N.                 (* 面談 *)
Definition kw_shiken : jsstring := [35430; 39443]%N.                 (* 試験 *)
Definition kw_tesuto : jsstring := [12486; 12473; 12488]%N.          (* テスト *)

Section Environment.

#[local] Set Default Proof Using "Type".

(** The environment of the process: the local time zone, the clock-free
    part of [Date.parse] on strings outside the local date-time format,
    Unicode lower-casing, and the random source.

    The zone is the language's [LocalTZA(t, isUTC)], the offset of local
    time from UTC in milliseconds: at the instant [t] when [isUTC] is
    [true], and for the local time [t] when it is [false].  The offset may
    change with the time (daylight saving); a local time that a change
    skips is read with the offset before the change. *)
Variable LocalTZA : Z -> bool -> Z.
Variable Date_parse_other : jsstring -> JSDate.
Variable String_toLowerCase : jsstring -> jsstring.
Variable Math_random_toString : nat -> jsstring.

Definition LocalTime (t : Z) : Z := t + LocalTZA t true.
Definition UTC (t : Z) : Z := t - LocalTZA t false.

(** The instant at which the local clock shows the given date and time. *)
Definition civil_time (y m d hh mm ss : Z) : Z :=
  UTC (MakeDate (MakeDay y (m - 1) d) (MakeTime hh mm ss 0)).

(** [Date.parse(s)] *)
Definition Date_parse (s : jsstring) : JSDate :=
  match iso_local_datetime s with
  | Some ((y, m, d), (hh, mm, ss)) => TimeClip (civil_time y m d hh mm ss)
  | None => Date_parse_other s
  end.

(** [new Date(t)] for a number *)
Definition Date_of_number (x : number) : JSDate :=
  match truncate x with
  | Some t => TimeClip t
  | None => None
  end.

(** [new Date(v)]; the outer [None] is a TypeError from ToPrimitive. *)
Definition Date_new (v : value) : option JSDate :=
  match v with
  | VStr s => Some (Date_parse s)
  | VArr _ | VObj _ =>
      match ToString v with
      | Some s => Some (Date_parse s)
      | None => None
      end
  | VUndefined => Some None
  | VNull => Some (Some 0)
  | VBool b => Some (Some (if b then 1 else 0))
  | VNum x => Some (Date_of_number x)
  end.

(** [new Date(d.getTime() + ms)] *)
Definition Date_plus (d : JSDate) (ms : Z) : JSDate :=
  match d with
  | Some t => TimeClip (t + ms)
  | None => None
  end.

(** [d.getDate()]; [None] is NaN. *)
Definition getDate (d : JSDate) : option Z :=
  match d with
  | Some t => Some (DateFromTime (LocalTime t))
  | None => None
  end.

(** [d.setDate(dt)] *)
Definition setDate (d : JSDate) (dt : option Z) : JSDate :=
  match d, dt with
  | Some t0, Some n =>
      let t := LocalTime t0 in
      let newDate :=
        MakeDate (MakeDay (YearFromTime t) (MonthFromTime t) n)
                 (TimeWithinDay t) in
      TimeClip (UTC newDate)
  | _, _ => None
  end.

(** ** [createDateRange] *)

Definition to_Date (a : date_arg) : JSDate :=
  match a with
  | DateString s => Date_parse s
  | DateObject d => d
  end.

(** [createDateRange].  The time values are integral, and the quotient
    [diffTime / (1000 * 60 * 60 * 24)] is taken as the exact rational: the
    correctly rounded double quotient of an integer by 86400000 lies below
    1 exactly when the rational does. *)
Definition createDateRange (fromDate toDate : date_arg)
  : range_error + CalendarDateRange :=
  let from := to_Date fromDate in
  let to := to_Date toDate in
  match from, to with
  | Some t_from, Some t_to =>
      let diffTime := t_to - t_from in
      let diffDays := Qdiv (inject_Z diffTime)
                           (inject_Z (1000 * 60 * 60 * 24)) in
      if negb (Qle_bool (inject_Z 1) diffDays) then inl ToDateTooEarly
      else inr {| range_from := from; range_to := to |}
  | _, _ => inl InvalidDateFormat
  end.

(** ** [convertGoogleCalendarEventsToScheduleItems] *)

(** [a + "text"] *)
Definition concat_string (a : value) (s : jsstring) : option jsstring :=
  match ToString a with
  | Some t => Some (t ++ s)
  | None => None
  end.

(** The start and end instants of one event; [now] is the reading of the
    clock for [new Date()]. *)
Definition event_times (now : Z) (event : value) : option (JSDate * JSDate) :=
  if truthy_value (get event (U "startDateTime")) then
    match Date_new (get event (U "startDateTime")) with
    | None => None
    | Some startTime =>
        if truthy_value (get event (U "endDateTime")) then
          match Date_new (get event (U "endDateTime")) with
          | None => None
          | Some endTime => Some (startTime, endTime)
          end
        else Some (startTime, Date_plus startTime (60 * 60 * 1000))
    end
  else if truthy_value (get event (U "start")) then
    let start := get event (U "start") in
    let end_ := get event (U "end") in
    match
      (if truthy_value (get start (U "dateTime")) then
         Date_new (get start (U "dateTime"))
       else if truthy_value (get start (U "date")) then
         match concat_string (get start (U "date")) (U "T00:00:00") with
         | Some s => Some (Date_parse s)
         | None => None
         end
       else Some (Some now))
    with
    | None => None
    | Some startTime =>
        if truthy_value end_ && truthy_value (get end_ (U "dateTime")) then
          match Date_new (get end_ (U "dateTime")) with
          | None => None
          | Some endTime => Some (startTime, endTime)
          end
        else if truthy_value end_ && truthy_value (get end_ (U "date")) then
          match concat_string (get end_ (U "date")) (U "T23:59:59") with
          | None => None
          | Some s =>
              let endTime := Date_parse s in
              let endTime :=
                setDate endTime
                        (option_map (fun n => n - 1) (getDate endTime)) in
              Some (startTime, endTime)
          end
        else Some (startTime, Date_plus startTime (60 * 60 * 1000))
    end
  else Some (Some now, Date_plus (Some now) (60 * 60 * 1000)).

(** [event.summary?.toLowerCase()], or the empty string: a summary that
    is neither nullish nor a string has no such method. *)
Definition summary_lower (event : value) : option jsstring :=
  match get event (U "summary") with
  | VUndefined | VNull => Some []
  | VStr s => Some (String_toLowerCase s)
  | _ => None
  end.

Definition classify_event (summary : jsstring) : event_type :=
  if includes summary kw_jugyou || includes summary (U "class") then TClass
  else if includes summary (U "mtg") || includes summary kw_meeting_ja
          || includes summary (U "meeting") || includes summary kw_mendan
  then TMeeting
  else if includes summary kw_shiken || includes summary (U "exam")
          || includes summary kw_tesuto
  then TExam
  else TEvent.

(** [event.attendees.map(a => a.email).filter(Boolean)] *)
Definition event_participants (event : value) : option (list value) :=
  match get event (U "attendees") with
  | VArr attendees =>
      match sequence (map (fun a => get_checked a (U "email")) attendees) with
      | Some emails => Some (filter truthy_value emails)
      | None => None
      end
  | _ => Some []
  end.

(** One step of the [map]: the item for [event] and the number of random
    draws made so far. *)
Definition convert_event (now : Z) (draws : nat) (event : value)
  : option (NLobbyScheduleItem * nat) :=
  if is_nullish event then None else
  match event_times now event with
  | None => None
  | Some (startTime, endTime) =>
      match summary_lower event with
      | None => None
      | Some summary =>
          match event_participants event with
          | None => None
          | Some ps =>
              let known := or_else (get event (U "id"))
                                   (get event (U "microCmsId")) in
              let '(id, draws') :=
                if truthy_value known then (known, draws)
                else (VStr (Math_random_toString draws), S draws) in
              Some ({| item_id := id;
                       item_title :=
                         or_else (or_else (get event (U "summary"))
                                          (get event (U "title")))
                                 (VStr (U "No Title"));
                       item_description :=
                         or_else (get event (U "description")) (VStr []);
                       startTime := startTime;
                       endTime := endTime;
                       location := or_else (get event (U "location")) (VStr []);
                       item_type := classify_event summary;
                       participants := ps |}, draws')
          end
      end
  end.

Fixpoint convert_events (now : Z) (draws : nat) (events : list value)
  : option (list NLobbyScheduleItem) :=
  match events with
  | [] => Some []
  | event :: rest =>
      match convert_event now draws event with
      | None => None
      | Some (item, draws') =>
          match convert_events now draws' rest with
          | None => None
          | Some items => Some (item :: items)
          end
      end
  end.

Definition convertGoogleCalendarEventsToScheduleItems (now : Z)
  (events : list value) : option (list NLobbyScheduleItem) :=
  convert_events now 0 events.



(* ===================================================================== *)
(** * Session store: cookies and the derived NextAuth tokens *)
(* ===================================================================== *)

Local Open Scope N_scope.

(** ** [encodeURIComponent] and [decodeURIComponent] *)

Definition is_alpha (c : N) : bool :=
  ((65 <=? c) && (c <=? 90)) || ((97 <=? c) && (c <=? 122)).

(** The characters [encodeURIComponent] leaves as they are:
    letters, digits and [- _ . ! ~ * ' ( )]. *)
Definition uri_unreserved (c : N) : bool :=
  is_alpha c || is_digit c
  || existsb (N.eqb c) [45; 95; 46; 33; 126; 42; 39; 40; 41].

Definition is_high_surrogate (c : N) : bool := (55296 <=? c) && (c <=? 56319).
Definition is_low_surrogate (c : N) : bool := (56320 <=? c) && (c <=? 57343).

(** The UTF-8 octets of a code point. *)
Definition utf8_encode (cp : N) : list N :=
  if cp <? 128 then [cp]
  else if cp <? 2048 then [192 + cp / 64; 128 + cp mod 64]
  else if cp <? 65536 then
    [224 + cp / 4096; 128 + (cp / 64) mod 64; 128 + cp mod 64]
  else [240 + cp / 262144; 128 + (cp / 4096) mod 64;
        128 + (cp / 64) mod 64; 128 + cp mod 64].

Definition hex_digit (d : N) : N := if d <? 10 then 48 + d else 55 + d.

Definition percent_octet (b : N) : jsstring :=
  [ch "%"; hex_digit (b / 16); hex_digit (b mod 16)].

Definition percent_encode (cp : N) : jsstring :=
  concat (map percent_octet (utf8_encode cp)).

(** [encodeURIComponent(s)]; [None] is the URIError thrown at an unpaired
    surrogate. *)
Fixpoint encodeURIComponent (s : jsstring) : option jsstring :=
  match s with
  | [] => Some []
  | c :: rest =>
      if uri_unreserved c then option_map (cons c) (encodeURIComponent rest)
      else if is_low_surrogate c then None
      else if is_high_surrogate c then
        match rest with
        | c2 :: rest' =>
            if is_low_surrogate c2 then
              let cp := (c - 55296) * 1024 + (c2 - 56320) + 65536 in
              option_map (app (percent_encode cp)) (encodeURIComponent rest')
            else None
        | [] => None
        end
      else option_map (app (percent_encode c)) (encodeURIComponent rest)
  end.

Definition hex_value (c : N) : option N :=
  if is_digit c then Some (c - 48)
  else if (65 <=? c) && (c <=? 70) then Some (c - 55)
  else if (97 <=? c) && (c <=? 102) then Some (c - 87)
  else None.

(** The number of leading 1 bits of an octet that is at least 128
    (5 stands for five or more). *)
Definition leading_ones (b : N) : nat :=
  if b <? 192 then 1 else if b <? 224 then 2 else if b <? 240 then 3
  else if b <? 248 then 4 else 5.

(** The code point of a well-formed UTF-8 sequence of two to four octets:
    no overlong form, no surrogate, nothing above U+10FFFF. *)
Definition utf8_decode (octets : list N) : option N :=
  match octets with
  | [b0; b1] =>
      let cp := (b0 - 192) * 64 + (b1 - 128) in
      if 128 <=? cp then Some cp else None
  | [b0; b1; b2] =>
      let cp := (b0 - 224) * 4096 + (b1 - 128) * 64 + (b2 - 128) in
      if (2048 <=? cp) && negb ((55296 <=? cp) && (cp <=? 57343))
      then Some cp else None
  | [b0; b1; b2; b3] =>
      let cp := (b0 - 240) * 262144 + (b1 - 128) * 4096
                + (b2 - 128) * 64 + (b3 - 128) in
      if (65536 <=? cp) && (cp <=? 1114111) then Some cp else None
  | _ => None
  end.

Definition utf16_encode (cp : N) : jsstring :=
  if cp <? 65536 then [cp]
  else [55296 + (cp - 65536) / 1024; 56320 + (cp - 65536) mod 1024].

(** [decodeURIComponent(s)]; [None] is a URIError.  [need] continuation
    octets are still expected after the octets [pending]. *)
Fixpoint decode_from (pending : list N) (need : nat) (s : jsstring)
  : option jsstring :=
  match need with
  | O =>
      match s with
      | [] => Some []
      | c :: rest =>
          if negb (N.eqb c (ch "%")) then
            option_map (cons c) (decode_from [] 0 rest)
          else
            match rest with
            | h1 :: h2 :: rest2 =>
                match hex_value h1, hex_value h2 with
                | Some a, Some b =>
                    let B := 16 * a + b in
                    if B <? 128 then
                      option_map (cons B) (decode_from [] 0 rest2)
                    else
                      match leading_ones B with
                      | 2%nat => decode_from [B] 1 rest2
                      | 3%nat => decode_from [B] 2 rest2
                      | 4%nat => decode_from [B] 3 rest2
                      | _ => None
                      end
                | _, _ => None
                end
            | _ => None
            end
      end
  | S k =>
      match s with
      | p :: h1 :: h2 :: rest2 =>
          if N.eqb p (ch "%") then
            match hex_value h1, hex_value h2 with
            | Some a, Some b =>
                let B := 16 * a + b in
                if N.eqb (B / 64) 2 then
                  match k with
                  | O =>
                      match utf8_decode (pending ++ [B]) with
                      | Some cp =>
                          option_map (app (utf16_encode cp))
                                     (decode_from [] 0 rest2)
                      | None => None
                      end
                  | S _ => decode_from (pending ++ [B]) k rest2
                  end
                else None
            | _, _ => None
            end
          else None
      | _ => None
      end
  end.

Definition decodeURIComponent (s : jsstring) : option jsstring :=
  decode_from [] 0 s.

(** ** [NextAuthHandler] *)

Record NextAuthCookies := mkCookies {
  sessionToken : option jsstring;
  csrfToken : option jsstring;
  callbackUrl : option jsstring
}.

Definition no_cookies : NextAuthCookies :=
  {| sessionToken := None; csrfToken := None; callbackUrl := None |}.

Definition session_cookie_name : jsstring :=
  U "__Secure-next-auth.session-token".
Definition csrf_cookie_name : jsstring := U "__Host-next-auth.csrf-token".
Definition callback_cookie_name : jsstring :=
  U "__Secure-next-auth.callback-url".

(** One round of the loop of [parseCookies]:
<<
    const [name, value] = pair.trim().split("=");
    if (name && value) { ... decodeURIComponent(value) ... }
>> *)
Definition parse_pair (cookies : NextAuthCookies) (kv : jsstring)
  : option NextAuthCookies :=
  match split_on (ch "=") (trim kv) with
  | name :: value :: _ =>
      if negb (str_eqb name []) && negb (str_eqb value []) then
        if str_eqb name session_cookie_name then
          option_map (fun v => {| sessionToken := Some v;
                                  csrfToken := csrfToken cookies;
                                  callbackUrl := callbackUrl cookies |})
                     (decodeURIComponent value)
        else if str_eqb name csrf_cookie_name then
          option_map (fun v => {| sessionToken := sessionToken cookies;
                                  csrfToken := Some v;
                                  callbackUrl := callbackUrl cookies |})
                     (decodeURIComponent value)
        else if str_eqb name callback_cookie_name then
          option_map (fun v => {| sessionToken := sessionToken cookies;
                                  csrfToken := csrfToken cookies;
                                  callbackUrl := Some v |})
                     (decodeURIComponent value)
        else Some cookies
      else Some cookies
  | _ => Some cookies
  end.

Fixpoint parse_pairs (cookies : NextAuthCookies) (pairs : list jsstring)
  : option NextAuthCookies :=
  match pairs with
  | [] => Some cookies
  | kv :: rest =>
      match parse_pair cookies kv with
      | Some cookies' => parse_pairs cookies' rest
      | None => None
      end
  end.

(** [parseCookies(cookieString)]; [None] is a URIError from a value that
    is no percent-encoding. *)
Definition parseCookies (cookieString : jsstring) : option NextAuthCookies :=
  parse_pairs no_cookies (split_on (ch ";") cookieString).

(** A token counts when it is present and not the empty string. *)
Definition present (t : option jsstring) : option jsstring :=
  match t with
  | Some (c :: s) => Some (c :: s)
  | _ => None
  end.

Definition cookie_part (name : jsstring) (t : option jsstring)
  : option (list jsstring) :=
  match present t with
  | Some v =>
      option_map (fun e => [name ++ ch "=" :: e]) (encodeURIComponent v)
  | None => Some []
  end.

(** [getCookieHeader()]; [None] is a URIError from a token with an
    unpaired surrogate. *)
Definition getCookieHeader (cookies : NextAuthCookies) : option jsstring :=
  match cookie_part session_cookie_name (sessionToken cookies),
        cookie_part csrf_cookie_name (csrfToken cookies),
        cookie_part callback_cookie_name (callbackUrl cookies) with
  | Some a, Some b, Some c => Some (join (U "; ") (a ++ b ++ c))
  | _, _, _ => None
  end.

Definition isAuthenticated (cookies : NextAuthCookies) : bool :=
  match present (sessionToken cookies) with
  | Some _ => true
  | None => false
  end.

(** ** The cookie state of [NLobbyApi] and its two clients *)

Record ApiState := mkApiState {
  http_cookie : option jsstring;   (* httpClient.defaults.headers.Cookie *)
  nextAuth : NextAuthCookies;      (* nextAuth.cookies *)
  trpc_allCookies : jsstring       (* trpcClient.allCookies *)
}.

Definition blank (cookies : jsstring) : bool :=
  str_eqb cookies [] || str_eqb (trim cookies) [].

(** [TRPCClient.setAllCookies] *)
Definition setAllCookies (cookies : jsstring) : jsstring :=
  if blank cookies then [] else cookies.

(** [NLobbyApi.setCookies(cookies)]: the state afterwards, and whether the
    call threw (a URIError out of [parseCookies], after the HTTP client's
    header was set). *)
Definition setCookies (cookies : jsstring) (st : ApiState)
  : ApiState * bool :=
  if blank cookies then (st, false)
  else
    let st1 := {| http_cookie := Some cookies;
                  nextAuth := nextAuth st;
                  trpc_allCookies := trpc_allCookies st |} in
    match parseCookies cookies with
    | None => (st1, true)
    | Some parsed =>
        ({| http_cookie := Some cookies;
            nextAuth := parsed;
            trpc_allCookies := setAllCookies cookies |}, false)
    end.

(** A string without unpaired surrogates, each unit below 2^16. *)
Fixpoint well_formed (s : jsstring) : bool :=
  match s with
  | [] => true
  | c :: rest =>
      if is_high_surrogate c then
        match rest with
        | c2 :: rest' => is_low_surrogate c2 && well_formed rest'
        | [] => false
        end
      else negb (is_low_surrogate c) && (c <? 65536) && well_formed rest
  end.

Local Close Scope N_scope.

(* ===================================================================== *)
(** * Remote procedure client and the endpoint-discovery sweep *)
(* ===================================================================== *)

Inductive http_verb := GET | POST.

(** A request of [TRPCClient]: the procedure name is the URL below the
    base; [req_input] is the [input] query value of a GET, the JSON body of
    a POST. *)
Record http_request := mkRequest {
  req_verb : http_verb;
  req_procedure : jsstring;
  req_input : value
}.

(** What the portal does with a request: it answers with a status and a
    body, or the request gets no response (DNS, timeout, refused). *)
Inductive http_outcome :=
| Responded (status : Z) (data : value)
| NoResponse.

Inductive error_kind :=
| AuthExpired          (* "Authentication expired. Please re-authenticate..." *)
| AccessForbidden      (* "Access forbidden. Check your permissions..." *)
| EndpointNotFound     (* "tRPC endpoint not found. The API may have changed." *)
| TrpcError            (* "tRPC Error [code]: message" *)
| TypeError.

(** A thrown value: an [Error] object made by the code (which has no
    [response] property), or the rejection of the HTTP library, which
    carries the response status when there was a response. *)
Inductive js_error :=
| ErrorObject (kind : error_kind)
| AxiosError (status : option Z).

(** The error handler of the response interceptor in
    [TRPCClient.setupInterceptors]. *)
Definition response_interceptor (status : option Z) : js_error :=
  match status with
  | Some 401 => ErrorObject AuthExpired
  | Some 403 => ErrorObject AccessForbidden
  | Some 404 => ErrorObject EndpointNotFound
  | _ => AxiosError status
  end.

(** [httpClient.get] and [httpClient.post]: a 2xx response resolves to its
    data, anything else is rejected through the interceptor. *)
Definition http_send (server : http_request -> http_outcome)
  (req : http_request) : js_error + value :=
  match server req with
  | Responded status data =>
      if (200 <=? status) && (status <? 300) then inr data
      else inl (response_interceptor (Some status))
  | NoResponse => inl (response_interceptor None)
  end.

(** The reading of a response body: [data.error] throws, otherwise
    [data.result] is the value of the call. *)
Definition read_response (data : value) : js_error + value :=
  if is_nullish data then inl (ErrorObject TypeError)
  else
    let err := get data (U "error") in
    if truthy_value err then
      match ToString (get err (U "code")), ToString (get err (U "message")) with
      | Some _, Some _ => inl (ErrorObject TrpcError)
      | _, _ => inl (ErrorObject TypeError)
      end
    else inr (get data (U "result")).

(** [buildTRPCUrl]: the [input] parameter is [params], or [{}] when
    [params] is falsy. *)
Definition get_request (method : jsstring) (params : value) : http_request :=
  {| req_verb := GET; req_procedure := method;
     req_input := if truthy_value params then params else VObj [] |}.

Definition post_request (id : nat) (method : jsstring) (params : value)
  : http_request :=
  {| req_verb := POST; req_procedure := method;
     req_input := VObj [ (U "id", VNum (of_nat id));
                         (U "method", VStr method);
                         (U "params", params) ] |}.

(** [TRPCClient.call(method, params)] with the request counter [id]: a GET
    first and, when that fails in any way, a POST whose failure is the
    failure of the call. *)
Definition call (server : http_request -> http_outcome) (id : nat)
  (method : jsstring) (params : value) : (js_error + value) * nat :=
  let post :=
    match http_send server (post_request id method params) with
    | inr data => read_response data
    | inl e => inl e
    end in
  let result :=
    match http_send server (get_request method params) with
    | inr data =>
        match read_response data with
        | inr r => inr r
        | inl _ => post
        end
    | inl _ => post
    end in
  (result, S id).

(** A candidate of the sweep: its display name and the call it makes. *)
Record endpoint := mkEndpoint {
  ep_name : jsstring;
  ep_procedure : jsstring;
  ep_params : value
}.

Definition news_endpoints : list endpoint :=
  [ mkEndpoint (U "news.find") (U "news.find") VUndefined;
    mkEndpoint (U "news.list") (U "news.list") VUndefined;
    mkEndpoint (U "news.get") (U "news.get") VUndefined;
    mkEndpoint (U "news.getAll") (U "news.getAll") VUndefined;
    mkEndpoint (U "news.findAll") (U "news.findAll") VUndefined;
    mkEndpoint (U "news.findMany") (U "news.findMany") VUndefined;
    mkEndpoint (U "news.find_paginated") (U "news.find")
      (VObj [(U "take", VNum (of_Z 67)); (U "skip", VNum (of_Z 0))]);
    mkEndpoint (U "news.list_paginated") (U "news.list")
      (VObj [(U "take", VNum (of_Z 67)); (U "skip", VNum (of_Z 0))]);
    mkEndpoint (U "news.getAll_paginated") (U "news.getAll")
      (VObj [(U "take", VNum (of_Z 67)); (U "skip", VNum (of_Z 0))]);
    mkEndpoint (U "news.findMany_paginated") (U "news.findMany")
      (VObj [(U "take", VNum (of_Z 67)); (U "skip", VNum (of_Z 0))]);
    mkEndpoint (U "news.find_empty") (U "news.find") (VObj []);
    mkEndpoint (U "news.list_empty") (U "news.list") (VObj []);
    mkEndpoint (U "news.get_empty") (U "news.get") (VObj []);
    mkEndpoint (U "news.getAll_empty") (U "news.getAll") (VObj []);
    mkEndpoint (U "news.findMany_empty") (U "news.findMany") (VObj []);
    mkEndpoint (U "findAllNews") (U "news.findAll") VUndefined;
    mkEndpoint (U "findAllNews_limited") (U "news.findAll")
      (VObj [(U "limit", VNum (of_Z 67))]);
    mkEndpoint (U "listNews") (U "news.list") VUndefined;
    mkEndpoint (U "selectNews") (U "news.select") VUndefined;
    mkEndpoint (U "news.getList") (U "news.getList") VUndefined;
    mkEndpoint (U "news.getItems") (U "news.getItems") VUndefined;
    mkEndpoint (U "news.getData") (U "news.getData") VUndefined;
    mkEndpoint (U "news.getContent") (U "news.getContent") VUndefined;
    mkEndpoint (U "news.getFeed") (U "news.getFeed") VUndefined;
    mkEndpoint (U "news.getPage") (U "news.getPage") VUndefined;
    mkEndpoint (U "news.find_published") (U "news.find")
      (VObj [(U "where", VObj [(U "published", VBool true)])]);
    mkEndpoint (U "news.find_active") (U "news.find")
      (VObj [(U "where", VObj [(U "active", VBool true)])]);
    mkEndpoint (U "news.list_published") (U "news.list")
      (VObj [(U "where", VObj [(U "published", VBool true)])]);
    mkEndpoint (U "news.list_active") (U "news.list")
      (VObj [(U "where", VObj [(U "active", VBool true)])]);
    mkEndpoint (U "announcement.find") (U "announcement.find") VUndefined;
    mkEndpoint (U "announcement.list") (U "announcement.list") VUndefined;
    mkEndpoint (U "announcement.getAll") (U "announcement.getAll") VUndefined;
    mkEndpoint (U "notifications.find") (U "notifications.find") VUndefined;
    mkEndpoint (U "notifications.list") (U "notifications.list") VUndefined;
    mkEndpoint (U "notifications.getAll") (U "notifications.getAll") VUndefined;
    mkEndpoint (U "getNewsListData") (U "news.getListData") VUndefined;
    mkEndpoint (U "getNewsItems") (U "news.getItems") VUndefined;
    mkEndpoint (U "getNewsData") (U "news.getData") VUndefined;
    mkEndpoint (U "getNewsContent") (U "news.getContent") VUndefined;
    mkEndpoint (U "getNewsFeed") (U "news.getFeed") VUndefined;
    mkEndpoint (U "getNewsPage") (U "news.getPage") VUndefined;
    mkEndpoint (U "getNewsAll") (U "news.getAll") VUndefined;
    mkEndpoint (U "getNewsList2") (U "news.list") VUndefined;
    mkEndpoint (U "getRecentNews") (U "news.getRecent") VUndefined;
    mkEndpoint (U "getPublishedNews") (U "news.getPublished") VUndefined;
    mkEndpoint (U "getActiveNews") (U "news.getActive") VUndefined;
    mkEndpoint (U "queryNews") (U "news.query") VUndefined;
    mkEndpoint (U "browseNews") (U "news.browse") VUndefined;
    mkEndpoint (U "searchNews_all") (U "news.search") (VObj []);
    mkEndpoint (U "getNewsWithPagination") (U "news.findWithPagination")
      (or_else (VObj [(U "take", VNum (of_Z 50)); (U "skip", VNum (of_Z 0))]) (VObj [(U "take", VNum (of_Z 20)); (U "skip", VNum (of_Z 0))]));
    mkEndpoint (U "getNewsWithPagination_all") (U "news.findWithPagination")
      (or_else (VObj [(U "take", VNum (of_Z 100)); (U "skip", VNum (of_Z 0))]) (VObj [(U "take", VNum (of_Z 20)); (U "skip", VNum (of_Z 0))]));
    mkEndpoint (U "getNewsWithPagination_small") (U "news.findWithPagination")
      (or_else (VObj [(U "take", VNum (of_Z 10)); (U "skip", VNum (of_Z 0))]) (VObj [(U "take", VNum (of_Z 20)); (U "skip", VNum (of_Z 0))]));
    mkEndpoint (U "getNews") (U "news.find") VUndefined;
    mkEndpoint (U "getNewsList") (U "news.findMany") VUndefined;
    mkEndpoint (U "getNotificationMessages") (U "notification.getMessages") VUndefined;
    mkEndpoint (U "getNews_empty") (U "news.find") (VObj []);
    mkEndpoint (U "getNewsList_empty") (U "news.findMany") (VObj []) ].

Definition nonempty_array (v : value) : bool :=
  match v with
  | VArr (_ :: _) => true
  | _ => false
  end.

(** What the loop body does with the value of a successful call: the
    array to return, if any. *)
Definition inspect_data (data : value) : option value :=
  if truthy_value data && nonempty_array data then Some data
  else if truthy_value data && is_array data then None
  else if truthy_value data && typeof_object data then
    find nonempty_array (map snd (entries data))
  else None.

(** The [catch] block: [break] on an error that has a [response] whose
    status is 401. *)
Definition stops_sweep (e : js_error) : bool :=
  match e with
  | AxiosError (Some 401) => true
  | _ => false
  end.

Fixpoint sweep (server : http_request -> http_outcome) (id : nat)
  (endpoints : list endpoint) : option value :=
  match endpoints with
  | [] => None
  | ep :: rest =>
      match call server id (ep_procedure ep) (ep_params ep) with
      | (inr data, id') =>
          match inspect_data data with
          | Some found => Some found
          | None => sweep server id' rest
          end
      | (inl e, id') =>
          if stops_sweep e then None else sweep server id' rest
      end
  end.

(** [tryMultipleNewsEndpoints]; [None] is [null]. *)
Definition tryMultipleNewsEndpoints (server : http_request -> http_outcome)
  (id : nat) : option value :=
  sweep server id news_endpoints.


(* ===================================================================== *)
(** * [JSON.parse] *)
(* ===================================================================== *)

(** The code unit of the double quote. *)
Definition dq : N := 34%N.

Definition is_json_space (c : N) : bool :=
  N.eqb c 32 || N.eqb c 9 || N.eqb c 10 || N.eqb c 13.

Fixpoint skip_ws (s : jsstring) : jsstring :=
  match s with
  | c :: rest => if is_json_space c then skip_ws rest else s
  | [] => []
  end.

Definition hex4 (a b c d : N) : option N :=
  match hex_value a, hex_value b, hex_value c, hex_value d with
  | Some x, Some y, Some z, Some w =>
      Some (((x * 16 + y) * 16 + z) * 16 + w)%N
  | _, _, _, _ => None
  end.

(** The characters of a string literal after the opening quote, and the
    text after the closing quote. *)
Fixpoint json_string (s : jsstring) : option (jsstring * jsstring) :=
  match s with
  | [] => None
  | c :: rest =>
      if N.eqb c (dq) then Some ([], rest)
      else if N.eqb c (ch "\") then
        match rest with
        | e :: rest1 =>
            let simple (x : N) :=
              match json_string rest1 with
              | Some (t, r) => Some (x :: t, r)
              | None => None
              end in
            if N.eqb e (dq) then simple (dq)
            else if N.eqb e (ch "\") then simple (ch "\")
            else if N.eqb e (ch "/") then simple (ch "/")
            else if N.eqb e (ch "b") then simple 8%N
            else if N.eqb e (ch "f") then simple 12%N
            else if N.eqb e (ch "n") then simple 10%N
            else if N.eqb e (ch "r") then simple 13%N
            else if N.eqb e (ch "t") then simple 9%N
            else if N.eqb e (ch "u") then
              match rest1 with
              | a :: b :: c' :: d :: rest2 =>
                  match hex4 a b c' d, json_string rest2 with
                  | Some x, Some (t, r) => Some (x :: t, r)
                  | _, _ => None
                  end
              | _ => None
              end
            else None
        | [] => None
        end
      else if (c <? 32)%N then None
      else match json_string rest with
           | Some (t, r) => Some (c :: t, r)
           | None => None
           end
  end.

Fixpoint take_digits (s : jsstring) : jsstring * jsstring :=
  match s with
  | c :: rest =>
      if is_digit c then let '(ds, r) := take_digits rest in (c :: ds, r)
      else ([], s)
  | [] => ([], [])
  end.

(** A number literal: [-? int frac? exp?]. *)
Definition json_number (s : jsstring) : option (number * jsstring) :=
  let '(neg, s1) := match s with
                    | c :: r => if N.eqb c (ch "-") then (true, r)
                                else (false, s)
                    | [] => (false, s)
                    end in
  let '(int, s2) := take_digits s1 in
  match int with
  | [] => None
  | d :: more =>
      if N.eqb d (ch "0") && negb (str_eqb more []) then None else
      let frac_part :=
        match s2 with
        | c :: r =>
            if N.eqb c (ch ".") then
              let '(fs, r') := take_digits r in
              match fs with
              | [] => None
              | _ => Some (fs, r')
              end
            else Some ([], s2)
        | [] => Some ([], s2)
        end in
      match frac_part with
      | None => None
      | Some (frac, s3) =>
          let exp_part :=
            match s3 with
            | c :: r =>
                if N.eqb c (ch "e") || N.eqb c (ch "E") then
                  let '(eneg, r1) :=
                    match r with
                    | x :: r' =>
                        if N.eqb x (ch "-") then (true, r')
                        else if N.eqb x (ch "+") then (false, r')
                        else (false, r)
                    | [] => (false, r)
                    end in
                  let '(es, r2) := take_digits r1 in
                  match es with
                  | [] => None
                  | _ => Some (cond_Zopp eneg (numeral_value es), r2)
                  end
                else Some (0, s3)
            | [] => Some (0, s3)
            end in
          match exp_part with
          | None => None
          | Some (e, rest) =>
              Some (of_decimal neg (numeral_value (int ++ frac))
                               (e - Z.of_nat (length frac)), rest)
          end
      end
  end.

(** Values, array elements and object members, by recursive descent. *)
Fixpoint json_value (fuel : nat) (s : jsstring) : option (value * jsstring) :=
  match fuel with
  | O => None
  | S f =>
      match skip_ws s with
      | [] => None
      | c :: rest =>
          if N.eqb c (ch "{") then
            match skip_ws rest with
            | x :: r => if N.eqb x (ch "}") then Some (VObj [], r)
                        else json_members f (skip_ws rest) []
            | [] => None
            end
          else if N.eqb c (ch "[") then
            match skip_ws rest with
            | x :: r => if N.eqb x (ch "]") then Some (VArr [], r)
                        else json_elements f (skip_ws rest) []
            | [] => None
            end
          else if N.eqb c (dq) then
            match json_string rest with
            | Some (t, r) => Some (VStr t, r)
            | None => None
            end
          else if starts_with (U "true") (c :: rest) then
            Some (VBool true, skipn 4 (c :: rest))
          else if starts_with (U "false") (c :: rest) then
            Some (VBool false, skipn 5 (c :: rest))
          else if starts_with (U "null") (c :: rest) then
            Some (VNull, skipn 4 (c :: rest))
          else
            match json_number (c :: rest) with
            | Some (x, r) => Some (VNum x, r)
            | None => None
            end
      end
  end

with json_elements (fuel : nat) (s : jsstring) (acc : list value)
  : option (value * jsstring) :=
  match fuel with
  | O => None
  | S f =>
      match json_value f s with
      | None => None
      | Some (v, r) =>
          match skip_ws r with
          | c :: r' =>
              if N.eqb c (ch ",") then json_elements f r' (acc ++ [v])
              else if N.eqb c (ch "]") then Some (VArr (acc ++ [v]), r')
              else None
          | [] => None
          end
      end
  end

with json_members (fuel : nat) (s : jsstring) (acc : list (jsstring * value))
  : option (value * jsstring) :=
  match fuel with
  | O => None
  | S f =>
      match skip_ws s with
      | q :: r0 =>
          if N.eqb q (dq) then
            match json_string r0 with
            | None => None
            | Some (key, r1) =>
                match skip_ws r1 with
                | c :: r2 =>
                    if N.eqb c (ch ":") then
                      match json_value f r2 with
                      | None => None
                      | Some (v, r3) =>
                          let acc' := define_prop acc key v in
                          match skip_ws r3 with
                          | d :: r4 =>
                              if N.eqb d (ch ",") then json_members f r4 acc'
                              else if N.eqb d (ch "}") then
                                Some (VObj acc', r4)
                              else None
                          | [] => None
                          end
                      end
                    else None
                | [] => None
                end
            end
          else None
      | [] => None
      end
  end.

(** [JSON.parse(text)]; [None] is a SyntaxError.  Every step of the descent
    consumes a character, so the fuel is never what ends it. *)
Definition JSON_parse (text : jsstring) : option value :=
  match json_value (2 * length text + 2) text with
  | Some (v, rest) =>
      match skip_ws rest with
      | [] => Some v
      | _ :: _ => None
      end
  | None => None
  end.

(* ===================================================================== *)
(** * Regular expressions *)
(* ===================================================================== *)

(** The constructs the patterns of the code use.  Matching is the
    backtracking search of the language: alternatives left to right, a
    greedy star longest first, a lazy star shortest first. *)
Inductive regex :=
| RChar (c : N)
| RSet (p : N -> bool)
| RSeq (a b : regex)
| RAlt (a b : regex)
| RStar (greedy : bool) (a : regex)
| RGroup (i : nat) (a : regex)
| REps
| REnd.

Definition captures := list (nat * jsstring).

Definition matcher (R : Type) :=
  jsstring -> captures -> (jsstring -> captures -> option R) -> option R.

(** Iteration of a star; an iteration that consumes nothing is refused. *)
Fixpoint star_loop {R : Type} (m : matcher R) (greedy : bool) (fuel : nat)
  : matcher R :=
  fun s caps k =>
    match fuel with
    | O => k s caps
    | S f =>
        let more :=
          m s caps (fun s1 c1 =>
                      if (length s1 <? length s)%nat
                      then star_loop m greedy f s1 c1 k else None) in
        if greedy then
          match more with
          | Some x => Some x
          | None => k s caps
          end
        else
          match k s caps with
          | Some x => Some x
          | None => more
          end
    end.

Fixpoint rmatch {R : Type} (r : regex) : matcher R :=
  fun s caps k =>
    match r with
    | RChar c =>
        match s with
        | x :: s' => if N.eqb x c then k s' caps else None
        | [] => None
        end
    | RSet p =>
        match s with
        | x :: s' => if p x then k s' caps else None
        | [] => None
        end
    | RSeq a b => rmatch a s caps (fun s1 c1 => rmatch b s1 c1 k)
    | RAlt a b =>
        match rmatch a s caps k with
        | Some x => Some x
        | None => rmatch b s caps k
        end
    | RStar greedy a => star_loop (rmatch a) greedy (length s) s caps k
    | RGroup i a =>
        rmatch a s caps
               (fun s1 c1 =>
                  k s1 ((i, firstn (length s - length s1) s) :: c1))
    | REps => k s caps
    | REnd =>
        match s with
        | [] => k s caps
        | _ :: _ => None
        end
    end.

(** A match: the text before it, the matched text, the groups, the text
    after it. *)
Record rmatch_result := mkMatch {
  m_before : jsstring;
  m_text : jsstring;
  m_groups : captures;
  m_after : jsstring
}.

(** A match that starts exactly at the start of [s]. *)
Definition match_here (r : regex) (s : jsstring) : option rmatch_result :=
  match rmatch r s [] (fun rest caps => Some (rest, caps)) with
  | Some (rest, caps) =>
      Some {| m_before := []; m_text := firstn (length s - length rest) s;
              m_groups := caps; m_after := rest |}
  | None => None
  end.

(** The leftmost match in [s]. *)
Fixpoint search (r : regex) (before s : jsstring) : option rmatch_result :=
  match match_here r s with
  | Some m => Some {| m_before := before; m_text := m_text m;
                      m_groups := m_groups m; m_after := m_after m |}
  | None =>
      match s with
      | [] => None
      | c :: rest => search r (before ++ [c]) rest
      end
  end.

(** All matches of a global pattern, left to right. *)
Fixpoint search_all (fuel : nat) (r : regex) (s : jsstring)
  : list rmatch_result :=
  match fuel with
  | O => []
  | S f =>
      match search r [] s with
      | None => []
      | Some m =>
          m :: match m_text m, m_after m with
               | [], [] => []
               | [], _ :: rest => search_all f r rest
               | _ :: _, after => search_all f r after
               end
      end
  end.

Definition match_all (r : regex) (s : jsstring) : list rmatch_result :=
  search_all (S (length s)) r s.

(** The text of group [i]; a group that took no part is [undefined],
    which the code treats like the empty string. *)
Definition group (i : nat) (m : rmatch_result) : jsstring :=
  match find (fun g => Nat.eqb (fst g) i) (m_groups m) with
  | Some (_, t) => t
  | None => []
  end.

(** [s.replace(/r/g, by)] *)
Fixpoint replace_all_fuel (fuel : nat) (r : regex) (by_ s : jsstring)
  : jsstring :=
  match fuel with
  | O => s
  | S f =>
      match search r [] s with
      | None => s
      | Some m =>
          m_before m ++ by_ ++
          match m_text m, m_after m with
          | [], [] => []
          | [], c :: rest => c :: replace_all_fuel f r by_ rest
          | _ :: _, after => replace_all_fuel f r by_ after
          end
      end
  end.

Definition replace_all (r : regex) (by_ s : jsstring) : jsstring :=
  replace_all_fuel (S (length s)) r by_ s.

(** [s.replace(/r/, by)] *)
Definition replace_first (r : regex) (by_ s : jsstring) : jsstring :=
  match search r [] s with
  | None => s
  | Some m => m_before m ++ by_ ++ m_after m
  end.

(** ** Pattern vocabulary *)

Fixpoint lit_units (cs : jsstring) : regex :=
  match cs with
  | [] => REps
  | [c] => RChar c
  | c :: rest => RSeq (RChar c) (lit_units rest)
  end.

(** The pattern that matches a literal text. *)
Definition lit (text : string) : regex := lit_units (U text).

Definition is_line_terminator (c : N) : bool :=
  N.eqb c 10 || N.eqb c 13 || N.eqb c 8232 || N.eqb c 8233.

(** The dot without and with the [s] flag, a digit, a blank, and any
    character but [c]. *)
Definition dot : regex := RSet (fun c => negb (is_line_terminator c)).
Definition any : regex := RSet (fun _ => true).
Definition digit : regex := RSet is_digit.
Definition space : regex := RSet is_space.
Definition none_of (c : N) : regex :=
  RSet (fun x => negb (N.eqb x c)).

Definition star (a : regex) : regex := RStar true a.
Definition lazy_star (a : regex) : regex := RStar false a.
Definition plus (a : regex) : regex := RSeq a (RStar true a).
Definition opt (a : regex) : regex := RAlt a REps.

Fixpoint rseq (rs : list regex) : regex :=
  match rs with
  | [] => REps
  | [r] => r
  | r :: rest => RSeq r (rseq rest)
  end.

(* ===================================================================== *)
(** * News: extraction from rendered pages and normalisation *)
(* ===================================================================== *)

(** The configured base URL of the portal, [CONFIG.nlobby.baseUrl]. *)
Variable baseUrl : jsstring.

(** ** Canonical entities *)

Inductive news_priority := High | Medium | Low.

(** [NLobbyAnnouncement] as the normaliser builds it; [extra] holds the
    further properties of the upstream record that the spread preserves. *)
Record NLobbyAnnouncement := mkAnnouncement {
  ann_id : jsstring;
  ann_title : value;
  ann_content : value;
  publishedAt : JSDate;
  category : value;
  priority : news_priority;
  targetAudience : value;
  ann_url : jsstring;
  menuName : value;
  isImportant : value;
  isUnread : value;
  extra : list (jsstring * value)
}.

Record NLobbyNewsDetail := mkNewsDetail {
  detail_id : value;
  detail_microCmsId : value;
  detail_title : value;
  detail_content : value;
  detail_description : value;
  detail_publishedAt : JSDate;
  detail_menuName : value;
  detail_isImportant : value;
  detail_isByMentor : value;
  detail_attachments : value;
  detail_relatedEvents : value;
  detail_targetUserQueryId : value;
  detail_url : jsstring
}.

(** ** Searching parsed payloads *)

Definition news_like (obj : value) : bool :=
  truthy_value (get obj (U "id")) && truthy_value (get obj (U "title"))
  && (truthy_value (get obj (U "publishedAt"))
      || truthy_value (get obj (U "description"))
      || truthy_value (get obj (U "menuName"))).

Definition has_news_object (obj : value) : bool :=
  truthy_value (get obj (U "news")) && typeof_object (get obj (U "news")).

(** [searchForNewsDataInObject]; [None] is [null]. *)
Fixpoint searchForNewsDataInObject (obj : value) : option value :=
  if negb (truthy_value obj) || negb (typeof_object obj) then None
  else if news_like obj then Some obj
  else if has_news_object obj then Some (get obj (U "news"))
  else
    match obj with
    | VObj props =>
        (fix over (l : list (jsstring * value)) : option value :=
           match l with
           | [] => None
           | (_, v) :: rest =>
               match (if truthy_value v && typeof_object v
                      then searchForNewsDataInObject v else None) with
               | Some found => Some found
               | None => over rest
               end
           end) props
    | VArr items =>
        (fix over (l : list value) : option value :=
           match l with
           | [] => None
           | v :: rest =>
               match (if truthy_value v && typeof_object v
                      then searchForNewsDataInObject v else None) with
               | Some found => Some found
               | None => over rest
               end
           end) items
    | _ => None
    end.

Definition news_properties : list jsstring :=
  [U "title"; U "name"; U "content"; U "publishedAt"; U "menuName";
   U "createdAt"; U "updatedAt"; U "id"].

(** [newsProperties.some((prop) => prop in firstItem)] *)
Definition has_news_property (firstItem : value) : bool :=
  match firstItem with
  | VObj props => existsb (fun prop => has_own prop props) news_properties
  | _ => false
  end.

(** [searchForNewsInData]: the records of the arrays found. *)
Fixpoint searchForNewsInData (obj : value) : list value :=
  match obj with
  | VArr items =>
      match items with
      | firstItem :: _ =>
          if truthy_value firstItem && typeof_object firstItem
             && has_news_property firstItem
          then items else []
      | [] => []
      end
  | VObj props =>
      flat_map (fun kv => match kv with
                          | (_, v) => searchForNewsInData v
                          end) props
  | _ => []
  end.

(** [decodeHtmlContent]: the escapes backslash-u003c, backslash-u003e,
    backslash-u0026, backslash-quote and double backslash, replaced in
    this order. *)
Definition backslash : N := 92%N.

Definition decodeHtmlContent (content : jsstring) : jsstring :=
  match content with
  | [] => []
  | _ =>
      replace_all (lit_units [backslash; backslash]) [backslash]
        (replace_all (lit_units [backslash; dq]) [dq]
           (replace_all (lit_units (backslash :: U "u0026")) (U "&")
              (replace_all (lit_units (backslash :: U "u003e")) (U ">")
                 (replace_all (lit_units (backslash :: U "u003c")) (U "<")
                    content))))
  end.

(** ** [transformNewsToAnnouncements] *)

(** The first of the date fields that is truthy decides the date. *)
Definition published_date (now : Z) (item : value) : option JSDate :=
  if truthy_value (get item (U "publishedAt")) then
    Date_new (get item (U "publishedAt"))
  else if truthy_value (get item (U "createdAt")) then
    Date_new (get item (U "createdAt"))
  else if truthy_value (get item (U "updatedAt")) then
    Date_new (get item (U "updatedAt"))
  else if truthy_value (get item (U "date")) then
    Date_new (get item (U "date"))
  else Some (Some now).

Definition news_priority_of (item : value) : news_priority :=
  if is_true (get item (U "isImportant")) || is_true (get item (U "important"))
     || is_string (get item (U "priority")) (U "high")
     || is_true (get item (U "urgent"))
  then High
  else if is_string (get item (U "priority")) (U "low")
          || is_true (get item (U "minor"))
  then Low
  else Medium.

(** [index.toString()] *)
Definition index_string (index : nat) : jsstring :=
  Number_toString (of_nat index).

(** [item.id?.toString() || index.toString()] *)
Definition announcement_id (item : value) (index : nat) : option jsstring :=
  let id := get item (U "id") in
  if is_nullish id then Some (index_string index)
  else match ToString id with
       | None => None
       | Some [] => Some (index_string index)
       | Some s => Some s
       end.

(** The template [baseUrl/news/newsId] with [newsId = item.id || index]. *)
Definition announcement_url (item : value) (index : nat) : option jsstring :=
  let newsId := or_else (get item (U "id")) (VNum (of_nat index)) in
  match ToString newsId with
  | Some s => Some (baseUrl ++ U "/news/" ++ s)
  | None => None
  end.

Definition named_fields : list jsstring :=
  [U "id"; U "title"; U "content"; U "publishedAt"; U "category";
   U "priority"; U "url"].

Definition literal_fields : list jsstring :=
  [U "targetAudience"; U "menuName"; U "isImportant"; U "isUnread"].

Definition mem (k : jsstring) (l : list jsstring) : bool :=
  existsb (str_eqb k) l.

(** The object literal of the [map] callback; [None] is a TypeError. *)
Definition transform_item (now : Z) (item : value) (index : nat)
  : option NLobbyAnnouncement :=
  if is_nullish item then None else
  match published_date now item, announcement_url item index,
        announcement_id item index with
  | Some publishedDate, Some fullUrl, Some id =>
      let spread := filter (fun kv => negb (mem (fst kv) named_fields))
                           (entries item) in
      Some {| ann_id := id;
              ann_title :=
                or_else (get item (U "title"))
                  (or_else (get item (U "name"))
                     (or_else (get item (U "subject"))
                        (or_else (get item (U "heading"))
                           (VStr (U "News Item "
                                  ++ index_string (S index))))));
              ann_content :=
                or_else (get item (U "content"))
                  (or_else (get item (U "description"))
                     (or_else (get item (U "body"))
                        (or_else (get item (U "text"))
                           (or_else (get item (U "summary")) (VStr [])))));
              publishedAt := publishedDate;
              category :=
                or_else (get item (U "category"))
                  (or_else (get item (U "menuName"))
                     (or_else (get item (U "type"))
                        (or_else (get item (U "classification"))
                           (VStr (U "General")))));
              priority := news_priority_of item;
              targetAudience :=
                match lookup (U "targetAudience") spread with
                | Some v => v
                | None => or_else (get item (U "targetAudience"))
                                  (VArr [VStr (U "student")])
                end;
              ann_url := fullUrl;
              menuName := get item (U "menuName");
              isImportant := get item (U "isImportant");
              isUnread := get item (U "isUnread");
              extra := filter (fun kv => negb (mem (fst kv) literal_fields))
                              spread |}
  | _, _, _ => None
  end.

(** The clock of a run: [time n] is what the evaluation number [n] of
    [new Date()] reads.  The functions that read it take the number of
    readings made so far and return the number made after them. *)
Definition clock := nat -> Z.

(** The [map] over the records: every record reads the clock once, before
    anything else; a TypeError ends the map. *)
Fixpoint transform_from (time : clock) (n index : nat) (newsData : list value)
  : option (list NLobbyAnnouncement) * nat :=
  match newsData with
  | [] => (Some [], n)
  | item :: rest =>
      match transform_item (time n) item index with
      | None => (None, S n)
      | Some a =>
          match transform_from time (S n) (S index) rest with
          | (Some l, n') => (Some (a :: l), n')
          | (None, n') => (None, n')
          end
      end
  end.

Definition transformNewsToAnnouncements (time : clock) (n : nat)
  (newsData : list value) : option (list NLobbyAnnouncement) * nat :=
  transform_from time n 0 newsData.

(** ** Patterns of the extraction *)

Definition lbracket : N := 91%N.
Definition rbracket : N := 93%N.

(** The pattern of a push call: the text self.__next_f.push, an opening
    parenthesis, group 1 made of a bracket, a lazy run of the dot and a
    bracket, and a closing parenthesis. *)
Definition push_pattern : regex :=
  rseq [lit "self.__next_f.push(";
        RGroup 1 (rseq [RChar lbracket; lazy_star dot; RChar rbracket]);
        RChar (ch ")")].

(** A reference marker, from the start to the end of the text: digits, a
    colon, T, digits and an optional comma. *)
Definition marker_pattern : regex :=
  rseq [plus digit; RChar (ch ":"); RChar (ch "T"); plus digit;
        opt (RChar (ch ",")); REnd].

(** The prefix form, from the start of the text: group 1 of digits, a
    colon, and group 2, the greedy run of the dot. *)
Definition prefix_pattern : regex :=
  rseq [RGroup 1 (plus digit); RChar (ch ":"); RGroup 2 (star dot)].

(** A comma at the end of the text. *)
Definition trailing_comma : regex := rseq [RChar (ch ","); REnd].

Definition braces_lazy : regex :=
  rseq [RChar (ch "{"); lazy_star any; RChar (ch "}")].

(** window.__NEXT_DATA__ = { ... } followed by blanks and a semicolon or
    the end of the script element (flag s). *)
Definition next_data_window : regex :=
  rseq [lit "window.__NEXT_DATA__"; star space; RChar (ch "="); star space;
        RGroup 1 braces_lazy;
        star space; RAlt (RChar (ch ";")) (lit "</script>")].

(** The script element with id __NEXT_DATA__: group 1 is its text up to
    the first angle bracket (flag s). *)
Definition next_data_script : regex :=
  rseq [lit "<script id="; RChar dq; lit "__NEXT_DATA__"; RChar dq;
        star (none_of (ch ">")); RChar (ch ">");
        RGroup 1 (star (none_of (ch "<"))); lit "</script>"].

(** __NEXT_DATA__ = { ... } followed by a semicolon, or by blanks and the
    end of the script element (flag s). *)
Definition next_data_assign : regex :=
  rseq [lit "__NEXT_DATA__"; star space; RChar (ch "="); star space;
        RGroup 1 braces_lazy;
        RAlt (RChar (ch ";")) (rseq [star space; lit "</script>"])].

(** A quoted key, a colon, blanks, and group 1: a bracket, a lazy run of
    the dot and a bracket (flag g). *)
Definition inline_array (key : string) : regex :=
  rseq [RChar dq; lit key; RChar dq; RChar (ch ":"); star space;
        RGroup 1 (rseq [RChar lbracket; lazy_star dot; RChar rbracket])].

(** The attribute data-name with a quoted value (group 1) that ends the
    tag (flag g). *)
Definition data_attribute (name : string) : regex :=
  rseq [lit "data-"; lit name; RChar (ch "="); RChar dq;
        RGroup 1 (star (none_of dq)); RChar dq; RChar (ch ">")].

(** A script element whose text holds a bracketed run, group 1 (flags g
    and s). *)
Definition script_array : regex :=
  rseq [lit "<script"; star (none_of (ch ">")); RChar (ch ">");
        lazy_star any;
        RGroup 1 (rseq [RChar lbracket; lazy_star any; RChar rbracket]);
        lazy_star any; lit "</script>"].

(** Group 1 of the push pattern in [pushCall], parsed: the array a push
    call carries, when its text is JSON. *)
Definition push_data (pushCall : jsstring) : option (list value) :=
  match search push_pattern [] pushCall with
  | None => None
  | Some m =>
      match JSON_parse (group 1 m) with
      | Some (VArr items) => Some items
      | _ => None
      end
  end.

(** [pushData.length >= 2 && typeof pushData[1] === "string"] *)
Definition payload_string (pushData : list value) : option jsstring :=
  match pushData with
  | _ :: VStr s :: _ => Some s
  | _ => None
  end.

(** ** [parseNewsDetailFromHtml] *)

(** The side table from reference markers to content, a [Map] in insertion
    order, and the record found so far. *)
Record detail_scan := mkScan {
  newsData : option value;
  contentReferences : list (jsstring * jsstring)
}.

Fixpoint map_set (k v : jsstring) (m : list (jsstring * jsstring))
  : list (jsstring * jsstring) :=
  match m with
  | [] => [(k, v)]
  | (k', v') :: rest =>
      if str_eqb k k' then (k', v) :: rest else (k', v') :: map_set k v rest
  end.

Definition is_match (r : regex) (s : jsstring) : bool :=
  match match_here r s with
  | Some _ => true
  | None => false
  end.

(** One round of the loop over the push calls; [next] is the push call
    after this one, if any.  A failure to parse ends the round. *)
Definition detail_step (st : detail_scan) (pushCall : jsstring)
  (next : option jsstring) : detail_scan :=
  match push_data pushCall with
  | None => st
  | Some pushData =>
      match payload_string pushData with
      | None => st
      | Some stringData =>
          if is_match marker_pattern stringData then
            let refKey := replace_first trailing_comma [] stringData in
            match next with
            | None => st
            | Some nextPushCall =>
                match push_data nextPushCall with
                | None => st
                | Some nextPushData =>
                    match payload_string nextPushData with
                    | Some content =>
                        {| newsData := newsData st;
                           contentReferences :=
                             map_set refKey content (contentReferences st) |}
                    | None => st
                    end
                end
            end
          else
            match match_here prefix_pattern stringData with
            | None => st
            | Some prefixMatch =>
                match JSON_parse (group 2 prefixMatch) with
                | None => st
                | Some parsedContent =>
                    match searchForNewsDataInObject parsedContent with
                    | Some found =>
                        {| newsData := Some found;
                           contentReferences := contentReferences st |}
                    | None => st
                    end
                end
            end
      end
  end.

Fixpoint detail_loop (st : detail_scan) (pushCalls : list jsstring)
  : detail_scan :=
  match pushCalls with
  | [] => st
  | pushCall :: rest =>
      detail_loop (detail_step st pushCall (hd_error rest)) rest
  end.

(** [description.includes(refKey)]; [None] is a TypeError. *)
Definition description_includes (description : value) (refKey : jsstring)
  : option bool :=
  match description with
  | VStr d => Some (includes d refKey)
  | VArr items => Some (existsb (fun x => is_string x refKey) items)
  | _ => None
  end.

(** The loop over the side table, left by [break] at the first marker the
    description mentions. *)
Fixpoint content_by_reference (description : value)
  (refs : list (jsstring * jsstring)) : option jsstring :=
  match refs with
  | [] => Some []
  | (refKey, content) :: rest =>
      match description_includes description refKey with
      | None => None
      | Some true => Some content
      | Some false => content_by_reference description rest
      end
  end.

Definition parseNewsDetailFromHtml (now : Z) (html newsId : jsstring)
  : option NLobbyNewsDetail :=
  match map m_text (match_all push_pattern html) with
  | [] => None
  | nextFPushMatches =>
      let st := detail_loop {| newsData := None; contentReferences := [] |}
                            nextFPushMatches in
      match newsData st with
      | None => None
      | Some data =>
          let refs := contentReferences st in
          match (if truthy_value (get data (U "description"))
                 then content_by_reference (get data (U "description")) refs
                 else Some []) with
          | None => None
          | Some found =>
              let contentData :=
                match found, refs with
                | [], (_, first) :: _ => first
                | _, _ => found
                end in
              match (if truthy_value (get data (U "publishedAt"))
                     then Date_new (get data (U "publishedAt"))
                     else Some (Some now)) with
              | None => None
              | Some published =>
                  Some {| detail_id := or_else (get data (U "id")) (VStr newsId);
                          detail_microCmsId := get data (U "microCmsId");
                          detail_title :=
                            or_else (get data (U "title"))
                                    (VStr (U "No Title"));
                          detail_content :=
                            or_else (VStr (decodeHtmlContent contentData))
                              (or_else (get data (U "description")) (VStr []));
                          detail_description := get data (U "description");
                          detail_publishedAt := published;
                          detail_menuName :=
                            or_else (get data (U "menuName")) (VArr []);
                          detail_isImportant :=
                            or_else (get data (U "isImportant")) (VBool false);
                          detail_isByMentor :=
                            or_else (get data (U "isByMentor")) (VBool false);
                          detail_attachments :=
                            or_else (get data (U "attachments")) (VArr []);
                          detail_relatedEvents :=
                            or_else (get data (U "relatedEvents")) (VArr []);
                          detail_targetUserQueryId :=
                            get data (U "targetUserQueryId");
                          detail_url := baseUrl ++ U "/news/" ++ newsId |}
              end
          end
      end
  end.

(** ** The document tree and [parseAnnouncementsWithCheerio] *)

#[local] Unset Elimination Schemes.
Inductive node : Type :=
| Element (tag : jsstring) (attrs : list (jsstring * jsstring))
          (children : list node)
| TextNode (data : jsstring)
| OtherNode.
#[local] Set Elimination Schemes.

(** The parser of the DOM library. *)
Variable cheerio_load : jsstring -> list node.

(** A place in the document: the child indices from the roots down. *)
Definition path := list nat.

Fixpoint located (prefix : path) (n : node) : list (path * node) :=
  (prefix, n) ::
  match n with
  | Element _ _ children =>
      (fix walk (i : nat) (l : list node) : list (path * node) :=
         match l with
         | [] => []
         | c :: rest => located (prefix ++ [i]) c ++ walk (S i) rest
         end) 0%nat children
  | _ => []
  end.

(** Every node of a document with its place, in document order. *)
Fixpoint located_roots (i : nat) (roots : list node) : list (path * node) :=
  match roots with
  | [] => []
  | r :: rest => located [i] r ++ located_roots (S i) rest
  end.

Fixpoint proper_prefix (p q : path) : bool :=
  match p, q with
  | [], _ :: _ => true
  | a :: p', b :: q' => Nat.eqb a b && proper_prefix p' q'
  | _, _ => false
  end.

(** The textual value of an attribute list entry. *)
Fixpoint attribute (name : jsstring) (attrs : list (jsstring * jsstring))
  : option jsstring :=
  match attrs with
  | [] => None
  | (k, v) :: rest => if str_eqb k name then Some v else attribute name rest
  end.

(** The selectors [tag] and [tag[role="value"]]. *)
Definition is_tag (tag : string) (n : node) : bool :=
  match n with
  | Element t _ _ => str_eqb t (U tag)
  | _ => false
  end.

Definition is_element (n : node) : bool :=
  match n with
  | Element _ _ _ => true
  | _ => false
  end.

Definition div_with_role (role : string) (n : node) : bool :=
  match n with
  | Element t attrs _ =>
      str_eqb t (U "div") &&
      match attribute (U "role") attrs with
      | Some v => str_eqb v (U role)
      | None => false
      end
  | _ => false
  end.

(** [selection.find(selector)]: the matching descendants of the selected
    elements, each once, in document order. *)
Definition find_in (doc : list (path * node)) (selection : list (path * node))
  (selector : node -> bool) : list (path * node) :=
  filter (fun pn => selector (snd pn)
                    && existsb (fun s => proper_prefix (fst s) (fst pn))
                               selection) doc.

(** [selection.attr(name)]: the attribute of the first selected element. *)
Definition attr_of (selection : list (path * node)) (name : jsstring)
  : option jsstring :=
  match selection with
  | (_, Element _ attrs _) :: _ => attribute name attrs
  | _ => None
  end.

Fixpoint text_content (n : node) : jsstring :=
  match n with
  | Element _ _ children =>
      (fix all (l : list node) : jsstring :=
         match l with
         | [] => []
         | c :: rest => text_content c ++ all rest
         end) children
  | TextNode data => data
  | OtherNode => []
  end.

(** [selection.text()] *)
Definition text_of (selection : list (path * node)) : jsstring :=
  concat (map (fun pn => text_content (snd pn)) selection).

(** The cells of one row are folded into these variables. *)
Record row_fields := mkRow {
  row_title : jsstring;
  row_category : jsstring;
  row_publishedAt : JSDate;
  row_isImportant : bool;
  row_isUnread : bool;
  row_url : jsstring
}.

Definition kw_midoku : jsstring := [26410; 35501]%N.        (* 未読 *)

Definition news_path : jsstring := U "/news/".

(** The body of [cells.each]: the [switch] on the cell's [data-field]. *)
Definition read_cell (doc : list (path * node)) (rowId : jsstring)
  (f : row_fields) (cell : path * node) : row_fields :=
  let text := trim (text_of [cell]) in
  match attr_of [cell] (U "data-field") with
  | None => f
  | Some field =>
      if str_eqb field (U "title") then
        let link := find_in doc [cell] (is_tag "a") in
        match link with
        | _ :: _ =>
            let url :=
              match attr_of link (U "href") with
              | Some hrefUrl =>
                  if negb (str_eqb hrefUrl [])
                     && starts_with news_path hrefUrl
                  then baseUrl ++ hrefUrl
                  else baseUrl ++ news_path ++ rowId
              | None => baseUrl ++ news_path ++ rowId
              end in
            let titleSpan := find_in doc link (is_tag "span") in
            let title :=
              match titleSpan with
              | _ :: _ => trim (text_of titleSpan)
              | [] => trim (text_of link)
              end in
            {| row_title := title; row_category := row_category f;
               row_publishedAt := row_publishedAt f;
               row_isImportant := row_isImportant f;
               row_isUnread := row_isUnread f; row_url := url |}
        | [] =>
            {| row_title := text; row_category := row_category f;
               row_publishedAt := row_publishedAt f;
               row_isImportant := row_isImportant f;
               row_isUnread := row_isUnread f;
               row_url := baseUrl ++ news_path ++ rowId |}
        end
      else if str_eqb field (U "menuName") then
        {| row_title := row_title f; row_category := text;
           row_publishedAt := row_publishedAt f;
           row_isImportant := row_isImportant f;
           row_isUnread := row_isUnread f; row_url := row_url f |}
      else if str_eqb field (U "isImportant") then
        {| row_title := row_title f; row_category := row_category f;
           row_publishedAt := row_publishedAt f;
           row_isImportant :=
             negb (str_eqb text [])
             || negb (Nat.eqb (length (find_in doc [cell] is_element)) 0);
           row_isUnread := row_isUnread f; row_url := row_url f |}
      else if str_eqb field (U "isUnread") then
        {| row_title := row_title f; row_category := row_category f;
           row_publishedAt := row_publishedAt f;
           row_isImportant := row_isImportant f;
           row_isUnread := includes text kw_midoku || negb (str_eqb text []);
           row_url := row_url f |}
      else if str_eqb field (U "publishedAt") then
        match text with
        | [] => f
        | _ =>
            match Date_parse (replace_all (lit "/") (U "-") text) with
            | Some t =>
                {| row_title := row_title f; row_category := row_category f;
                   row_publishedAt := Some t;
                   row_isImportant := row_isImportant f;
                   row_isUnread := row_isUnread f; row_url := row_url f |}
            | None => f
            end
        end
      else f
  end.

Definition student_audience : value := VArr [VStr (U "student")].

(** The body of [rows.each]: the announcement of a row, if it has an
    identifier and a title.  A row with an identifier reads the clock. *)
Definition read_row (time : clock) (n : nat) (doc : list (path * node))
  (row : path * node) : option NLobbyAnnouncement * nat :=
  match attr_of [row] (U "data-id") with
  | None | Some [] => (None, n)
  | Some rowId =>
      let cells := find_in doc [row] (div_with_role "gridcell") in
      let f := fold_left (read_cell doc rowId) cells
                 {| row_title := []; row_category := [];
                    row_publishedAt := Some (time n);
                    row_isImportant := false; row_isUnread := false;
                    row_url := [] |} in
      (match row_title f with
       | [] => None
       | title =>
           Some {| ann_id := rowId;
                   ann_title := VStr title;
                   ann_content := VStr [];
                   publishedAt := row_publishedAt f;
                   category :=
                     or_else (VStr (row_category f)) (VStr (U "General"));
                   priority := if row_isImportant f then High else Medium;
                   targetAudience := student_audience;
                   ann_url :=
                     match row_url f with
                     | [] => baseUrl ++ news_path ++ rowId
                     | url => url
                     end;
                   menuName := VStr (row_category f);
                   isImportant := VBool (row_isImportant f);
                   isUnread := VBool (row_isUnread f);
                   extra := [] |}
       end, S n)
  end.

(** [rows.each]: the announcements pushed, in the order of the rows. *)
Fixpoint read_rows (time : clock) (n : nat) (doc : list (path * node))
  (rows : list (path * node)) : list NLobbyAnnouncement * nat :=
  match rows with
  | [] => ([], n)
  | row :: rest =>
      let '(found, n1) := read_row time n doc row in
      let '(l, n2) := read_rows time n1 doc rest in
      (match found with
       | Some a => a :: l
       | None => l
       end, n2)
  end.

Definition parseAnnouncementsWithCheerio (time : clock) (n : nat)
  (html : jsstring) : list NLobbyAnnouncement * nat :=
  let doc := located_roots 0 (cheerio_load html) in
  let presentationDivs :=
    filter (fun pn => div_with_role "presentation" (snd pn)) doc in
  match presentationDivs with
  | _ :: dataGridContent :: _ =>
      read_rows time n doc
        (find_in doc [dataGridContent] (div_with_role "row"))
  | _ => ([], n)
  end.

(** ** [parseNewsFromHtml] *)

(** Each strategy hands record arrays to [transformNewsToAnnouncements]
    from inside a [try] block: the first array whose transformation does
    not throw is the result of the extraction, and a throw is caught and
    the search goes on.  The strategies are written as the arrays they
    try, in the order of trial. *)
Fixpoint first_transformed (time : clock) (n : nat)
  (candidates : list (list value)) : option (list NLobbyAnnouncement) * nat :=
  match candidates with
  | [] => (None, n)
  | found :: rest =>
      match transformNewsToAnnouncements time n found with
      | (Some l, n') => (Some l, n')
      | (None, n') => first_transformed time n' rest
      end
  end.

(** [foundNews && foundNews.length > 0] *)
Definition found_news (foundNews : list value) : list (list value) :=
  match foundNews with
  | [] => []
  | _ => [foundNews]
  end.

(** The news array of one item of the parsed content: the item is an
    array of at least four elements whose fourth is an object with a
    non-empty array [news] that starts with a record. *)
Definition component_news (item : value) : option (list value) :=
  match item with
  | VArr (_ :: _ :: _ :: componentData :: _) =>
      if truthy_value componentData && typeof_object componentData then
        match get componentData (U "news") with
        | VArr (firstNews :: rest) =>
            if truthy_value firstNews && typeof_object firstNews
               && (truthy_value (get firstNews (U "id"))
                   || truthy_value (get firstNews (U "title"))
                   || truthy_value (get firstNews (U "microCmsId")))
            then Some (firstNews :: rest) else None
        | _ => None
        end
      else None
  | _ => None
  end.

(** The loop over the items, left at the first one that validates. *)
Fixpoint first_component_news (parsedContent : list value)
  : option (list value) :=
  match parsedContent with
  | [] => None
  | item :: rest =>
      match component_news item with
      | Some news => Some news
      | None => first_component_news rest
      end
  end.

(** The arrays one push call tries: that of the prefixed payload or of the
    payload parsed as it is, and then that of the push data itself. *)
Definition push_candidates (pushCall : jsstring) : list (list value) :=
  match push_data pushCall with
  | None => []
  | Some pushData =>
      match payload_string pushData with
      | Some stringData =>
          match match_here prefix_pattern stringData with
          | Some prefixMatch =>
              match JSON_parse (group 2 prefixMatch) with
              | Some (VArr parsedContent) =>
                  match first_component_news parsedContent with
                  | Some news => [news]
                  | None => []
                  end
              | _ => []
              end
          | None =>
              match JSON_parse stringData with
              | Some innerData => found_news (searchForNewsInData innerData)
              | None => []
              end
          end
      | None => []
      end
      ++ found_news (searchForNewsInData (VArr pushData))
  end.

(** The three places of the page data, tried in this order. *)
Definition nextDataMatches (html : jsstring) : list (option rmatch_result) :=
  [search next_data_window [] html;
   search next_data_script [] html;
   search next_data_assign [] html].

Definition next_data_candidates (html : jsstring) : list (list value) :=
  flat_map
    (fun nextDataMatch =>
       match nextDataMatch with
       | None => []
       | Some m =>
           let jsonData := match group 1 m with
                           | [] => m_text m
                           | g => g
                           end in
           match JSON_parse jsonData with
           | Some nextData =>
               if is_nullish nextData then []
               else found_news (searchForNewsInData nextData)
           | None => []
           end
       end)
    (nextDataMatches html).

Definition reactDataPatterns : list regex :=
  [inline_array "news"; inline_array "announcements";
   inline_array "items"; inline_array "data"].

(** A non-empty array among the texts matched, searched for records. *)
Definition array_candidates (text : jsstring) : list (list value) :=
  match text with
  | [] => []
  | _ =>
      match JSON_parse text with
      | Some (VArr (x :: rest)) =>
          found_news (searchForNewsInData (VArr (x :: rest)))
      | _ => []
      end
  end.

Definition react_candidates (html : jsstring) : list (list value) :=
  flat_map
    (fun pattern =>
       flat_map (fun m => array_candidates (group 1 m))
                (match_all pattern html))
    reactDataPatterns.

Definition simplePatterns : list regex :=
  [data_attribute "news"; data_attribute "items"; data_attribute "content";
   script_array].

(** The entities of the quote, the ampersand and the angle brackets,
    replaced in this order. *)
Definition decode_entities (text : jsstring) : jsstring :=
  replace_all (lit "&gt;") (U ">")
    (replace_all (lit "&lt;") (U "<")
       (replace_all (lit "&amp;") (U "&")
          (replace_all (lit "&quot;") [dq] text))).

Definition simple_candidates (html : jsstring) : list (list value) :=
  flat_map
    (fun pattern =>
       flat_map (fun m =>
                   match group 1 m with
                   | [] => []
                   | g => array_candidates (decode_entities g)
                   end)
                (match_all pattern html))
    simplePatterns.

Definition parseNewsFromHtml (time : clock) (html : jsstring)
  : list NLobbyAnnouncement :=
  match first_transformed time 0
          (flat_map push_candidates
                    (map m_text (match_all push_pattern html))) with
  | (Some announcements, _) => announcements
  | (None, n) =>
      match parseAnnouncementsWithCheerio time n html with
      | (a :: cheerioAnnouncements, _) => a :: cheerioAnnouncements
      | ([], n') =>
          match first_transformed time n'
                  (next_data_candidates html ++ react_candidates html
                   ++ simple_candidates html) with
          | (Some announcements, _) => announcements
          | (None, _) => []
          end
      end
  end.

(* ===================================================================== *)
(** * Date ranges and the search for education data *)
(* ===================================================================== *)

(** ** The date methods the range helpers use *)

(** [new Date(d)] for a [Date] object [d] *)
Definition Date_copy (d : JSDate) : JSDate :=
  match d with
  | Some t => TimeClip t
  | None => None
  end.

(** [d.setHours(hour, min, sec, ms)] *)
Definition setHours (d : JSDate) (hour min sec ms : Z) : JSDate :=
  match d with
  | Some t0 =>
      let t := LocalTime t0 in
      TimeClip (UTC (MakeDate (Day t) (MakeTime hour min sec ms)))
  | None => None
  end.

(** [d.getFullYear()] and [d.getMonth()] of a valid date *)
Definition getFullYear (t : Z) : Z := YearFromTime (LocalTime t).
Definition getMonth (t : Z) : Z := MonthFromTime (LocalTime t).

(** [new Date(year, month, date, hours, minutes, seconds, ms)]: the year
    and the month are given by their integer parts, [None] for a NaN or an
    infinity; a year from 0 to 99 stands for 1900 to 1999. *)
Definition Date_of_fields (year month : option Z)
  (date hours minutes seconds ms : Z) : JSDate :=
  match year, month with
  | Some y, Some m =>
      let yr := if (0 <=? y) && (y <=? 99) then 1900 + y else y in
      TimeClip (UTC (MakeDate (MakeDay yr m date)
                              (MakeTime hours minutes seconds ms)))
  | _, _ => None
  end.

(** ** The range helpers of [NLobbyApi] *)

(** [getDefaultDateRange]; [now] is the reading of the clock. *)
Definition getDefaultDateRange (now : Z) : CalendarDateRange :=
  let today := Some now in
  let from := setHours (Date_copy today) 0 0 0 0 in
  let to := Date_copy today in
  let to := setDate to (option_map (fun n => n + 7) (getDate to)) in
  let to := setHours to 23 59 59 999 in
  {| range_from := from; range_to := to |}.

(** [createSingleDayRange]; the error is "Invalid date format provided". *)
Definition createSingleDayRange (date : date_arg)
  : range_error + CalendarDateRange :=
  match to_Date date with
  | None => inl InvalidDateFormat
  | Some t =>
      let targetDate := Some t in
      inr {| range_from := setHours (Date_copy targetDate) 0 0 0 0;
             range_to := setHours (Date_copy targetDate) 23 59 59 999 |}
  end.

(** [createWeekDateRange]: an absent or empty [startDate] stands for the
    clock.  A [Date] object given as [startDate] is itself moved to the
    start of its day and returned as [from]. *)
Definition createWeekDateRange (startDate : option date_arg) (now : Z)
  : CalendarDateRange :=
  let start :=
    match startDate with
    | None | Some (DateString []) => Some now
    | Some (DateString s) => Date_parse s
    | Some (DateObject d) => d
    end in
  let start := setHours start 0 0 0 0 in
  let end_ := Date_copy start in
  let end_ := setDate end_ (option_map (fun n => n + 6) (getDate end_)) in
  let end_ := setHours end_ 23 59 59 999 in
  {| range_from := start; range_to := end_ |}.

(** [createMonthDateRange]: [year || now.getFullYear()] and
    [month !== undefined ? month : now.getMonth()]; the last day of the
    month is day 0 of the month after it. *)
Definition createMonthDateRange (year month : option number) (now : Z)
  : CalendarDateRange :=
  let targetYear :=
    match year with
    | Some y => if truthy y then truncate y else Some (getFullYear now)
    | None => Some (getFullYear now)
    end in
  let '(targetMonth, nextMonth) :=
    match month with
    | Some m => (truncate m, truncate (add m (of_Z 1)))
    | None => (Some (getMonth now), Some (getMonth now + 1))
    end in
  {| range_from := Date_of_fields targetYear targetMonth 1 0 0 0 0;
     range_to := Date_of_fields targetYear nextMonth 0 23 59 59 999 |}.

(** ** [findEducationDataInObject] *)

(** [obj.educationProcessName && obj.termYears &&
    Array.isArray(obj.termYears)] *)
Definition education_shape (obj : value) : bool :=
  truthy_value (get obj (U "educationProcessName"))
  && truthy_value (get obj (U "termYears"))
  && is_array (get obj (U "termYears")).

Fixpoint findEducationDataInObject (obj : value) : option value :=
  if negb (truthy_value obj) || negb (typeof_object obj) then None
  else if education_shape obj then Some obj
  else
    match obj with
    | VObj props =>
        (fix over (l : list (jsstring * value)) : option value :=
           match l with
           | [] => None
           | (_, v) :: rest =>
               match (if truthy_value v && typeof_object v
                      then findEducationDataInObject v else None) with
               | Some found => Some found
               | None => over rest
               end
           end) props
    | VArr items =>
        (fix over (l : list value) : option value :=
           match l with
           | [] => None
           | v :: rest =>
               match (if truthy_value v && typeof_object v
                      then findEducationDataInObject v else None) with
               | Some found => Some found
               | None => over rest
               end
           end) items
    | _ => None
    end.

(** ** The course summaries of the server *)

(** A table of counts as [groupCoursesByGrade] builds it: the own
    properties of the object [groups] in their order, each with its count.
    A count is at most the number of courses, so the additions of 1 are
    exact and it is kept as a natural number. *)
Definition count_table := list (jsstring * nat).

Fixpoint lookup_count (k : jsstring) (groups : count_table) : option nat :=
  match groups with
  | [] => None
  | (k', n) :: rest => if str_eqb k k' then Some n else lookup_count k rest
  end.

(** The order of own properties: array indices in ascending order first,
    then the other keys in creation order. *)
Fixpoint insert_count_index (i : Z) (k : jsstring) (groups : count_table)
  : count_table :=
  match groups with
  | [] => [(k, 1%nat)]
  | (k', n) :: rest =>
      match array_index k' with
      | Some j => if j <? i then (k', n) :: insert_count_index i k rest
                  else (k, 1%nat) :: groups
      | None => (k, 1%nat) :: groups
      end
  end.

Fixpoint increase_count (k : jsstring) (groups : count_table)
  : count_table :=
  match groups with
  | [] => []
  | (k', n) :: rest =>
      if str_eqb k k' then (k', S n) :: rest
      else (k', n) :: increase_count k rest
  end.

(** [groups[key] = (groups[key] || 0) + 1] for a key that [groups] does
    not inherit. *)
Definition count_one (groups : count_table) (key : jsstring) : count_table :=
  match lookup_count key groups with
  | Some _ => increase_count key groups
  | None =>
      match array_index key with
      | Some i => insert_count_index i key groups
      | None => groups ++ [(key, 1%nat)]
      end
  end.

(** The properties an object literal inherits: [groups[name]] reads them
    before any course is counted, so the loop does not count a course
    under such a name (it stores a text there, and nothing at all under
    [__proto__]). *)
Definition inherited_names : list jsstring :=
  [U "constructor"; U "toString"; U "toLocaleString"; U "valueOf";
   U "hasOwnProperty"; U "isPrototypeOf"; U "propertyIsEnumerable";
   U "__proto__"; U "__defineGetter__"; U "__defineSetter__";
   U "__lookupGetter__"; U "__lookupSetter__"].

Inductive grouping_failure :=
| CourseIsNullish      (* TypeError: a course that is null or undefined *)
| KeyHasNoString       (* TypeError: the key has no primitive value *)
| InheritedName.       (* the key is a name that [groups] inherits *)

(** The key of a course: [course[field] || "Unknown"] as a property
    name. *)
Definition group_key (field : jsstring) (course : value)
  : grouping_failure + jsstring :=
  if is_nullish course then inl CourseIsNullish
  else match ToString (or_else (get course field) (VStr (U "Unknown"))) with
       | None => inl KeyHasNoString
       | Some key =>
           if existsb (str_eqb key) inherited_names then inl InheritedName
           else inr key
       end.

Fixpoint group_courses (field : jsstring) (groups : count_table)
  (courses : list value) : grouping_failure + count_table :=
  match courses with
  | [] => inr groups
  | course :: rest =>
      match group_key field course with
      | inl e => inl e
      | inr key => group_courses field (count_one groups key) rest
      end
  end.

Definition groupCoursesByGrade (courses : list value)
  : grouping_failure + count_table :=
  group_courses (U "grade") [] courses.

Definition groupCoursesByCurriculum (courses : list value)
  : grouping_failure + count_table :=
  group_courses (U "curriculumName") [] courses.

(* ===================================================================== *)
(** * Properties of the progress indicators *)
(* ===================================================================== *)


(** ** Progress on integer counters *)

Definition report_of (c a : Z) : CourseReport :=
  {| count := of_Z c; allCount := of_Z a |}.

(** The percentage is a half-integer exactly when [200 c] leaves remainder
    [a] modulo [2 a]. *)
Definition exact_half (c a : Z) : bool := (200 * c) mod (2 * a) =? a.

Definition progress_agrees (c a : Z) : bool :=
  let r := calculateProgressPercentage (report_of c a) in
  let e := round_half_up (100 * c) a in
  same r (of_Z e) || (exact_half c a && same r (of_Z (e - 1))).

Definition progress_row (a : nat) : bool :=
  forallb (fun c => progress_agrees (Z.of_nat c) (Z.of_nat a)) (seq 0 (S a)).


(** ** Theorems on the computed course fields *)

Lemma progress_table_50 : forallb progress_row (seq 1 50) = true.
Proof. vm_compute. reflexivity. Qed.

Lemma progress_agrees_bounded : forall c a,
  0 <= c <= a -> 1 <= a <= 50 -> progress_agrees c a = true.
Proof.
  intros c a Hc Ha.
  assert (Hrow : progress_row (Z.to_nat a) = true).
  { apply (proj1 (forallb_forall _ _) progress_table_50). apply in_seq. lia. }
  unfold progress_row in Hrow. rewrite forallb_forall in Hrow.
  specialize (Hrow (Z.to_nat c)).
  rewrite !Z2Nat.id in Hrow by lia.
  apply Hrow. apply in_seq. lia.
Qed.

(** C7, the claim as stated fails: for 23 completed reports out of 40 the
    exact percentage is 57.5, which rounds to 58, but the double product
    (23 / 40) * 100 is 57.49999999999999 and the code returns 57. *)
Lemma progress_23_of_40_not_rounded_exact :
  calculateProgressPercentage (report_of 23 40) = of_Z 57 /\
  round_half_up (100 * 23) 40 = 58 /\
  Math_round (div (mul (of_Z 100) (of_Z 23)) (of_Z 40)) = of_Z 58 /\
  calculateProgressPercentage (report_of 23 40)
    <> of_Z (round_half_up (100 * 23) 40).
Proof.
  repeat split; try (vm_compute; reflexivity).
  vm_compute. discriminate.
Qed.

(** C7 (amended): the progress percentage is
    [Math.round((count / allCount) * 100)] evaluated in double arithmetic,
    and it is 0 when [allCount] is 0; [{count:3, allCount:4}] yields 75 and
    [{count:0, allCount:0}] yields 0.  For integer counters
    [0 <= count <= allCount <= 50] the result is the half-up rounding of the
    exact percentage, except that where the exact percentage is a
    half-integer the result may be one less. *)
Theorem calculateProgressPercentage_double :
  forall (report : CourseReport) (c a : Z),
    0 <= c <= a -> 1 <= a <= 50 ->
    (strict_eq (allCount report) (of_Z 0) = true ->
       calculateProgressPercentage report = of_Z 0) /\
    (strict_eq (allCount report) (of_Z 0) = false ->
       calculateProgressPercentage report =
       Math_round (mul (div (count report) (allCount report)) (of_Z 100))) /\
    calculateProgressPercentage (report_of 3 4) = of_Z 75 /\
    calculateProgressPercentage (report_of 0 0) = of_Z 0 /\
    (calculateProgressPercentage (report_of c a)
       = of_Z (round_half_up (100 * c) a) \/
     (exact_half c a = true /\
      calculateProgressPercentage (report_of c a)
        = of_Z (round_half_up (100 * c) a - 1))).
Proof.
  intros report c a Hc Ha.
  split; [|split; [|split; [|split]]].
  - intro H. unfold calculateProgressPercentage. rewrite H. reflexivity.
  - intro H. unfold calculateProgressPercentage. rewrite H. reflexivity.
  - vm_compute. reflexivity.
  - vm_compute. reflexivity.
  - pose proof (progress_agrees_bounded c a Hc Ha) as H.
    unfold progress_agrees in H.
    apply orb_true_iff in H. destruct H as [H|H].
    + left. apply same_eq. exact H.
    + right. apply andb_true_iff in H. destruct H as [H1 H2].
      split; [exact H1 | apply same_eq; exact H2].
Qed.

Lemma calculateProgressPercentage_double_witness :
  (0 <= 3 <= 4) /\ (1 <= 4 <= 50) /\
  calculateProgressPercentage (report_of 3 4) = of_Z 75.
Proof.
  split; [lia | split; [lia |]].
  exact (proj1 (proj2 (proj2
    (calculateProgressPercentage_double (report_of 0 0) 3 4
       ltac:(lia) ltac:(lia))))).
Defined.

(** ** Whole numbers in double arithmetic *)






















(** ** The average score *)














(* ===================================================================== *)
(** * Properties of the calendar *)
(* ===================================================================== *)

(** ** Calendar arithmetic *)

Lemma floor_step : forall y c n, 0 < n -> c mod n = 1 ->
  (y + 1 - c) / n = (y - c) / n + (if y mod n =? 0 then 1 else 0).
Proof.
  intros y c n Hn Hc.
  destruct (y mod n =? 0) eqn:E; rewrite ?Z.eqb_eq, ?Z.eqb_neq in E.
  - assert (Hm : (y - c) mod n = n - 1).
    { replace (y - c) with ((n - 1) + (y / n - c / n - 1) * n).
      - rewrite Z.mod_add by lia. apply Z.mod_small. lia.
      - pose proof (Z.div_mod y n ltac:(lia)).
        pose proof (Z.div_mod c n ltac:(lia)). nia. }
    pose proof (Z.div_mod (y - c) n ltac:(lia)) as D.
    replace (y + 1 - c) with (0 + ((y - c) / n + 1) * n) by nia.
    rewrite Z.div_add by lia. rewrite Z.div_0_l by lia. lia.
  - assert (Hm : (y - c) mod n < n - 1).
    { pose proof (Z.mod_pos_bound (y - c) n Hn) as B.
      destruct (Z.eq_dec ((y - c) mod n) (n - 1)) as [Heq|]; [|lia].
      exfalso. apply E.
      pose proof (Z.div_mod (y - c) n ltac:(lia)) as D.
      pose proof (Z.div_mod c n ltac:(lia)) as D2.
      replace y with (0 + ((y - c) / n + c / n + 1) * n) by nia.
      rewrite Z.mod_add by lia. apply Z.mod_0_l. lia. }
    pose proof (Z.div_mod (y - c) n ltac:(lia)) as D.
    pose proof (Z.mod_pos_bound (y - c) n Hn) as B.
    replace (y + 1 - c) with (((y - c) mod n + 1) + (y - c) / n * n) by nia.
    rewrite Z.div_add by lia. rewrite Z.div_small by lia. lia.
Qed.

Lemma mod_divides_trans : forall y a b, 0 < a -> 0 < b ->
  y mod (a * b) = 0 -> y mod a = 0.
Proof.
  intros y a b Ha Hb H.
  apply Z.mod_divide in H; [|nia]. apply Z.mod_divide; [lia|].
  destruct H as [k Hk]. exists (k * b). nia.
Qed.

Lemma DayFromYear_step : forall y,
  DayFromYear (y + 1) = DayFromYear y + DaysInYear y.
Proof.
  intro y. unfold DayFromYear, DaysInYear.
  rewrite (floor_step y 1969 4), (floor_step y 1901 100),
          (floor_step y 1601 400) by (reflexivity || lia).
  pose proof (mod_divides_trans y 4 25 ltac:(lia) ltac:(lia)) as H1.
  pose proof (mod_divides_trans y 100 4 ltac:(lia) ltac:(lia)) as H2.
  change (4 * 25) with 100 in H1. change (100 * 4) with 400 in H2.
  destruct (y mod 4 =? 0) eqn:E4; destruct (y mod 100 =? 0) eqn:E100;
    destruct (y mod 400 =? 0) eqn:E400; cbn [negb];
    rewrite ?Z.eqb_eq, ?Z.eqb_neq in *; try lia;
    try (exfalso; auto; fail).
Qed.

Lemma DaysInYear_cases : forall y, DaysInYear y = 365 \/ DaysInYear y = 366.
Proof.
  intro y. unfold DaysInYear.
  destruct (y mod 4 =? 0); destruct (y mod 100 =? 0);
    destruct (y mod 400 =? 0); simpl; auto.
Qed.

Lemma DayFromYear_mono : forall y1 y2,
  y1 <= y2 -> DayFromYear y1 <= DayFromYear y2.
Proof.
  intros y1 y2 H. unfold DayFromYear.
  assert (H4 : (y1 - 1969) / 4 <= (y2 - 1969) / 4)
    by (apply Z.div_le_mono; lia).
  assert (H400 : (y1 - 1601) / 400 <= (y2 - 1601) / 400)
    by (apply Z.div_le_mono; lia).
  assert (H100 : (y2 - 1901) / 100 <= (y1 - 1901) / 100 + (y2 - y1))
    by (clear - H; Z.to_euclidean_division_equations; lia).
  lia.
Qed.

Lemma YearFromDay_spec : forall d,
  DayFromYear (YearFromDay d) <= d < DayFromYear (YearFromDay d + 1).
Proof.
  intro d. unfold YearFromDay.
  set (e := 1970 + 400 * d / 146097).
  assert (He : DayFromYear (e - 1) <= d < DayFromYear (e + 2)).
  { subst e. unfold DayFromYear. clear.
    Z.to_euclidean_division_equations; lia. }
  destruct (d <? DayFromYear e) eqn:E1.
  - apply Z.ltb_lt in E1. replace (e - 1 + 1) with e by lia. lia.
  - apply Z.ltb_ge in E1.
    destruct (DayFromYear (e + 1) <=? d) eqn:E2.
    + apply Z.leb_le in E2. replace (e + 1 + 1) with (e + 2) by lia. lia.
    + apply Z.leb_gt in E2. lia.
Qed.

Lemma YearFromDay_unique : forall y d,
  DayFromYear y <= d < DayFromYear (y + 1) -> YearFromDay d = y.
Proof.
  intros y d H. pose proof (YearFromDay_spec d) as S.
  destruct (Z.lt_trichotomy (YearFromDay d) y) as [L|[E|G]]; [|exact E|].
  - pose proof (DayFromYear_mono (YearFromDay d + 1) y ltac:(lia)). lia.
  - pose proof (DayFromYear_mono (y + 1) (YearFromDay d) ltac:(lia)). lia.
Qed.

Definition valid_date (y m d : Z) : Prop :=
  1 <= m <= 12 /\ 1 <= d <= DaysInMonth y m.

Ltac month_cases m :=
  let H := fresh "Hcase" in
  assert (H : m = 1 \/ m = 2 \/ m = 3 \/ m = 4 \/ m = 5 \/ m = 6 \/ m = 7
              \/ m = 8 \/ m = 9 \/ m = 10 \/ m = 11 \/ m = 12) by lia;
  repeat (destruct H as [H|H]); subst m.

Ltac leap_cases y :=
  let L := fresh "L" in
  destruct (DaysInYear_cases y) as [L|L]; rewrite L in *.

Ltac eval_months :=
  repeat match goal with
         | |- context [month_start ?a ?b] =>
             let v := eval vm_compute in (month_start a b) in
             change (month_start a b) with v
         | H : context [month_start ?a ?b] |- _ =>
             let v := eval vm_compute in (month_start a b) in
             change (month_start a b) with v in H
         end.

Lemma MakeDay_in_range : forall y m d,
  1 <= m <= 12 ->
  MakeDay y (m - 1) d
  = DayFromYear y + month_start (m - 1) (DaysInYear y - 365) + d - 1.
Proof.
  intros y m d Hm. unfold MakeDay.
  rewrite Z.div_small, Z.mod_small by lia.
  replace (y + 0) with y by lia. reflexivity.
Qed.

Lemma Day_MakeDate : forall D tod,
  0 <= tod < msPerDay ->
  Day (MakeDate D tod) = D /\ TimeWithinDay (MakeDate D tod) = tod.
Proof.
  intros D tod H. unfold Day, TimeWithinDay, MakeDate, msPerDay in *.
  split.
  - rewrite Z.add_comm, Z.div_add by lia. rewrite Z.div_small by lia. lia.
  - rewrite Z.add_comm, Z.mod_add by lia. apply Z.mod_small. lia.
Qed.

(** A day of the calendar is recovered from its day number. *)
Lemma fields_of_MakeDate : forall y m d tod,
  valid_date y m d -> 0 <= tod < msPerDay ->
  let t := MakeDate (MakeDay y (m - 1) d) tod in
  YearFromTime t = y /\ MonthFromTime t = m - 1 /\ DateFromTime t = d
  /\ TimeWithinDay t = tod.
Proof.
  intros y m d tod [Hm Hd] Htod t.
  destruct (Day_MakeDate (MakeDay y (m - 1) d) tod Htod) as [HD HT].
  fold t in HD, HT.
  rewrite MakeDay_in_range in HD by exact Hm.
  assert (HY : YearFromTime t = y).
  { unfold YearFromTime. rewrite HD. apply YearFromDay_unique.
    rewrite DayFromYear_step. unfold DaysInMonth in Hd.
    month_cases m; leap_cases y; eval_months; lia. }
  assert (HW : DayWithinYear t
               = month_start (m - 1) (DaysInYear y - 365) + d - 1).
  { unfold DayWithinYear. rewrite HY, HD. lia. }
  assert (HM : MonthFromTime t = m - 1).
  { unfold MonthFromTime, InLeapYear. rewrite HY, HW.
    unfold DaysInMonth in Hd.
    month_cases m; leap_cases y; eval_months;
      unfold month_of_day;
      repeat match goal with
             | |- context [?a <? ?b] =>
                 destruct (Z.ltb_spec a b); try lia
             end; lia. }
  repeat split; try assumption.
  unfold DateFromTime, InLeapYear. rewrite HM, HY, HW. lia.
Qed.

Lemma MakeDay_day_before : forall y m d,
  valid_date y m d ->
  let '(y', m', d') := day_before (y, m, d) in
  MakeDay y' (m' - 1) d' = MakeDay y (m - 1) d - 1 /\ valid_date y' m' d'.
Proof.
  intros y m d [Hm Hd]. unfold day_before.
  destruct (Z.ltb_spec 1 d) as [H1|H1].
  - split.
    + rewrite !MakeDay_in_range by lia. lia.
    + split; lia.
  - assert (d = 1) by lia. subst d.
    destruct (Z.ltb_spec 1 m) as [H2|H2].
    + split.
      * rewrite !MakeDay_in_range by lia. unfold DaysInMonth.
        replace (m - 1 - 1) with (m - 2) by lia. lia.
      * split; [lia|]. unfold DaysInMonth.
        month_cases m; leap_cases y; eval_months; lia.
    + assert (m = 1) by lia. subst m. split.
      * rewrite !MakeDay_in_range by lia.
        pose proof (DayFromYear_step (y - 1)) as S.
        replace (y - 1 + 1) with y in S by lia.
        leap_cases (y - 1); eval_months; lia.
      * split; [lia|]. unfold DaysInMonth.
        leap_cases (y - 1); eval_months; lia.
Qed.

Lemma numeral_value_4 : forall a b c d,
  forallb is_digit [a; b; c; d] = true ->
  0 <= numeral_value [a; b; c; d] <= 9999.
Proof.
  intros a b c d H. cbn in H.
  repeat match type of H with
         | _ && _ = true => apply andb_true_iff in H; destruct H as [? H]
         end.
  unfold is_digit in *.
  repeat match goal with
         | X : _ && _ = true |- _ =>
             apply andb_true_iff in X; destruct X as [? ?]
         | X : (_ <=? _)%N = true |- _ => apply N.leb_le in X
         end.
  unfold numeral_value, digit_value. cbn [fold_left]. lia.
Qed.

Lemma iso_date_valid : forall s y m d,
  iso_date s = Some (y, m, d) ->
  0 <= y <= 9999 /\ valid_date y m d /\ length s = 10%nat.
Proof.
  intros s y m d H. unfold iso_date in H.
  do 10 (destruct s as [|? s]; [discriminate|]).
  destruct s; [|discriminate].
  destruct (forallb is_digit [n; n0; n1; n2]) eqn:Ed; [|discriminate].
  cbn [andb] in H.
  destruct (N.eqb n3 (ch "-") && N.eqb n6 (ch "-")); [|discriminate].
  destruct (two_digits n4 n5) as [m0|]; [|discriminate].
  destruct (two_digits n7 n8) as [d0|]; [|discriminate].
  destruct ((1 <=? m0) && (m0 <=? 12) && (1 <=? d0)
            && (d0 <=? DaysInMonth (numeral_value [n; n0; n1; n2]) m0))
    eqn:Ev; [|discriminate].
  inversion H; subst; clear H.
  repeat (apply andb_true_iff in Ev; destruct Ev as [Ev ?]).
  rewrite ?Z.leb_le in *.
  split; [apply numeral_value_4; exact Ed|].
  split; [|reflexivity]. unfold valid_date. lia.
Qed.

Lemma iso_local_datetime_app : forall ds ts ymd hms,
  iso_date ds = Some ymd -> iso_time ts = Some hms ->
  iso_local_datetime (ds ++ ch "T" :: ts) = Some (ymd, hms).
Proof.
  intros ds ts [[y m] d] hms Hd Ht.
  destruct (iso_date_valid _ _ _ _ Hd) as [_ [_ Hl]].
  unfold iso_local_datetime.
  rewrite firstn_app, skipn_app, Hl.
  replace (10 - 10)%nat with 0%nat by reflexivity.
  rewrite firstn_all2 by lia. rewrite skipn_all2 by lia.
  cbn [firstn skipn app]. rewrite app_nil_r, Hd, N.eqb_refl, Ht.
  reflexivity.
Qed.

Definition all_day_shape (event : value) (s e : Z * Z * Z) : Prop :=
  truthy_value (get event (U "startDateTime")) = false /\
  truthy_value (get (get event (U "start")) (U "dateTime")) = false /\
  truthy_value (get (get event (U "end")) (U "dateTime")) = false /\
  (exists ds, get (get event (U "start")) (U "date") = VStr ds
              /\ iso_date ds = Some s) /\
  (exists de, get (get event (U "end")) (U "date") = VStr de
              /\ iso_date de = Some e).

(** The example event of the specification. *)
Definition all_day_example : value :=
  VObj [ (U "start", VObj [(U "date", VStr (U "2024-01-15"))]);
         (U "end", VObj [(U "date", VStr (U "2024-01-17"))]) ].

Lemma MakeDay_bounds : forall y m d,
  valid_date y m d ->
  DayFromYear y <= MakeDay y (m - 1) d < DayFromYear (y + 1).
Proof.
  intros y m d [Hm Hd]. rewrite MakeDay_in_range by exact Hm.
  rewrite DayFromYear_step. unfold DaysInMonth in Hd.
  month_cases m; leap_cases y; eval_months; lia.
Qed.

(** ** Local times *)

(** The offsets of the zone stay below a day. *)
Definition zone_in_range : Prop :=
  forall t b, - msPerDay < LocalTZA t b < msPerDay.

(** The reading of the local clock for a date and a time of the day. *)
Definition local_time (y m d hh mm ss : Z) : Z :=
  MakeDate (MakeDay y (m - 1) d) (MakeTime hh mm ss 0).

(** The local clock shows the reading [local] at some instant, and [UTC]
    picks such an instant.  A reading that a clock change skips (the hour
    from 00:00 to 01:00 on a night when daylight saving starts at
    midnight) is shown at no instant. *)
Definition shown (local : Z) : Prop := LocalTime (UTC local) = local.

Lemma civil_time_clip : forall y m d hh mm ss,
  zone_in_range ->
  -1 <= y <= 9999 -> valid_date y m d ->
  0 <= MakeTime hh mm ss 0 < msPerDay ->
  TimeClip (civil_time y m d hh mm ss) = Some (civil_time y m d hh mm ss).
Proof.
  intros y m d hh mm ss Hz Hy Hv Ht.
  pose proof (MakeDay_bounds y m d Hv) as B.
  pose proof (DayFromYear_mono (-1) y ltac:(lia)) as B1.
  pose proof (DayFromYear_mono (y + 1) 10000 ltac:(lia)) as B2.
  change (DayFromYear (-1)) with (-719893) in B1.
  change (DayFromYear 10000) with 2932897 in B2.
  unfold civil_time, UTC.
  pose proof (Hz (MakeDate (MakeDay y (m - 1) d) (MakeTime hh mm ss 0))
                 false) as Hr.
  set (tz := LocalTZA _ false) in *. clearbody tz.
  unfold TimeClip, MakeDate, msPerDay in B, B1, B2, Ht, Hr |- *.
  destruct (Z.leb_spec
              (Z.abs (MakeDay y (m - 1) d * 86400000 + MakeTime hh mm ss 0
                      - tz)) 8640000000000000); [reflexivity|lia].
Qed.

Lemma civil_time_local : forall y m d hh mm ss,
  civil_time y m d hh mm ss = UTC (local_time y m d hh mm ss).
Proof. reflexivity. Qed.

(** Taking the end of a day and stepping the day of the month back by one
    gives the end of the previous calendar day, when the clock shows the
    end of the day. *)
Lemma end_of_previous_day : forall y m d,
  zone_in_range ->
  0 <= y <= 9999 -> valid_date y m d ->
  shown (local_time y m d 23 59 59) ->
  let endTime := TimeClip (civil_time y m d 23 59 59) in
  setDate endTime (option_map (fun n => n - 1) (getDate endTime))
  = let '(y', m', d') := day_before (y, m, d) in
    Some (civil_time y' m' d' 23 59 59).
Proof.
  intros y m d Hz Hy Hv Hshown endTime. subst endTime.
  assert (Ht : 0 <= MakeTime 23 59 59 0 < msPerDay)
    by (vm_compute; split; [discriminate | reflexivity]).
  rewrite civil_time_clip by (lia || assumption).
  unfold getDate, setDate, option_map.
  rewrite civil_time_local. unfold shown in Hshown. rewrite Hshown.
  unfold local_time.
  destruct (fields_of_MakeDate y m d (MakeTime 23 59 59 0) Hv Ht)
    as [HY [HM [HD HT]]].
  rewrite HY, HM, HD, HT.
  pose proof (MakeDay_day_before y m d Hv) as P.
  destruct (day_before (y, m, d)) as [[y' m'] d'] eqn:E.
  destruct P as [P Hv'].
  assert (Hy' : -1 <= y' <= 9999).
  { unfold day_before in E.
    destruct (1 <? d); [inversion E; lia|].
    destruct (1 <? m); inversion E; lia. }
  rewrite <- (civil_time_clip y' m' d' 23 59 59 Hz Hy' Hv' Ht).
  f_equal. unfold civil_time. f_equal. f_equal.
  rewrite P. destruct Hv as [Hm _].
  rewrite !MakeDay_in_range by exact Hm. lia.
Qed.

Lemma start_has_date_truthy : forall start ds,
  get start (U "date") = VStr ds -> truthy_value start = true.
Proof.
  intros start ds H. destruct start; try discriminate H; try reflexivity.
Qed.

(** The instants [event_times] computes for an all-day event. *)
Lemma event_times_all_day : forall now event y m d ye me de,
  zone_in_range ->
  all_day_shape event (y, m, d) (ye, me, de) ->
  shown (local_time ye me de 23 59 59) ->
  event_times now event
  = let '(y2, m2, d2) := day_before (ye, me, de) in
    Some (Some (civil_time y m d 0 0 0),
          Some (civil_time y2 m2 d2 23 59 59)).
Proof.
  intros now event y m d ye me de Hz
         (Hflat & Hsdt & Hedt & (ds & Hds & Is) & (de0 & Hde & Ie)) Hshown.
  destruct (iso_date_valid _ _ _ _ Is) as [Hy [Hv Hl]].
  destruct (iso_date_valid _ _ _ _ Ie) as [Hye [Hve Hle]].
  unfold event_times. rewrite Hflat.
  rewrite (start_has_date_truthy _ _ Hds). rewrite Hsdt, Hds.
  assert (Hnz : forall s, length s = 10%nat -> truthy_value (VStr s) = true).
  { intros s Hs. destruct s; [discriminate|reflexivity]. }
  rewrite (Hnz ds Hl).
  rewrite (start_has_date_truthy _ _ Hde). rewrite Hedt, Hde.
  rewrite (Hnz de0 Hle). cbn [andb concat_string ToString].
  change (U "T00:00:00") with (ch "T" :: U "00:00:00").
  change (U "T23:59:59") with (ch "T" :: U "23:59:59").
  unfold Date_parse.
  rewrite (iso_local_datetime_app ds (U "00:00:00") (y, m, d) (0, 0, 0) Is)
    by reflexivity.
  rewrite (iso_local_datetime_app de0 (U "23:59:59") (ye, me, de)
             (23, 59, 59) Ie) by reflexivity.
  rewrite (civil_time_clip y m d 0 0 0) by
    (lia || assumption || (vm_compute; split; [discriminate|reflexivity])).
  rewrite (end_of_previous_day ye me de Hz Hye Hve Hshown).
  destruct (day_before (ye, me, de)) as [[y2 m2] d2]. reflexivity.
Qed.

(** C4 (amended): an event in the nested all-day shape, with [start.date]
    and [end.date] naming calendar days and no [dateTime] fields, is
    normalised to a start at which the local clock shows 00:00:00 of the
    start date and an end at which it shows 23:59:59 of the day before the
    given end date, provided the host's clock shows these two readings and
    23:59:59 of the end date (no clock change skips them); the zone may
    otherwise change its offset.  Under the same condition the example
    event of the specification starts at 2024-01-15T00:00:00 and ends at
    2024-01-16T23:59:59.  The item is produced whenever the summary is a
    string or absent and no attendee is null. *)
Theorem all_day_event_normalized :
  forall (now : Z) (draws : nat) (event : value)
         (y m d ye me de y2 m2 d2 : Z),
    zone_in_range ->
    all_day_shape event (y, m, d) (ye, me, de) ->
    day_before (ye, me, de) = (y2, m2, d2) ->
    shown (local_time y m d 0 0 0) ->
    shown (local_time ye me de 23 59 59) ->
    shown (local_time y2 m2 d2 23 59 59) ->
    (forall item draws',
        convert_event now draws event = Some (item, draws') ->
        exists ts te,
          startTime item = Some ts /\ endTime item = Some te
          /\ LocalTime ts = local_time y m d 0 0 0
          /\ LocalTime te = local_time y2 m2 d2 23 59 59) /\
    (summary_lower event <> None -> event_participants event <> None ->
     exists item draws', convert_event now draws event = Some (item, draws'))
    /\
    (shown (local_time 2024 1 15 0 0 0) ->
     shown (local_time 2024 1 17 23 59 59) ->
     shown (local_time 2024 1 16 23 59 59) ->
     exists item ts te,
        convertGoogleCalendarEventsToScheduleItems now [all_day_example]
        = Some [item] /\
        startTime item = Some ts /\ endTime item = Some te /\
        LocalTime ts = local_time 2024 1 15 0 0 0 /\
        LocalTime te = local_time 2024 1 16 23 59 59).
Proof.
  intros now draws event y m d ye me de y2 m2 d2 Hz Hshape Eb Hs He Hp.
  pose proof (event_times_all_day now event y m d ye me de Hz Hshape He)
    as Ht.
  rewrite Eb in Ht.
  assert (Hnn : is_nullish event = false).
  { destruct Hshape as (_ & _ & _ & (ds & Hds & _) & _).
    destruct event; try reflexivity; discriminate Hds. }
  split; [|split].
  - intros item draws' H. unfold convert_event in H.
    rewrite Hnn, Ht in H.
    destruct (summary_lower event); [|discriminate].
    destruct (event_participants event); [|discriminate].
    exists (civil_time y m d 0 0 0), (civil_time y2 m2 d2 23 59 59).
    rewrite !civil_time_local.
    destruct (truthy_value _) in H; inversion H; subst;
      (split; [reflexivity|]); (split; [reflexivity|]);
      split; assumption.
  - intros Hsum Hpar. unfold convert_event. rewrite Hnn, Ht.
    destruct (summary_lower event); [|congruence].
    destruct (event_participants event); [|congruence].
    destruct (truthy_value _); eexists; eexists; reflexivity.
  - intros Xs Xe Xp.
    assert (Hex : all_day_shape all_day_example (2024, 1, 15) (2024, 1, 17)).
    { unfold all_day_shape. repeat split; try reflexivity.
      - exists (U "2024-01-15"). split; reflexivity.
      - exists (U "2024-01-17"). split; reflexivity. }
    pose proof (event_times_all_day now all_day_example _ _ _ _ _ _
                  Hz Hex Xe) as Hev.
    change (day_before (2024, 1, 17)) with (2024, 1, 16) in Hev.
    cbv beta iota in Hev.
    unfold convertGoogleCalendarEventsToScheduleItems, convert_events,
           convert_event.
    change (is_nullish all_day_example) with false. cbv iota.
    rewrite Hev.
    change (summary_lower all_day_example) with (Some (@nil N)).
    change (event_participants all_day_example) with (Some (@nil value)).
    cbv beta iota.
    destruct (truthy_value _); eexists;
      exists (civil_time 2024 1 15 0 0 0), (civil_time 2024 1 16 23 59 59);
      rewrite !civil_time_local;
      (split; [reflexivity|]); (split; [reflexivity|]);
      (split; [reflexivity|]); split; assumption.
Qed.

Lemma one_day_quotient : forall diffTime : Z,
  negb (Qle_bool (inject_Z 1)
          (Qdiv (inject_Z diffTime) (inject_Z (1000 * 60 * 60 * 24))))
  = (diffTime <? msPerDay).
Proof.
  intro z. change (1000 * 60 * 60 * 24) with msPerDay.
  unfold Qle_bool, Qdiv, Qmult, Qinv, inject_Z, msPerDay. cbn [Qnum Qden].
  change (Z.pos (1 * 86400000)) with 86400000.
  rewrite Z.ltb_antisym. f_equal. f_equal; lia.
Qed.

(** C8: [createDateRange] throws exactly when a date is unparsable or the
    end is less than one day (24 hours) after the start; for parsable dates
    at least one day apart it returns the two dates unchanged. *)
Theorem createDateRange_validation :
  forall fromDate toDate : date_arg,
    ((exists err, createDateRange fromDate toDate = inl err) <->
     (to_Date fromDate = None \/ to_Date toDate = None \/
      exists t1 t2, to_Date fromDate = Some t1 /\ to_Date toDate = Some t2
                    /\ t2 - t1 < msPerDay)) /\
    (createDateRange fromDate toDate = inl InvalidDateFormat <->
     (to_Date fromDate = None \/ to_Date toDate = None)) /\
    (forall t1 t2,
        to_Date fromDate = Some t1 -> to_Date toDate = Some t2 ->
        msPerDay <= t2 - t1 ->
        createDateRange fromDate toDate
        = inr {| range_from := to_Date fromDate;
                 range_to := to_Date toDate |}).
Proof.
  intros fromDate toDate. unfold createDateRange.
  destruct (to_Date fromDate) as [t1|]; destruct (to_Date toDate) as [t2|].
  - rewrite (one_day_quotient (t2 - t1)).
    destruct (Z.ltb_spec (t2 - t1) msPerDay) as [L|G].
    + split; [|split].
      * split; [intros _|intros _; eexists; reflexivity].
        right. right. exists t1, t2. auto.
      * split; [discriminate|intros [H|H]; discriminate].
      * intros a b Ha Hb Hab. inversion Ha; inversion Hb; subst. lia.
    + split; [|split].
      * split; [intros [err H]; discriminate|].
        intros [H|[H|(a & b & Ha & Hb & Hab)]]; try discriminate.
        inversion Ha; inversion Hb; subst. lia.
      * split; [discriminate|intros [H|H]; discriminate].
      * intros; reflexivity.
  - split; [|split].
    + split; [auto|intros _; eexists; reflexivity].
    + split; auto.
    + intros a b _ H; discriminate.
  - split; [|split].
    + split; [auto|intros _; eexists; reflexivity].
    + split; auto.
    + intros a b H; discriminate.
  - split; [|split].
    + split; [auto|intros _; eexists; reflexivity].
    + split; auto.
    + intros a b H; discriminate.
Qed.


(* ===================================================================== *)
(** * Properties of the session store *)
(* ===================================================================== *)

(** C5: an empty or whitespace-only cookie blob leaves the session state as
    it was: the HTTP client's cookie header, the derived NextAuth tokens and
    the tRPC client's stored blob are unchanged (and nothing is thrown). *)
Theorem setCookies_blank_noop :
  forall (blob : jsstring) (st : ApiState),
    blob = [] \/ trim blob = [] ->
    setCookies blob st = (st, false) /\
    http_cookie (fst (setCookies blob st)) = http_cookie st /\
    nextAuth (fst (setCookies blob st)) = nextAuth st /\
    trpc_allCookies (fst (setCookies blob st)) = trpc_allCookies st.
Proof.
  intros blob st H.
  assert (E : setCookies blob st = (st, false)).
  { unfold setCookies, blank.
    destruct H as [H|H]; rewrite H; [reflexivity|].
    rewrite orb_true_r. reflexivity. }
  rewrite E. repeat split; reflexivity.
Qed.

Local Open Scope N_scope.

Lemma hex_roundtrip : forall d, d < 16 -> hex_value (hex_digit d) = Some d.
Proof.
  intros d H.
  assert (C : d = 0 \/ d = 1 \/ d = 2 \/ d = 3 \/ d = 4 \/ d = 5 \/ d = 6
              \/ d = 7 \/ d = 8 \/ d = 9 \/ d = 10 \/ d = 11 \/ d = 12
              \/ d = 13 \/ d = 14 \/ d = 15) by lia.
  repeat (destruct C as [C|C]); subst d; reflexivity.
Qed.

Lemma hex_digit_unreserved : forall d, d < 16 ->
  uri_unreserved (hex_digit d) = true.
Proof.
  intros d H.
  assert (C : d = 0 \/ d = 1 \/ d = 2 \/ d = 3 \/ d = 4 \/ d = 5 \/ d = 6
              \/ d = 7 \/ d = 8 \/ d = 9 \/ d = 10 \/ d = 11 \/ d = 12
              \/ d = 13 \/ d = 14 \/ d = 15) by lia.
  repeat (destruct C as [C|C]); subst d; reflexivity.
Qed.

Lemma octet_parts : forall b, b < 256 ->
  b / 16 < 16 /\ b mod 16 < 16 /\ 16 * (b / 16) + b mod 16 = b.
Proof.
  intros b H. pose proof (N.div_mod b 16 ltac:(lia)).
  pose proof (N.mod_upper_bound b 16 ltac:(lia)).
  assert (b / 16 < 16) by (apply N.Div0.div_lt_upper_bound; lia).
  lia.
Qed.

Lemma decode_octet_first : forall b rest, b < 256 ->
  decode_from [] 0 (percent_octet b ++ rest)
  = if b <? 128 then option_map (cons b) (decode_from [] 0 rest)
    else match leading_ones b with
         | 2%nat => decode_from [b] 1 rest
         | 3%nat => decode_from [b] 2 rest
         | 4%nat => decode_from [b] 3 rest
         | _ => None
         end.
Proof.
  intros b rest H. destruct (octet_parts b H) as [H1 [H2 H3]].
  unfold percent_octet. cbn [app decode_from].
  change (N.eqb (ch "%") (ch "%")) with true. cbn [negb].
  rewrite (hex_roundtrip _ H1), (hex_roundtrip _ H2), H3. reflexivity.
Qed.

Lemma decode_octet_next : forall pending k b rest, b < 256 ->
  decode_from pending (S k) (percent_octet b ++ rest)
  = if N.eqb (b / 64) 2 then
      match k with
      | O => match utf8_decode (pending ++ [b]) with
             | Some cp => option_map (app (utf16_encode cp))
                                     (decode_from [] 0 rest)
             | None => None
             end
      | S _ => decode_from (pending ++ [b]) k rest
      end
    else None.
Proof.
  intros pending k b rest H. destruct (octet_parts b H) as [H1 [H2 H3]].
  unfold percent_octet. cbn [app decode_from].
  change (N.eqb (ch "%") (ch "%")) with true. cbv iota.
  rewrite (hex_roundtrip _ H1), (hex_roundtrip _ H2), H3. reflexivity.
Qed.

Lemma add_sub_l : forall a b : N, a + b - a = b.
Proof. intros a b. rewrite N.add_comm. apply N.add_sub. Qed.

Definition scalar (cp : N) : Prop :=
  cp < 1114112 /\ ~ (55296 <= cp <= 57343).

Ltac decide_tests :=
  repeat match goal with
         | |- context [?a <? ?b] => destruct (N.ltb_spec a b); try lia
         | |- context [?a <=? ?b] => destruct (N.leb_spec a b); try lia
         | |- context [N.eqb ?a ?b] => destruct (N.eqb_spec a b); try lia
         end.

(** Decoding the percent-encoding of a code point gives back its UTF-16
    form. *)
Lemma decode_percent_encode : forall cp rest, scalar cp ->
  decode_from [] 0 (percent_encode cp ++ rest)
  = option_map (app (utf16_encode cp)) (decode_from [] 0 rest).
Proof.
  intros cp rest [Hlt Hns]. unfold percent_encode, utf8_encode.
  destruct (N.ltb_spec cp 128) as [C1|C1];
    [|destruct (N.ltb_spec cp 2048) as [C2|C2];
      [|destruct (N.ltb_spec cp 65536) as [C3|C3]]];
    cbn [map concat]; rewrite ?app_nil_r, <- ?app_assoc.
  - rewrite decode_octet_first by lia.
    unfold utf16_encode. decide_tests. reflexivity.
  - assert (cp / 64 < 32) by (apply N.Div0.div_lt_upper_bound; lia).
    pose proof (N.mod_upper_bound cp 64 ltac:(lia)).
    pose proof (N.div_mod cp 64 ltac:(lia)).
    rewrite decode_octet_first by lia.
    unfold leading_ones. decide_tests.
    rewrite decode_octet_next by lia.
    assert (E : (128 + cp mod 64) / 64 = 2).
    { symmetry. apply (N.div_unique _ 64 2 (cp mod 64)); lia. }
    rewrite E. change (N.eqb 2 2) with true. cbv iota.
    cbn [app utf8_decode].
    rewrite !add_sub_l.
    replace (cp / 64 * 64 + cp mod 64) with cp by lia.
    decide_tests. reflexivity.
  - assert (cp / 4096 < 16) by (apply N.Div0.div_lt_upper_bound; lia).
    pose proof (N.mod_upper_bound cp 64 ltac:(lia)).
    pose proof (N.mod_upper_bound (cp / 64) 64 ltac:(lia)).
    pose proof (N.div_mod cp 64 ltac:(lia)).
    pose proof (N.div_mod (cp / 64) 64 ltac:(lia)).
    assert (D : cp / 64 / 64 = cp / 4096)
      by (rewrite N.Div0.div_div; reflexivity).
    rewrite decode_octet_first by lia.
    unfold leading_ones. decide_tests.
    rewrite decode_octet_next by lia.
    assert (E1 : (128 + (cp / 64) mod 64) / 64 = 2).
    { symmetry. apply (N.div_unique _ 64 2 ((cp / 64) mod 64)); lia. }
    rewrite E1. change (N.eqb 2 2) with true. cbv iota. cbn [app].
    rewrite decode_octet_next by lia.
    assert (E2 : (128 + cp mod 64) / 64 = 2).
    { symmetry. apply (N.div_unique _ 64 2 (cp mod 64)); lia. }
    rewrite E2. change (N.eqb 2 2) with true. cbv iota.
    cbn [app utf8_decode].
    rewrite !add_sub_l.
    replace (cp / 4096 * 4096 + (cp / 64) mod 64 * 64 + cp mod 64) with cp
      by lia.
    destruct (N.leb_spec 2048 cp); [|lia].
    destruct (N.leb_spec 55296 cp); destruct (N.leb_spec cp 57343);
      cbn [andb negb]; try lia; reflexivity.
  - assert (cp / 262144 < 5) by (apply N.Div0.div_lt_upper_bound; lia).
    pose proof (N.mod_upper_bound cp 64 ltac:(lia)).
    pose proof (N.mod_upper_bound (cp / 64) 64 ltac:(lia)).
    pose proof (N.mod_upper_bound (cp / 4096) 64 ltac:(lia)).
    pose proof (N.div_mod cp 64 ltac:(lia)).
    pose proof (N.div_mod (cp / 64) 64 ltac:(lia)).
    pose proof (N.div_mod (cp / 4096) 64 ltac:(lia)).
    assert (D1 : cp / 64 / 64 = cp / 4096)
      by (rewrite N.Div0.div_div; reflexivity).
    assert (D2 : cp / 4096 / 64 = cp / 262144)
      by (rewrite N.Div0.div_div; reflexivity).
    rewrite decode_octet_first by lia.
    unfold leading_ones. decide_tests.
    rewrite decode_octet_next by lia.
    assert (E0 : (128 + (cp / 4096) mod 64) / 64 = 2).
    { symmetry. apply (N.div_unique _ 64 2 ((cp / 4096) mod 64)); lia. }
    rewrite E0. change (N.eqb 2 2) with true. cbv iota. cbn [app].
    rewrite decode_octet_next by lia.
    assert (E1 : (128 + (cp / 64) mod 64) / 64 = 2).
    { symmetry. apply (N.div_unique _ 64 2 ((cp / 64) mod 64)); lia. }
    rewrite E1. change (N.eqb 2 2) with true. cbv iota. cbn [app].
    rewrite decode_octet_next by lia.
    assert (E2 : (128 + cp mod 64) / 64 = 2).
    { symmetry. apply (N.div_unique _ 64 2 (cp mod 64)); lia. }
    rewrite E2. change (N.eqb 2 2) with true. cbv iota.
    cbn [app utf8_decode].
    rewrite !add_sub_l.
    replace (cp / 262144 * 262144 + (cp / 4096) mod 64 * 4096
             + (cp / 64) mod 64 * 64 + cp mod 64) with cp by lia.
    destruct (N.leb_spec 65536 cp); [|lia].
    destruct (N.leb_spec cp 1114111); [|lia]. reflexivity.
Qed.

(** The characters of a percent-encoding. *)
Definition clean (c : N) : bool := uri_unreserved c || N.eqb c (ch "%").

Lemma utf8_octets_bounded : forall cp, scalar cp ->
  Forall (fun b => b < 256) (utf8_encode cp).
Proof.
  intros cp [Hlt _]. unfold utf8_encode.
  pose proof (N.mod_upper_bound cp 64 ltac:(lia)).
  pose proof (N.mod_upper_bound (cp / 64) 64 ltac:(lia)).
  pose proof (N.mod_upper_bound (cp / 4096) 64 ltac:(lia)).
  destruct (N.ltb_spec cp 128); [|destruct (N.ltb_spec cp 2048);
    [|destruct (N.ltb_spec cp 65536)]]; repeat constructor; try lia.
  - assert (cp / 64 < 32) by (apply N.Div0.div_lt_upper_bound; lia). lia.
  - assert (cp / 4096 < 16) by (apply N.Div0.div_lt_upper_bound; lia). lia.
  - assert (cp / 262144 < 5) by (apply N.Div0.div_lt_upper_bound; lia). lia.
Qed.

Lemma percent_octet_clean : forall b, b < 256 ->
  forallb clean (percent_octet b) = true.
Proof.
  intros b H. destruct (octet_parts b H) as [H1 [H2 _]].
  unfold percent_octet. cbn [forallb]. unfold clean at 2 3.
  rewrite (hex_digit_unreserved _ H1), (hex_digit_unreserved _ H2).
  reflexivity.
Qed.

Lemma percent_encode_clean : forall cp, scalar cp ->
  forallb clean (percent_encode cp) = true /\ percent_encode cp <> [].
Proof.
  intros cp H. pose proof (utf8_octets_bounded cp H) as B.
  unfold percent_encode. split.
  - induction B as [|b l Hb _ IH]; [reflexivity|].
    cbn [map concat]. rewrite forallb_app, IH, (percent_octet_clean b Hb).
    reflexivity.
  - unfold utf8_encode.
    destruct (cp <? 128); [|destruct (cp <? 2048); [|destruct (cp <? 65536)]];
      discriminate.
Qed.

Lemma unreserved_range : forall c, uri_unreserved c = true -> 33 <= c <= 126.
Proof.
  intros c H. unfold uri_unreserved, is_alpha, is_digit in H.
  cbn [existsb] in H.
  repeat match type of H with
         | _ || _ = true => apply orb_true_iff in H; destruct H as [H|H]
         end;
  repeat match goal with
         | X : _ && _ = true |- _ =>
             apply andb_true_iff in X; destruct X as [? ?]
         | X : (_ <=? _) = true |- _ => apply N.leb_le in X
         | X : N.eqb _ _ = true |- _ => apply N.eqb_eq in X
         end; try lia; try discriminate.
Qed.

Lemma clean_range : forall c, clean c = true -> 33 <= c <= 126.
Proof.
  intros c H. unfold clean in H. apply orb_true_iff in H.
  destruct H as [H|H]; [apply unreserved_range; exact H|].
  apply N.eqb_eq in H. subst c. vm_compute. split; discriminate.
Qed.

Lemma clean_not : forall c x, clean x = false -> clean c = true -> c <> x.
Proof. intros c x Hx Hc E. subst. congruence. Qed.

Lemma utf16_pair : forall c c2,
  is_high_surrogate c = true -> is_low_surrogate c2 = true ->
  let cp := (c - 55296) * 1024 + (c2 - 56320) + 65536 in
  scalar cp /\ utf16_encode cp = [c; c2].
Proof.
  intros c c2 Hh Hl cp. unfold is_high_surrogate, is_low_surrogate in *.
  apply andb_true_iff in Hh. destruct Hh as [Hh1 Hh2].
  apply andb_true_iff in Hl. destruct Hl as [Hl1 Hl2].
  apply N.leb_le in Hh1, Hh2, Hl1, Hl2.
  assert (Ecp : cp - 65536 = (c - 55296) * 1024 + (c2 - 56320))
    by (subst cp; lia).
  split.
  - split; subst cp; lia.
  - unfold utf16_encode. destruct (N.ltb_spec cp 65536); [subst cp; lia|].
    rewrite Ecp.
    rewrite <- (N.div_unique ((c - 55296) * 1024 + (c2 - 56320)) 1024
                  (c - 55296) (c2 - 56320)) by lia.
    rewrite <- (N.mod_unique ((c - 55296) * 1024 + (c2 - 56320)) 1024
                  (c - 55296) (c2 - 56320)) by lia.
    f_equal; [lia|f_equal; lia].
Qed.

(** [decodeURIComponent] inverts [encodeURIComponent] on every string
    without unpaired surrogates. *)
Lemma encode_decode_bounded : forall n s,
  (length s <= n)%nat -> well_formed s = true ->
  exists e, encodeURIComponent s = Some e /\
            decodeURIComponent e = Some s /\
            forallb clean e = true /\ (s <> [] -> e <> []).
Proof.
  unfold decodeURIComponent.
  induction n as [|n IH]; intros s Hlen Hwf.
  - destruct s; [|cbn in Hlen; lia].
    exists []. repeat split; try reflexivity. congruence.
  - destruct s as [|c rest].
    { exists []. repeat split; try reflexivity. congruence. }
    cbn [length] in Hlen. cbn [well_formed] in Hwf.
    cbn [encodeURIComponent].
    destruct (uri_unreserved c) eqn:Eu.
    + pose proof (unreserved_range c Eu) as R.
      assert (Hh : is_high_surrogate c = false).
      { unfold is_high_surrogate. destruct (N.leb_spec 55296 c); [lia|].
        reflexivity. }
      rewrite Hh in Hwf.
      apply andb_true_iff in Hwf. destruct Hwf as [_ Hwf].
      destruct (IH rest ltac:(lia) Hwf) as (e & He & Hd & Hc & _).
      exists (c :: e). rewrite He. repeat split.
      * cbn [decode_from]. destruct (N.eqb_spec c (ch "%")) as [E|_].
        { subst c. discriminate Eu. }
        cbn [negb]. rewrite Hd. reflexivity.
      * cbn [forallb]. unfold clean at 1. rewrite Eu, Hc. reflexivity.
      * discriminate.
    + destruct (is_high_surrogate c) eqn:Eh.
      * assert (El : is_low_surrogate c = false).
        { unfold is_high_surrogate, is_low_surrogate in *.
          apply andb_true_iff in Eh. destruct Eh as [_ Eh].
          apply N.leb_le in Eh.
          destruct (N.leb_spec 56320 c); [lia|reflexivity]. }
        rewrite El.
        destruct rest as [|c2 rest']; [discriminate|].
        apply andb_true_iff in Hwf. destruct Hwf as [El2 Hwf].
        rewrite El2. cbn [length] in Hlen.
        destruct (IH rest' ltac:(lia) Hwf) as (e & He & Hd & Hc & _).
        destruct (utf16_pair c c2 Eh El2) as [Hs H16].
        destruct (percent_encode_clean _ Hs) as [Pc Pn].
        exists (percent_encode
                  ((c - 55296) * 1024 + (c2 - 56320) + 65536) ++ e).
        rewrite He. repeat split.
        -- rewrite decode_percent_encode by exact Hs.
           rewrite Hd, H16. reflexivity.
        -- rewrite forallb_app, Pc, Hc. reflexivity.
        -- intros _ E. apply app_eq_nil in E. destruct E as [E _].
           exact (Pn E).
      * apply andb_true_iff in Hwf. destruct Hwf as [Hwf1 Hwf].
        apply andb_true_iff in Hwf1. destruct Hwf1 as [El Hlt].
        apply negb_true_iff in El. apply N.ltb_lt in Hlt. rewrite El.
        destruct (IH rest ltac:(lia) Hwf) as (e & He & Hd & Hc & _).
        assert (Hs : scalar c).
        { split; [lia|]. intros [A B].
          unfold is_high_surrogate, is_low_surrogate in *.
          destruct (N.leb_spec 55296 c); [|lia].
          destruct (N.leb_spec c 56319); [discriminate Eh|].
          destruct (N.leb_spec 56320 c); [|lia].
          destruct (N.leb_spec c 57343); [discriminate El|lia]. }
        destruct (percent_encode_clean _ Hs) as [Pc Pn].
        exists (percent_encode c ++ e). rewrite He. repeat split.
        -- rewrite decode_percent_encode by exact Hs. rewrite Hd.
           unfold utf16_encode. destruct (N.ltb_spec c 65536); [|lia].
           reflexivity.
        -- rewrite forallb_app, Pc, Hc. reflexivity.
        -- intros _ E. apply app_eq_nil in E. destruct E as [E _].
           exact (Pn E).
Qed.

Lemma encode_decode : forall s, well_formed s = true ->
  exists e, encodeURIComponent s = Some e /\
            decodeURIComponent e = Some s /\
            forallb clean e = true /\ (s <> [] -> e <> []).
Proof. intros s. apply (encode_decode_bounded (length s)). lia. Qed.
Local Close Scope N_scope.

Definition no_char (sep : N) (s : jsstring) : bool :=
  forallb (fun c => negb (N.eqb c sep)) s.

Definition no_space (s : jsstring) : bool :=
  forallb (fun c => negb (is_space c)) s.

Lemma split_on_no_char : forall sep a,
  no_char sep a = true -> split_on sep a = [a].
Proof.
  intros sep a. induction a as [|c a IH]; intro H; [reflexivity|].
  cbn [no_char forallb] in H. apply andb_true_iff in H. destruct H as [Hc Ha].
  apply negb_true_iff in Hc. cbn [split_on]. rewrite Hc.
  fold (no_char sep a) in Ha. rewrite (IH Ha). reflexivity.
Qed.

Lemma split_on_app : forall sep a b,
  no_char sep a = true ->
  split_on sep (a ++ sep :: b) = a :: split_on sep b.
Proof.
  intros sep a b. induction a as [|c a IH]; intro H.
  - cbn [app split_on]. rewrite N.eqb_refl. reflexivity.
  - cbn [no_char forallb] in H. apply andb_true_iff in H.
    destruct H as [Hc Ha]. apply negb_true_iff in Hc.
    cbn [app split_on]. rewrite Hc.
    fold (no_char sep a) in Ha. rewrite (IH Ha). reflexivity.
Qed.

Lemma trim_start_no_space : forall s, no_space s = true -> trim_start s = s.
Proof.
  intros [|c s] H; [reflexivity|].
  cbn [no_space forallb] in H. apply andb_true_iff in H. destruct H as [Hc _].
  apply negb_true_iff in Hc. cbn [trim_start]. rewrite Hc. reflexivity.
Qed.

Lemma trim_no_space : forall s, no_space s = true -> trim s = s.
Proof.
  intros s H. unfold trim. rewrite (trim_start_no_space s H).
  rewrite trim_start_no_space.
  - apply rev_involutive.
  - unfold no_space in *. rewrite forallb_forall in *.
    intros x Hx. apply H. apply in_rev. exact Hx.
Qed.

Lemma clean_not_space : forall c, clean c = true -> is_space c = false.
Proof.
  intros c H. apply clean_range in H. unfold is_space.
  repeat match goal with
         | |- context [(?a <=? ?b)%Z] => destruct (Z.leb_spec a b); try lia
         | |- context [(?a =? ?b)%Z] => destruct (Z.eqb_spec a b); try lia
         end; reflexivity.
Qed.

Lemma clean_all_props : forall e, forallb clean e = true ->
  no_char (ch ";") e = true /\ no_char (ch "=") e = true
  /\ no_space e = true.
Proof.
  intros e H. unfold no_char, no_space. rewrite !forallb_forall in *.
  repeat split; intros x Hx; specialize (H x Hx); apply negb_true_iff.
  - apply N.eqb_neq. apply (clean_not x (ch ";")); [reflexivity|exact H].
  - apply N.eqb_neq. apply (clean_not x (ch "=")); [reflexivity|exact H].
  - apply clean_not_space. exact H.
Qed.

(** A cookie name of the handler: no separator, no blank, not empty. *)
Definition cookie_name (name : jsstring) : bool :=
  no_char (ch ";") name && no_char (ch "=") name && no_space name
  && negb (str_eqb name []).

Lemma trim_entry : forall lead name e,
  lead = [] \/ lead = [ch " "] ->
  cookie_name name = true -> forallb clean e = true ->
  trim (lead ++ name ++ ch "=" :: e) = name ++ ch "=" :: e.
Proof.
  intros lead name e Hl Hn He.
  unfold cookie_name in Hn.
  repeat (apply andb_true_iff in Hn; destruct Hn as [Hn ?]).
  destruct (clean_all_props e He) as [_ [_ Hs]].
  assert (N : no_space (name ++ ch "=" :: e) = true).
  { unfold no_space in *. rewrite forallb_app. cbn [forallb].
    rewrite H0, Hs. reflexivity. }
  destruct Hl; subst lead.
  - apply trim_no_space. exact N.
  - cbn [app]. unfold trim. cbn [trim_start].
    change (is_space (ch " ")) with true. cbv iota.
    fold (trim (name ++ ch "=" :: e)). apply trim_no_space. exact N.
Qed.

Lemma split_entry : forall name e,
  cookie_name name = true -> forallb clean e = true ->
  split_on (ch "=") (name ++ ch "=" :: e) = [name; e].
Proof.
  intros name e Hn He. unfold cookie_name in Hn.
  repeat (apply andb_true_iff in Hn; destruct Hn as [Hn ?]).
  destruct (clean_all_props e He) as [_ [Hq _]].
  rewrite split_on_app by assumption.
  rewrite split_on_no_char by assumption. reflexivity.
Qed.

Lemma entry_no_semicolon : forall name e,
  cookie_name name = true -> forallb clean e = true ->
  no_char (ch ";") (name ++ ch "=" :: e) = true.
Proof.
  intros name e Hn He. unfold cookie_name in Hn.
  repeat (apply andb_true_iff in Hn; destruct Hn as [Hn ?]).
  destruct (clean_all_props e He) as [Hs _].
  unfold no_char in *. rewrite forallb_app. cbn [forallb].
  rewrite Hn, Hs. reflexivity.
Qed.

Lemma nonempty_not_nil : forall e : jsstring, e <> [] -> str_eqb e [] = false.
Proof. intros [|c e] H; [congruence|reflexivity]. Qed.

Lemma parse_pair_session : forall cookies lead e v,
  lead = [] \/ lead = [ch " "] ->
  forallb clean e = true -> e <> [] -> decodeURIComponent e = Some v ->
  parse_pair cookies (lead ++ session_cookie_name ++ ch "=" :: e)
  = Some {| sessionToken := Some v; csrfToken := csrfToken cookies;
            callbackUrl := callbackUrl cookies |}.
Proof.
  intros cookies lead e v Hl He Hne Hd. unfold parse_pair.
  rewrite trim_entry by (assumption || reflexivity).
  rewrite split_entry by (assumption || reflexivity).
  rewrite (nonempty_not_nil e Hne).
  change (str_eqb session_cookie_name []) with false.
  rewrite str_eqb_refl. cbn [negb andb]. rewrite Hd. reflexivity.
Qed.

Lemma parse_pair_csrf : forall cookies lead e v,
  lead = [] \/ lead = [ch " "] ->
  forallb clean e = true -> e <> [] -> decodeURIComponent e = Some v ->
  parse_pair cookies (lead ++ csrf_cookie_name ++ ch "=" :: e)
  = Some {| sessionToken := sessionToken cookies; csrfToken := Some v;
            callbackUrl := callbackUrl cookies |}.
Proof.
  intros cookies lead e v Hl He Hne Hd. unfold parse_pair.
  rewrite trim_entry by (assumption || reflexivity).
  rewrite split_entry by (assumption || reflexivity).
  rewrite (nonempty_not_nil e Hne).
  change (str_eqb csrf_cookie_name []) with false.
  change (str_eqb csrf_cookie_name session_cookie_name) with false.
  rewrite str_eqb_refl. cbn [negb andb]. rewrite Hd. reflexivity.
Qed.

Lemma parse_pair_callback : forall cookies lead e v,
  lead = [] \/ lead = [ch " "] ->
  forallb clean e = true -> e <> [] -> decodeURIComponent e = Some v ->
  parse_pair cookies (lead ++ callback_cookie_name ++ ch "=" :: e)
  = Some {| sessionToken := sessionToken cookies;
            csrfToken := csrfToken cookies; callbackUrl := Some v |}.
Proof.
  intros cookies lead e v Hl He Hne Hd. unfold parse_pair.
  rewrite trim_entry by (assumption || reflexivity).
  rewrite split_entry by (assumption || reflexivity).
  rewrite (nonempty_not_nil e Hne).
  change (str_eqb callback_cookie_name []) with false.
  change (str_eqb callback_cookie_name session_cookie_name) with false.
  change (str_eqb callback_cookie_name csrf_cookie_name) with false.
  rewrite str_eqb_refl. cbn [negb andb]. rewrite Hd. reflexivity.
Qed.


Lemma parse_pair_session_plain : forall cookies e v,
  forallb clean e = true -> e <> [] -> decodeURIComponent e = Some v ->
  parse_pair cookies (session_cookie_name ++ ch "=" :: e)
  = Some {| sessionToken := Some v; csrfToken := csrfToken cookies;
            callbackUrl := callbackUrl cookies |}.
Proof. intros cookies e v. apply (parse_pair_session cookies []). auto. Qed.

Lemma parse_pair_session_spaced : forall cookies e v,
  forallb clean e = true -> e <> [] -> decodeURIComponent e = Some v ->
  parse_pair cookies (ch " " :: session_cookie_name ++ ch "=" :: e)
  = Some {| sessionToken := Some v; csrfToken := csrfToken cookies;
            callbackUrl := callbackUrl cookies |}.
Proof. intros cookies e v. apply (parse_pair_session cookies [ch " "]). auto. Qed.

Lemma parse_pair_csrf_plain : forall cookies e v,
  forallb clean e = true -> e <> [] -> decodeURIComponent e = Some v ->
  parse_pair cookies (csrf_cookie_name ++ ch "=" :: e)
  = Some {| sessionToken := sessionToken cookies; csrfToken := Some v;
            callbackUrl := callbackUrl cookies |}.
Proof. intros cookies e v. apply (parse_pair_csrf cookies []). auto. Qed.

Lemma parse_pair_csrf_spaced : forall cookies e v,
  forallb clean e = true -> e <> [] -> decodeURIComponent e = Some v ->
  parse_pair cookies (ch " " :: csrf_cookie_name ++ ch "=" :: e)
  = Some {| sessionToken := sessionToken cookies; csrfToken := Some v;
            callbackUrl := callbackUrl cookies |}.
Proof. intros cookies e v. apply (parse_pair_csrf cookies [ch " "]). auto. Qed.

Lemma parse_pair_callback_plain : forall cookies e v,
  forallb clean e = true -> e <> [] -> decodeURIComponent e = Some v ->
  parse_pair cookies (callback_cookie_name ++ ch "=" :: e)
  = Some {| sessionToken := sessionToken cookies;
            csrfToken := csrfToken cookies; callbackUrl := Some v |}.
Proof. intros cookies e v. apply (parse_pair_callback cookies []). auto. Qed.

Lemma parse_pair_callback_spaced : forall cookies e v,
  forallb clean e = true -> e <> [] -> decodeURIComponent e = Some v ->
  parse_pair cookies (ch " " :: callback_cookie_name ++ ch "=" :: e)
  = Some {| sessionToken := sessionToken cookies;
            csrfToken := csrfToken cookies; callbackUrl := Some v |}.
Proof. intros cookies e v. apply (parse_pair_callback cookies [ch " "]). auto. Qed.

(** A token the header can carry: absent, or a non-empty string without
    unpaired surrogates. *)
Definition token_ok (t : option jsstring) : Prop :=
  match t with
  | None => True
  | Some s => s <> [] /\ well_formed s = true
  end.

Lemma cookie_part_ok : forall name t, token_ok t ->
  (t = None /\ cookie_part name t = Some []) \/
  (exists s e, t = Some s /\ cookie_part name t = Some [name ++ ch "=" :: e]
               /\ forallb clean e = true /\ e <> []
               /\ decodeURIComponent e = Some s).
Proof.
  intros name [s|] H; [|left; split; reflexivity].
  right. destruct H as [Hne Hwf].
  destruct (encode_decode s Hwf) as (e & He & Hd & Hc & Hn).
  exists s, e. unfold cookie_part.
  destruct s as [|c s]; [congruence|]. cbn [present]. rewrite He.
  repeat split; auto.
Qed.

Lemma split_on_entry : forall name e rest,
  cookie_name name = true -> forallb clean e = true ->
  split_on (ch ";") (name ++ ch "=" :: e ++ ch ";" :: rest)
  = (name ++ ch "=" :: e) :: split_on (ch ";") rest.
Proof.
  intros name e rest Hn He.
  change (name ++ ch "=" :: e ++ ch ";" :: rest)
    with (name ++ (ch "=" :: e) ++ ch ";" :: rest).
  rewrite app_assoc. apply split_on_app.
  apply entry_no_semicolon; assumption.
Qed.

Lemma split_on_space_entry : forall name e rest,
  cookie_name name = true -> forallb clean e = true ->
  split_on (ch ";") (ch " " :: name ++ ch "=" :: e ++ ch ";" :: rest)
  = (ch " " :: name ++ ch "=" :: e) :: split_on (ch ";") rest.
Proof.
  intros name e rest Hn He. cbn [split_on].
  change (N.eqb (ch " ") (ch ";")) with false. cbv iota.
  rewrite split_on_entry by assumption. reflexivity.
Qed.

Lemma split_on_space_last : forall name e,
  cookie_name name = true -> forallb clean e = true ->
  split_on (ch ";") (ch " " :: name ++ ch "=" :: e)
  = [ch " " :: name ++ ch "=" :: e].
Proof.
  intros name e Hn He. cbn [split_on].
  change (N.eqb (ch " ") (ch ";")) with false. cbv iota.
  rewrite split_on_no_char by (apply entry_no_semicolon; assumption).
  reflexivity.
Qed.

Ltac split_header :=
  repeat first
    [ rewrite split_on_entry by (assumption || reflexivity)
    | rewrite split_on_space_entry by (assumption || reflexivity)
    | rewrite split_on_space_last by (assumption || reflexivity)
    | rewrite split_on_no_char by (apply entry_no_semicolon;
                                   (assumption || reflexivity)) ].

Ltac parse_entries :=
  cbn [parse_pairs];
  repeat first
    [ erewrite parse_pair_session_plain by eassumption
    | erewrite parse_pair_csrf_plain by eassumption
    | erewrite parse_pair_callback_plain by eassumption
    | erewrite parse_pair_session_spaced by eassumption
    | erewrite parse_pair_csrf_spaced by eassumption
    | erewrite parse_pair_callback_spaced by eassumption ].

(** C10 (amended): for every cookie state whose three tokens are absent or
    non-empty strings without unpaired surrogates, [getCookieHeader]
    produces a header and [parseCookies] recovers exactly the same three
    tokens from it. *)
Theorem cookie_header_roundtrip :
  forall cookies : NextAuthCookies,
    token_ok (sessionToken cookies) ->
    token_ok (csrfToken cookies) ->
    token_ok (callbackUrl cookies) ->
    exists header,
      getCookieHeader cookies = Some header /\
      parseCookies header = Some cookies.
Proof.
  intros [s t u] Hs Ht Hu. cbn [sessionToken csrfToken callbackUrl] in *.
  unfold getCookieHeader. cbn [sessionToken csrfToken callbackUrl].
  destruct (cookie_part_ok session_cookie_name s Hs)
    as [[Es Ps]|(s' & es & Es & Ps & Cs & Ns & Ds)];
  destruct (cookie_part_ok csrf_cookie_name t Ht)
    as [[Et Pt]|(t' & et & Et & Pt & Ct & Nt & Dt)];
  destruct (cookie_part_ok callback_cookie_name u Hu)
    as [[Eu Pu]|(u' & eu & Eu & Pu & Cu & Nu & Du)];
  rewrite Ps, Pt, Pu; subst s t u;
  eexists; (split; [reflexivity|]);
  cbn [app join]; unfold parseCookies;
  change (U "; ") with [ch ";"; ch " "];
  rewrite <- ?app_assoc; cbn [app].
  all: split_header; parse_entries; reflexivity.
Qed.

(* ===================================================================== *)
(** * Properties of the endpoint sweep *)
(* ===================================================================== *)

(** A portal that answers 401 to every request for [news.find], serves one
    record from [news.list] and knows no other procedure. *)
Definition one_record : value := VArr [VObj [(U "id", VStr (U "1"))]].

Definition portal_401_on_find (req : http_request) : http_outcome :=
  if str_eqb (req_procedure req) (U "news.find") then Responded 401 VNull
  else if str_eqb (req_procedure req) (U "news.list") then
    Responded 200 (VObj [(U "result", one_record)])
  else Responded 404 VNull.

(** ** Theorems on the sweep *)

Lemma interceptor_hides_status : forall status,
  response_interceptor status <> AxiosError (Some 401) /\
  response_interceptor status <> AxiosError (Some 403) /\
  response_interceptor status <> AxiosError (Some 404).
Proof.
  intros [s|]; [|repeat split; discriminate].
  unfold response_interceptor.
  destruct s as [|p|p]; try (repeat split; discriminate).
  do 9 (destruct p as [p|p|]; try (repeat split; discriminate)).
Qed.

Lemma http_send_no_401 : forall server req e,
  http_send server req = inl e -> stops_sweep e = false.
Proof.
  intros server req e H. unfold http_send in H.
  assert (G : forall s, stops_sweep (response_interceptor s) = false).
  { intro s. destruct (interceptor_hides_status s) as [A _].
    destruct (response_interceptor s) as [k|[z|]]; try reflexivity.
    unfold stops_sweep.
    destruct z as [|p|p]; try reflexivity.
    do 9 (destruct p as [p|p|]; try reflexivity). congruence. }
  destruct (server req) as [status data|].
  - destruct ((200 <=? status) && (status <? 300)); [discriminate|].
    assert (E : e = response_interceptor (Some status)) by congruence.
    rewrite E. apply G.
  - assert (E : e = response_interceptor None) by congruence.
    rewrite E. apply G.
Qed.

Lemma read_response_no_401 : forall data e,
  read_response data = inl e -> stops_sweep e = false.
Proof.
  intros data e H. unfold read_response in H.
  destruct (is_nullish data); [inversion H; reflexivity|].
  destruct (truthy_value (get data (U "error"))); [|discriminate].
  destruct (ToString _); [destruct (ToString _)|]; inversion H; reflexivity.
Qed.

(** No failure of [call] reaches the [break] of the sweep: the interceptor
    has replaced every 401 rejection by a plain [Error]. *)
Lemma call_failure_never_stops : forall server id method params e id',
  call server id method params = (inl e, id') -> stops_sweep e = false.
Proof.
  intros server id method params e id' H. unfold call in H.
  inversion H as [[H1 H2]]. clear H H2.
  assert (P : forall x,
             match http_send server (post_request id method params) with
             | inr data => read_response data
             | inl e0 => inl e0
             end = inl x -> stops_sweep x = false).
  { intros x Hx.
    destruct (http_send server (post_request id method params)) eqn:Ep.
    - inversion Hx; subst. eapply http_send_no_401; eassumption.
    - eapply read_response_no_401; eassumption. }
  destruct (http_send server (get_request method params)) as [e0|data].
  - apply P. exact H1.
  - destruct (read_response data) as [e0|r]; [|discriminate].
    apply P. exact H1.
Qed.

(** Every failed attempt, whatever the status of the response, is followed
    by the next candidate. *)
Lemma failed_attempt_continues : forall server id ep rest e id',
  call server id (ep_procedure ep) (ep_params ep) = (inl e, id') ->
  sweep server id (ep :: rest) = sweep server id' rest.
Proof.
  intros server id ep rest e id' H. cbn [sweep]. rewrite H.
  rewrite (call_failure_never_stops _ _ _ _ _ _ H). reflexivity.
Qed.

(** C2, the behaviour of the code at a 401: the first candidate
    ([news.find]) fails with HTTP 401 on the GET and on the POST, and the
    sweep does not stop: it goes on to [news.list] and returns its
    records. *)
Lemma sweep_continues_after_401 :
  fst (call portal_401_on_find 1 (U "news.find") VUndefined)
    = inl (ErrorObject AuthExpired) /\
  tryMultipleNewsEndpoints portal_401_on_find 1 = Some one_record.
Proof. split; vm_compute; reflexivity. Qed.

(* ===================================================================== *)
(** * Properties of the news extraction *)
(* ===================================================================== *)

(** ** Reference markers *)

(** The text [s] with each apostrophe read as a double quote. *)
Definition quoted (s : string) : jsstring :=
  map (fun c => if N.eqb c (ch "'") then dq else c) (U s).

(** A streamed fragment as the page embeds it. *)
Definition push_call (fragment : jsstring) : jsstring :=
  U "<script>self.__next_f.push(" ++ fragment ++ U ")</script>".

(** The fragment of the record, whose [news] is a list of one record. *)
Definition news_fragment : jsstring :=
  quoted "[1,'5:[[\'$\',\'$L1\',null,{\'news\':[{\'id\':\'7\',\'title\':\'A\',\'description\':\'see 9:T5,\'}]}]]']".

(** The same fragment with the record itself under [news]. *)
Definition record_fragment : jsstring :=
  quoted "[1,'5:[[\'$\',\'$L1\',null,{\'news\':{\'id\':\'7\',\'title\':\'A\',\'description\':\'see 9:T5,\'}}]]']".

Definition marker_fragment : jsstring := quoted "[1,'9:T5,']".
Definition content_fragment : jsstring := quoted "[1,'Hello']".

(** The two fragments of the documented example. *)
Definition documented_page : jsstring :=
  push_call news_fragment ++ push_call (quoted "[1,'9:Hello']").

(** A page where the marker and the content are fragments of their own. *)
Definition marked_page (record : jsstring) : jsstring :=
  push_call record ++ push_call marker_fragment ++ push_call content_fragment.

(** C1 (amended): when the record fragment is followed by a fragment whose
    payload is the reference marker 9:T5, and then by a fragment whose
    payload is the text Hello, [parseNewsDetailFromHtml] returns a record
    whose content is Hello.  With the documented record fragment, whose
    [news] is a list, the list itself is taken for the record: the content
    comes from the first entry of the side table, the identifier is the
    requested one and the title is the default.  With the record itself
    under [news], the identifier is 7, the title is A and the content is
    found through the marker in the description. *)
Theorem marker_fragment_resolves_content : forall now newsId,
  (exists d,
      parseNewsDetailFromHtml now (marked_page news_fragment) newsId = Some d
      /\ detail_content d = VStr (U "Hello")
      /\ detail_id d = VStr newsId
      /\ detail_title d = VStr (U "No Title"))
  /\ (exists d,
      parseNewsDetailFromHtml now (marked_page record_fragment) newsId = Some d
      /\ detail_content d = VStr (U "Hello")
      /\ detail_id d = VStr (U "7")
      /\ detail_title d = VStr (U "A")
      /\ detail_url d = baseUrl ++ U "/news/" ++ newsId).
Proof.
  intros now newsId. split.
  - eexists. split; [vm_compute; reflexivity|].
    repeat split.
  - eexists. split; [vm_compute; reflexivity|].
    repeat split.
Qed.

(** ** Identifiers and addresses of the announcements *)












Lemma transform_from_positions : forall time newsData n index l n',
  transform_from time n index newsData = (Some l, n') ->
  length l = length newsData /\ n' = (n + length newsData)%nat
  /\ forall i item,
       nth_error newsData i = Some item ->
       exists a, nth_error l i = Some a
                 /\ transform_item (time (n + i)%nat) item (index + i)%nat
                    = Some a.
Proof.
  intros time newsData.
  induction newsData as [|item rest IH]; intros n index l n' H.
  - cbn in H. injection H as <- <-.
    split; [reflexivity|]. split; [cbn; lia|].
    intros [|i] x Hx; discriminate Hx.
  - cbn [transform_from] in H.
    destruct (transform_item (time n) item index) as [a|] eqn:Ha;
      [|discriminate].
    destruct (transform_from time (S n) (S index) rest) as [[l'|] m] eqn:Hr;
      [|discriminate].
    injection H as <- <-.
    destruct (IH _ _ _ _ Hr) as (Hlen & Hm & Hnth).
    split; [cbn [length]; congruence|].
    split; [cbn [length]; lia|].
    intros [|i] x Hx.
    + cbn in Hx. injection Hx as <-. exists a.
      rewrite !Nat.add_0_r. split; [reflexivity | exact Ha].
    + cbn [nth_error] in Hx |- *.
      destruct (Hnth i x Hx) as (b & Hb & Hx').
      exists b. split; [exact Hb|].
      replace (n + S i)%nat with (S n + i)%nat by lia.
      replace (index + S i)%nat with (S index + i)%nat by lia.
      exact Hx'.
Qed.





(** ** The rows of the grid *)






Ltac split_matches :=
  repeat match goal with
         | |- context [match ?x with _ => _ end] => destruct x eqn:?
         end.










(** ** Two runs on one page *)

(** Two announcements that differ at most in a date read from the clocks
    [t1] and [t2] at the same reading. *)
Definition same_but_clock (t1 t2 : clock) (a b : NLobbyAnnouncement) : Prop :=
  ann_id a = ann_id b /\ ann_title a = ann_title b
  /\ ann_content a = ann_content b /\ category a = category b
  /\ priority a = priority b /\ targetAudience a = targetAudience b
  /\ ann_url a = ann_url b /\ menuName a = menuName b
  /\ isImportant a = isImportant b /\ isUnread a = isUnread b
  /\ extra a = extra b
  /\ (publishedAt a = publishedAt b
      \/ exists n, publishedAt a = Some (t1 n) /\ publishedAt b = Some (t2 n)).

(** Two outcomes that throw together or return related results. *)
Definition agree {A : Type} (R : A -> A -> Prop) (x y : option A) : Prop :=
  match x, y with
  | Some a, Some b => R a b
  | None, None => True
  | _, _ => False
  end.

Lemma published_date_clock : forall now1 now2 item,
  agree (fun d1 d2 => d1 = d2 \/ (d1 = Some now1 /\ d2 = Some now2))
        (published_date now1 item) (published_date now2 item).
Proof.
  intros now1 now2 item. unfold published_date.
  repeat match goal with
         | |- context [if ?c then _ else _] => destruct c
         end;
    try (destruct (Date_new _); cbn; auto).
  cbn. auto.
Qed.

Lemma transform_item_clock : forall t1 t2 n item index,
  agree (same_but_clock t1 t2)
        (transform_item (t1 n) item index) (transform_item (t2 n) item index).
Proof.
  intros t1 t2 n item index. unfold transform_item.
  destruct (is_nullish item); [exact I|].
  pose proof (published_date_clock (t1 n) (t2 n) item) as Hd.
  destruct (published_date (t1 n) item) as [d1|],
           (published_date (t2 n) item) as [d2|]; cbn in Hd; try contradiction;
    [|exact I].
  destruct (announcement_url item index); [|exact I].
  destruct (announcement_id item index); [|exact I].
  cbn. unfold same_but_clock. cbn.
  repeat (split; [reflexivity|]).
  destruct Hd as [->|[-> ->]]; [left; reflexivity | right; eauto].
Qed.

Lemma transform_from_clock : forall t1 t2 newsData n index,
  snd (transform_from t1 n index newsData)
  = snd (transform_from t2 n index newsData)
  /\ agree (Forall2 (same_but_clock t1 t2))
           (fst (transform_from t1 n index newsData))
           (fst (transform_from t2 n index newsData)).
Proof.
  intros t1 t2 newsData.
  induction newsData as [|item rest IH]; intros n index.
  - cbn. auto.
  - cbn [transform_from].
    pose proof (transform_item_clock t1 t2 n item index) as Hi.
    destruct (transform_item (t1 n) item index) as [a|],
             (transform_item (t2 n) item index) as [b|];
      cbn in Hi; try contradiction; [|cbn; auto].
    specialize (IH (S n) (S index)).
    destruct (transform_from t1 (S n) (S index) rest) as [[l1|] m1],
             (transform_from t2 (S n) (S index) rest) as [[l2|] m2];
      cbn in IH |- *; destruct IH as [-> IH]; try contradiction; auto.
Qed.

Lemma first_transformed_clock : forall t1 t2 candidates n,
  snd (first_transformed t1 n candidates)
  = snd (first_transformed t2 n candidates)
  /\ agree (Forall2 (same_but_clock t1 t2))
           (fst (first_transformed t1 n candidates))
           (fst (first_transformed t2 n candidates)).
Proof.
  intros t1 t2 candidates.
  induction candidates as [|found rest IH]; intro n.
  - cbn. auto.
  - cbn [first_transformed]. unfold transformNewsToAnnouncements.
    pose proof (transform_from_clock t1 t2 found n 0) as Hf.
    destruct (transform_from t1 n 0 found) as [[l1|] m1],
             (transform_from t2 n 0 found) as [[l2|] m2];
      cbn in Hf |- *; destruct Hf as [-> Hf]; try contradiction; auto.
Qed.

(** The variables of two rows that differ at most in the date read from
    the clock. *)
Definition rows_agree (now1 now2 : Z) (f1 f2 : row_fields) : Prop :=
  row_title f1 = row_title f2 /\ row_category f1 = row_category f2
  /\ row_isImportant f1 = row_isImportant f2
  /\ row_isUnread f1 = row_isUnread f2 /\ row_url f1 = row_url f2
  /\ (row_publishedAt f1 = row_publishedAt f2
      \/ (row_publishedAt f1 = Some now1 /\ row_publishedAt f2 = Some now2)).

Lemma read_cell_clock : forall now1 now2 doc rowId cell f1 f2,
  rows_agree now1 now2 f1 f2 ->
  rows_agree now1 now2 (read_cell doc rowId f1 cell)
                       (read_cell doc rowId f2 cell).
Proof.
  intros now1 now2 doc rowId cell [t1 c1 p1 i1 u1 l1] [t2 c2 p2 i2 u2 l2].
  unfold rows_agree. cbn.
  intros (-> & -> & -> & -> & -> & Hp).
  unfold read_cell.
  split_matches; cbn; repeat split; auto.
Qed.

Lemma read_cells_clock : forall now1 now2 doc rowId cells f1 f2,
  rows_agree now1 now2 f1 f2 ->
  rows_agree now1 now2 (fold_left (read_cell doc rowId) cells f1)
                       (fold_left (read_cell doc rowId) cells f2).
Proof.
  intros now1 now2 doc rowId cells.
  induction cells as [|c cs IH]; intros f1 f2 H.
  - exact H.
  - cbn [fold_left]. apply IH, read_cell_clock, H.
Qed.

Lemma read_row_clock : forall t1 t2 n doc row,
  snd (read_row t1 n doc row) = snd (read_row t2 n doc row)
  /\ agree (same_but_clock t1 t2)
           (fst (read_row t1 n doc row)) (fst (read_row t2 n doc row)).
Proof.
  intros t1 t2 n doc row. unfold read_row.
  destruct (attr_of [row] (U "data-id")) as [[|c rowId]|];
    try (cbn; auto; fail).
  cbn [fst snd]. split; [reflexivity|].
  match goal with
  | |- context [fold_left ?g ?cells ?init1] =>
      match goal with
      | |- context [fold_left g cells ?init2] =>
          lazymatch init1 with
          | init2 => fail
          | _ => pose proof (read_cells_clock (t1 n) (t2 n) doc (c :: rowId)
                               cells init1 init2) as H
          end
      end
  end.
  match type of H with
  | _ -> rows_agree _ _ ?x ?y => set (f1 := x) in *; set (f2 := y) in *
  end.
  destruct H as (Ht & Hc & Hi & Hu & Hl & Hp).
  { unfold rows_agree. cbn. repeat split; auto. }
  rewrite Ht. destruct (row_title f2); [exact I|].
  cbn. unfold same_but_clock. cbn.
  rewrite Hc, Hi, Hu, Hl.
  repeat (split; [reflexivity|]).
  destruct Hp as [->|[-> ->]]; [left; reflexivity | right; eauto].
Qed.

Lemma read_rows_clock : forall t1 t2 doc rows n,
  snd (read_rows t1 n doc rows) = snd (read_rows t2 n doc rows)
  /\ Forall2 (same_but_clock t1 t2)
             (fst (read_rows t1 n doc rows)) (fst (read_rows t2 n doc rows)).
Proof.
  intros t1 t2 doc rows. induction rows as [|row rest IH]; intro n.
  - cbn. auto.
  - cbn [read_rows].
    pose proof (read_row_clock t1 t2 n doc row) as Hr.
    destruct (read_row t1 n doc row) as [x1 m1],
             (read_row t2 n doc row) as [x2 m2].
    cbn [fst snd] in Hr. destruct Hr as [-> Hr].
    specialize (IH m2).
    destruct (read_rows t1 m2 doc rest) as [l1 k1],
             (read_rows t2 m2 doc rest) as [l2 k2].
    cbn [fst snd] in IH |- *. destruct IH as [-> IH].
    split; [reflexivity|].
    destruct x1, x2; cbn in Hr; try contradiction; auto.
Qed.

Lemma cheerio_clock : forall t1 t2 n html,
  snd (parseAnnouncementsWithCheerio t1 n html)
  = snd (parseAnnouncementsWithCheerio t2 n html)
  /\ Forall2 (same_but_clock t1 t2)
             (fst (parseAnnouncementsWithCheerio t1 n html))
             (fst (parseAnnouncementsWithCheerio t2 n html)).
Proof.
  intros t1 t2 n html. unfold parseAnnouncementsWithCheerio.
  destruct (filter _ _) as [|p [|dataGridContent ps]];
    try (cbn; auto; fail).
  apply read_rows_clock.
Qed.

(** C3 (amended): two runs of [parseNewsFromHtml] on the same page, one
    under the clock [t1] and one under the clock [t2], return lists of the
    same length, and the announcements at the same position agree on every
    field other than the date; the dates are equal as well unless both are
    the clocks' readings, at the same reading in both runs.  The extraction
    is thus a function of the page and the clock: the strategy chosen and
    every field but the default date depend on the page alone. *)
Theorem parseNewsFromHtml_up_to_clock : forall t1 t2 html,
  Forall2 (same_but_clock t1 t2)
          (parseNewsFromHtml t1 html) (parseNewsFromHtml t2 html).
Proof.
  intros t1 t2 html. unfold parseNewsFromHtml.
  match goal with
  | |- context [first_transformed t1 0 ?c] =>
      pose proof (first_transformed_clock t1 t2 c 0) as H1;
      destruct (first_transformed t1 0 c) as [[l1|] n1],
               (first_transformed t2 0 c) as [[l2|] n2]
  end; cbn in H1; destruct H1 as [-> H1]; try contradiction; [exact H1|].
  pose proof (cheerio_clock t1 t2 n2 html) as H2.
  destruct (parseAnnouncementsWithCheerio t1 n2 html) as [c1 m1],
           (parseAnnouncementsWithCheerio t2 n2 html) as [c2 m2].
  cbn [fst snd] in H2. destruct H2 as [-> H2].
  destruct H2 as [|a b l1 l2 Hab Hl]; [|constructor; assumption].
  match goal with
  | |- context [first_transformed t1 m2 ?c] =>
      pose proof (first_transformed_clock t1 t2 c m2) as H3;
      destruct (first_transformed t1 m2 c) as [[l1|] k1],
               (first_transformed t2 m2 c) as [[l2|] k2]
  end; cbn in H3; destruct H3 as [_ H3]; try contradiction;
    [exact H3 | constructor].
Qed.

(* ===================================================================== *)
(** * Further properties of the code *)
(* ===================================================================== *)

(** ** The endpoint sweep *)

Lemma inspect_data_nonempty : forall data found,
  inspect_data data = Some found -> nonempty_array found = true.
Proof.
  intros data found. unfold inspect_data.
  destruct (truthy_value data && nonempty_array data) eqn:E1.
  - intro H. injection H as <-. apply andb_prop in E1. apply E1.
  - destruct (truthy_value data && is_array data); [discriminate|].
    destruct (truthy_value data && typeof_object data); [|discriminate].
    intro H. apply find_some in H. apply H.
Qed.

Lemma sweep_nonempty : forall server endpoints id found,
  sweep server id endpoints = Some found -> nonempty_array found = true.
Proof.
  intros server endpoints.
  induction endpoints as [|ep rest IH]; intros id found H; [discriminate|].
  cbn [sweep] in H.
  destruct (call server id (ep_procedure ep) (ep_params ep)) as [[e|data] id'].
  - destruct (stops_sweep e); [discriminate|]. eapply IH. exact H.
  - destruct (inspect_data data) as [x|] eqn:E.
    + injection H as <-. eapply inspect_data_nonempty. exact E.
    + eapply IH. exact H.
Qed.

Lemma tryMultipleNewsEndpoints_sweep : forall server id,
  tryMultipleNewsEndpoints server id = sweep server id news_endpoints.
Proof. intros. reflexivity. Qed.

(** X1: whatever the portal answers, [tryMultipleNewsEndpoints] returns
    [null] or an array with at least one element: never an empty array,
    an object or a primitive. *)
Theorem tryMultipleNewsEndpoints_nonempty_array : forall server id found,
  tryMultipleNewsEndpoints server id = Some found ->
  exists first rest, found = VArr (first :: rest).
Proof.
  intros server id found H. rewrite tryMultipleNewsEndpoints_sweep in H.
  apply sweep_nonempty in H.
  destruct found as [| | | | |[|first rest]|]; try discriminate.
  exists first, rest. reflexivity.
Qed.

(** A portal no request to which succeeds: it does not respond, or it
    responds with a status outside 200 to 299. *)
Definition always_fails (server : http_request -> http_outcome) : Prop :=
  forall req,
    match server req with
    | Responded status _ => (200 <=? status) && (status <? 300) = false
    | NoResponse => True
    end.

Lemma call_fails : forall server id method params,
  always_fails server ->
  exists e, fst (call server id method params) = inl e.
Proof.
  intros server id method params H. unfold call, http_send. cbn [fst].
  pose proof (H (get_request method params)) as Hg.
  pose proof (H (post_request id method params)) as Hp.
  destruct (server (get_request method params)) as [sg dg|];
    destruct (server (post_request id method params)) as [sp dp|];
    try rewrite Hg; try rewrite Hp; eexists; reflexivity.
Qed.

(** X2: when no request succeeds (the portal is down, or it turns every
    request away), [tryMultipleNewsEndpoints] returns [null]. *)
Theorem tryMultipleNewsEndpoints_all_fail : forall server id,
  always_fails server -> tryMultipleNewsEndpoints server id = None.
Proof.
  intros server id H. rewrite tryMultipleNewsEndpoints_sweep.
  generalize news_endpoints. intro endpoints. revert id.
  induction endpoints as [|ep rest IH]; intro id; [reflexivity|].
  cbn [sweep].
  destruct (call_fails server id (ep_procedure ep) (ep_params ep) H) as [e He].
  destruct (call server id (ep_procedure ep) (ep_params ep)) as [r id'].
  cbn [fst] in He. subst r.
  destruct (stops_sweep e); [reflexivity | apply IH].
Qed.

(** ** The cookie parser *)

Lemma split_on_nonempty : forall sep s, split_on sep s <> [].
Proof.
  intros sep s. destruct s as [|c s]; cbn [split_on]; [discriminate|].
  destruct (N.eqb c sep); [discriminate|].
  destruct (split_on sep s); discriminate.
Qed.

Lemma split_on_app_any : forall sep a b,
  split_on sep (a ++ sep :: b) = split_on sep a ++ split_on sep b.
Proof.
  intros sep a b. induction a as [|c a IH].
  - cbn [app split_on]. rewrite N.eqb_refl. reflexivity.
  - cbn [app split_on]. destruct (N.eqb c sep).
    + rewrite IH. reflexivity.
    + rewrite IH. pose proof (split_on_nonempty sep a) as Hn.
      destruct (split_on sep a) as [|w ws]; [congruence | reflexivity].
Qed.

Lemma parse_pairs_app : forall l1 l2 cookies,
  parse_pairs cookies (l1 ++ l2)
  = match parse_pairs cookies l1 with
    | Some cookies' => parse_pairs cookies' l2
    | None => None
    end.
Proof.
  induction l1 as [|kv l1 IH]; intros l2 cookies; [reflexivity|].
  cbn [app parse_pairs].
  destruct (parse_pair cookies kv) as [cookies'|]; [apply IH | reflexivity].
Qed.

(** The name of an entry of the header: what stands before the first
    equals sign of the trimmed entry. *)
Definition entry_name (entry : jsstring) : jsstring :=
  match split_on (ch "=") (trim entry) with
  | name :: _ => name
  | [] => []
  end.

(** An entry that names none of the three cookies of the handler. *)
Definition other_cookie (entry : jsstring) : bool :=
  negb (str_eqb (entry_name entry) session_cookie_name)
  && negb (str_eqb (entry_name entry) csrf_cookie_name)
  && negb (str_eqb (entry_name entry) callback_cookie_name).

Lemma parse_pair_other : forall cookies entry,
  other_cookie entry = true -> parse_pair cookies entry = Some cookies.
Proof.
  intros cookies entry. unfold other_cookie, entry_name, parse_pair.
  destruct (split_on (ch "=") (trim entry)) as [|name [|value rest]];
    try reflexivity.
  intro H. apply andb_prop in H. destruct H as [H H3].
  apply andb_prop in H. destruct H as [H1 H2].
  apply negb_true_iff in H1, H2, H3. rewrite H1, H2, H3.
  destruct (negb (str_eqb name []) && negb (str_eqb value []));
    reflexivity.
Qed.

(** X3: [parseCookies] ignores every entry whose name is none of the three
    NextAuth cookie names, wherever the entry stands in the header: the
    header with the entry parses to what the header without it parses to. *)
Theorem parseCookies_ignores_other_cookies : forall before entry after,
  no_char (ch ";") entry = true ->
  other_cookie entry = true ->
  parseCookies (before ++ ch ";" :: entry ++ ch ";" :: after)
  = parseCookies (before ++ ch ";" :: after)
  /\ parseCookies (entry ++ ch ";" :: after) = parseCookies after
  /\ parseCookies (before ++ ch ";" :: entry) = parseCookies before.
Proof.
  intros before entry after Hsep Hother. unfold parseCookies.
  rewrite !split_on_app_any, !parse_pairs_app.
  rewrite (split_on_no_char _ _ Hsep).
  split; [|split].
  - destruct (parse_pairs no_cookies (split_on (ch ";") before)) as [c|];
      [|reflexivity].
    cbn [app parse_pairs]. rewrite (parse_pair_other _ _ Hother).
    reflexivity.
  - cbn [app parse_pairs]. rewrite (parse_pair_other _ _ Hother).
    reflexivity.
  - destruct (parse_pairs no_cookies (split_on (ch ";") before)) as [c|];
      [|reflexivity].
    cbn [app parse_pairs]. rewrite (parse_pair_other _ _ Hother).
    reflexivity.
Qed.

Lemma trim_start_app_stop : forall a c b,
  is_space c = false ->
  exists a', trim_start (a ++ c :: b) = a' ++ c :: b.
Proof.
  intros a c b Hc. induction a as [|x a IH].
  - exists []. cbn [app trim_start]. rewrite Hc. reflexivity.
  - cbn [app trim_start]. destruct (is_space x).
    + exact IH.
    + exists (x :: a). reflexivity.
Qed.

(** Trimming a text that starts and ends a part with characters that are
    no blanks keeps that part. *)
Lemma trim_keeps_part : forall c p e w,
  is_space c = false -> is_space e = false ->
  exists w', trim ((c :: p) ++ e :: w) = (c :: p) ++ e :: w'.
Proof.
  intros c p e w Hc He. unfold trim.
  cbn [app trim_start]. rewrite Hc.
  change (c :: p ++ e :: w) with ((c :: p) ++ e :: w).
  rewrite rev_app_distr. cbn [rev]. rewrite <- app_assoc. cbn [app].
  destruct (trim_start_app_stop (rev w) e (rev p ++ [c]) He) as [a' Ha].
  rewrite Ha. exists (rev a').
  rewrite rev_app_distr. cbn [rev]. rewrite rev_app_distr, rev_involutive.
  cbn [rev app]. rewrite <- app_assoc. reflexivity.
Qed.

(** X4: [parseCookies] splits an entry at every equals sign and keeps the
    second piece only: of a session cookie whose value holds an equals
    sign that is not percent-encoded, the token is the part of the value
    before that sign, and what follows it is dropped. *)
Theorem parseCookies_cuts_value_at_equals : forall v w,
  v <> [] ->
  no_char (ch "=") v = true -> no_char (ch ";") v = true ->
  no_char (ch ";") w = true ->
  parseCookies (session_cookie_name ++ ch "=" :: v ++ ch "=" :: w)
  = option_map (fun token => {| sessionToken := Some token;
                                csrfToken := None;
                                callbackUrl := None |})
               (decodeURIComponent v).
Proof.
  intros v w Hv Heq Hsemi Hw. unfold parseCookies.
  rewrite split_on_no_char.
  2:{ unfold no_char in *. rewrite forallb_app. cbn [forallb].
      rewrite forallb_app. cbn [forallb].
      rewrite Hsemi, Hw. reflexivity. }
  cbn [parse_pairs]. unfold parse_pair.
  assert (Ht : exists w',
             trim (session_cookie_name ++ ch "=" :: v ++ ch "=" :: w)
             = session_cookie_name ++ ch "=" :: v ++ ch "=" :: w').
  { assert (Hname : exists c p, session_cookie_name = c :: p
                                /\ is_space c = false)
      by (eexists; eexists; split; reflexivity).
    destruct Hname as (c & p & Hn & Hc). rewrite Hn.
    destruct (trim_keeps_part c (p ++ ch "=" :: v) (ch "=") w Hc eq_refl)
      as [w' Hw'].
    exists w'.
    replace ((c :: p) ++ ch "=" :: v ++ ch "=" :: w)
      with ((c :: p ++ ch "=" :: v) ++ ch "=" :: w)
      by (cbn [app]; rewrite <- app_assoc; reflexivity).
    rewrite Hw'. cbn [app]. rewrite <- app_assoc. reflexivity. }
  destruct Ht as [w' Ht]. rewrite Ht.
  rewrite split_on_app by reflexivity.
  rewrite split_on_app by exact Heq.
  rewrite str_eqb_refl.
  destruct v as [|x v]; [congruence|].
  cbn [str_eqb negb andb].
  destruct (decodeURIComponent (x :: v)); reflexivity.
Qed.

(** ** The session store *)

(** X5: a call of [setCookies] with a blob that is not blank and parses
    replaces the session state altogether: the HTTP header and the tRPC
    blob are the blob, the tokens are the parsed ones, and nothing of the
    state before the call is kept (a token the blob does not name is
    dropped); so of two such calls in a row only the second counts. *)
Theorem setCookies_replaces_state : forall blob parsed st,
  blank blob = false ->
  parseCookies blob = Some parsed ->
  setCookies blob st
  = ({| http_cookie := Some blob; nextAuth := parsed;
        trpc_allCookies := blob |}, false)
  /\ forall earlier,
       setCookies blob (fst (setCookies earlier st)) = setCookies blob st.
Proof.
  intros blob parsed st Hb Hp.
  assert (E : forall s, setCookies blob s
                        = ({| http_cookie := Some blob; nextAuth := parsed;
                              trpc_allCookies := blob |}, false)).
  { intro s. unfold setCookies, setAllCookies. rewrite Hb, Hp. reflexivity. }
  split; [apply E|]. intro earlier. rewrite !E. reflexivity.
Qed.

(** X6: when a value of the blob is no percent-encoding, [parseCookies]
    throws after [setCookies] has stored the blob as the HTTP client's
    cookie header: the call fails with the header changed and the tokens
    and the tRPC client's blob left as they were. *)
Theorem setCookies_throws_after_header : forall blob st,
  blank blob = false ->
  parseCookies blob = None ->
  setCookies blob st
  = ({| http_cookie := Some blob; nextAuth := nextAuth st;
        trpc_allCookies := trpc_allCookies st |}, true).
Proof.
  intros blob st Hb Hp. unfold setCookies. rewrite Hb, Hp. reflexivity.
Qed.

(** ** The searches through parsed data *)

Lemma value_nested_ind : forall P : value -> Prop,
  P VUndefined -> P VNull -> (forall b, P (VBool b)) ->
  (forall x, P (VNum x)) -> (forall s, P (VStr s)) ->
  (forall items, Forall P items -> P (VArr items)) ->
  (forall props, Forall (fun kv => P (snd kv)) props -> P (VObj props)) ->
  forall v, P v.
Proof.
  intros P Hu Hn Hb Hx Hs Ha Ho. fix IH 1.
  intros [| |b|x|s|items|props];
    [exact Hu | exact Hn | apply Hb | apply Hx | apply Hs | | ].
  - apply Ha. induction items as [|i items IHi]; constructor;
      [apply IH | exact IHi].
  - apply Ho. induction props as [|[k v] props IHp]; constructor;
      [apply IH | exact IHp].
Qed.

(** X7: when [searchForNewsInData] returns anything, the first element of
    what it returns is an object with at least one of the properties the
    search looks for; for a value that is no array and no object it
    returns the empty array. *)
Theorem searchForNewsInData_head_is_record : forall obj,
  match searchForNewsInData obj with
  | first :: _ =>
      exists props, first = VObj props /\ has_news_property first = true
  | [] => True
  end
  /\ (typeof_object obj = false -> searchForNewsInData obj = []).
Proof.
  intro obj. split.
  - induction obj as [| |b|x|s|items IH|props IH] using value_nested_ind;
      try exact I.
    + cbn [searchForNewsInData].
      destruct items as [|firstItem rest]; [exact I|].
      destruct (truthy_value firstItem && typeof_object firstItem
                && has_news_property firstItem) eqn:E; [|exact I].
      apply andb_prop in E. destruct E as [_ E].
      destruct firstItem; try discriminate E. eauto.
    + cbn [searchForNewsInData].
      induction props as [|[k v] props IHp]; [exact I|].
      cbn [flat_map]. inversion IH as [|? ? Hv Hrest]; subst.
      cbn [snd] in Hv.
      destruct (searchForNewsInData v) as [|first rest].
      * cbn [app]. apply IHp. exact Hrest.
      * cbn [app]. exact Hv.
  - destruct obj; try discriminate; reflexivity.
Qed.

(** A value [v] stands inside [obj]: it is [obj], or it stands inside an
    element or a property value of [obj]. *)
Inductive inside (v : value) : value -> Prop :=
| inside_here : inside v v
| inside_element : forall items x,
    In x items -> inside v x -> inside v (VArr items)
| inside_property : forall props k x,
    In (k, x) props -> inside v x -> inside v (VObj props).

Definition container (v : value) : bool :=
  match v with
  | VArr _ | VObj _ => true
  | _ => false
  end.

Lemma container_truthy_object : forall v,
  container v = true <-> truthy_value v && typeof_object v = true.
Proof.
  intros []; cbn [container truthy_value typeof_object];
    rewrite ?andb_false_r; cbn [andb]; split; congruence.
Qed.

Lemma inside_container : forall v obj,
  inside v obj -> container v = true -> container obj = true.
Proof. intros v obj H. destruct H; auto. Qed.

Lemma lookup_In : forall k props x,
  lookup k props = Some x -> exists k', In (k', x) props.
Proof.
  intros k props x. induction props as [|[k' v] props IH]; [discriminate|].
  cbn [lookup]. destruct (str_eqb k k').
  - intro H. injection H as <-. exists k'. left. reflexivity.
  - intro H. destruct (IH H) as [k2 H2]. exists k2. right. exact H2.
Qed.

(** A truthy property of an object stands inside the object. *)
Lemma property_inside : forall obj k,
  container (get obj k) = true -> container obj = true ->
  inside (get obj k) obj.
Proof.
  intros obj k Hc Ho. destruct obj as [| | | | |items|props];
    try discriminate.
  - cbn [get] in *. destruct (str_eqb k (U "length")); [discriminate|].
    destruct (array_index k) as [i|]; [|discriminate].
    destruct (nth_in_or_default (Z.to_nat i) items VUndefined) as [H|H].
    + eapply inside_element; [exact H | apply inside_here].
    + rewrite H in Hc. discriminate.
  - cbn [get] in *. destruct (lookup k props) as [x|] eqn:E; [|discriminate].
    destruct (lookup_In _ _ _ E) as [k' Hin].
    eapply inside_property; [exact Hin | apply inside_here].
Qed.

(** The loop of the two recursive searches over the elements of an array
    or the property values of an object: the first result of [f] on an
    array or object among them. *)
Fixpoint first_in (f : value -> option value) (l : list value)
  : option value :=
  match l with
  | [] => None
  | v :: rest =>
      match (if truthy_value v && typeof_object v then f v else None) with
      | Some found => Some found
      | None => first_in f rest
      end
  end.

Lemma first_in_found : forall f l found,
  first_in f l = Some found ->
  exists x, In x l /\ container x = true /\ f x = Some found.
Proof.
  intros f l found. induction l as [|v rest IH]; [discriminate|].
  cbn [first_in]. destruct (truthy_value v && typeof_object v) eqn:E.
  - destruct (f v) as [y|] eqn:Ef.
    + intro H. injection H as <-. exists v.
      split; [left; reflexivity|].
      split; [apply container_truthy_object; exact E | exact Ef].
    + intro H. destruct (IH H) as (x & Hin & Hx). exists x.
      split; [right; exact Hin | exact Hx].
  - intro H. destruct (IH H) as (x & Hin & Hx). exists x.
    split; [right; exact Hin | exact Hx].
Qed.

Lemma first_in_none : forall f l,
  first_in f l = None ->
  forall x, In x l -> container x = true -> f x = None.
Proof.
  intros f l. induction l as [|v rest IH]; intros H x Hin Hc;
    [destruct Hin|].
  cbn [first_in] in H. destruct Hin as [<-|Hin].
  - apply container_truthy_object in Hc. rewrite Hc in H.
    destruct (f v); [discriminate | reflexivity].
  - destruct (if truthy_value v && typeof_object v then f v else None);
      [discriminate|].
    apply (IH H x Hin Hc).
Qed.

Lemma education_shape_array : forall items,
  education_shape (VArr items) = false.
Proof.
  intro items. reflexivity.
Qed.

Lemma findEducationData_array : forall items,
  findEducationDataInObject (VArr items)
  = first_in findEducationDataInObject items.
Proof.
  intro items.
  cbn [findEducationDataInObject truthy_value typeof_object negb orb].
  rewrite education_shape_array.
  induction items as [|i items IH]; [reflexivity|].
  cbn [first_in]. rewrite <- IH. reflexivity.
Qed.

Lemma findEducationData_object : forall props,
  findEducationDataInObject (VObj props)
  = if education_shape (VObj props) then Some (VObj props)
    else first_in findEducationDataInObject (map snd props).
Proof.
  intro props.
  cbn [findEducationDataInObject truthy_value typeof_object negb orb].
  destruct (education_shape (VObj props)); [reflexivity|].
  induction props as [|[k v] props IH]; [reflexivity|].
  cbn [first_in map snd]. rewrite <- IH. reflexivity.
Qed.

Lemma education_shape_is_object : forall v,
  education_shape v = true -> exists props, v = VObj props.
Proof.
  intros v H. destruct v as [| | | |s|items|props];
    try (cbn in H; discriminate H).
  eauto.
Qed.

Lemma findEducationData_primitive : forall obj,
  container obj = false -> findEducationDataInObject obj = None.
Proof.
  intros obj H. destruct obj; try discriminate H;
    cbn [findEducationDataInObject truthy_value typeof_object negb];
    rewrite ?orb_true_r; reflexivity.
Qed.

(** X8: [findEducationDataInObject] returns a value only if that value is
    an object inside the data with the shape looked for (a truthy
    [educationProcessName] and an array [termYears]); and it returns
    [null] only if no value inside the data has that shape. *)
Theorem findEducationDataInObject_finds : forall obj,
  (forall found,
      findEducationDataInObject obj = Some found ->
      inside found obj /\ education_shape found = true)
  /\ (findEducationDataInObject obj = None ->
      forall v, inside v obj -> education_shape v = false).
Proof.
  intro obj.
  induction obj as [| |b|x|s|items IH|props IH] using value_nested_ind;
    try (rewrite findEducationData_primitive by reflexivity;
         split; [intros found H; discriminate H
                | intros _ v Hin; inversion Hin; subst; reflexivity]).
  - rewrite findEducationData_array. rewrite Forall_forall in IH. split.
    + intros found H.
      destruct (first_in_found _ _ _ H) as (x & Hin & _ & Hx).
      destruct (proj1 (IH x Hin) found Hx) as [Hi Hs].
      split; [|exact Hs]. eapply inside_element; eassumption.
    + intros H v Hin. inversion Hin as [|? x Hx Hv|]; subst.
      * apply education_shape_array.
      * destruct (education_shape v) eqn:Es; [|reflexivity].
        destruct (education_shape_is_object v Es) as [pv ->].
        pose proof (inside_container _ _ Hv eq_refl) as Hc.
        pose proof (first_in_none _ _ H x Hx Hc) as Hn.
        rewrite <- Es. apply (proj2 (IH x Hx) Hn). exact Hv.
  - rewrite findEducationData_object. rewrite Forall_forall in IH.
    destruct (education_shape (VObj props)) eqn:Eo.
    + split; [|discriminate].
      intros found H. injection H as <-. split; [apply inside_here | exact Eo].
    + split.
      * intros found H.
        destruct (first_in_found _ _ _ H) as (x & Hin & _ & Hx).
        apply in_map_iff in Hin. destruct Hin as ([k x'] & Hk & Hin).
        cbn [snd] in Hk. subst x'.
        destruct (proj1 (IH (k, x) Hin) found Hx) as [Hi Hs].
        split; [|exact Hs]. eapply inside_property; eassumption.
      * intros H v Hin. inversion Hin as [| |? k x Hx Hv]; subst.
        { exact Eo. }
        destruct (education_shape v) eqn:Es; [|reflexivity].
        destruct (education_shape_is_object v Es) as [pv ->].
        pose proof (inside_container _ _ Hv eq_refl) as Hc.
        assert (Hm : In x (map snd props))
          by (apply in_map_iff; exists (k, x); split; [reflexivity|exact Hx]).
        pose proof (first_in_none _ _ H x Hm Hc) as Hn.
        rewrite <- Es. apply (proj2 (IH (k, x) Hx) Hn). exact Hv.
Qed.

Lemma searchForNewsData_primitive : forall obj,
  container obj = false -> searchForNewsDataInObject obj = None.
Proof.
  intros obj H. destruct obj; try discriminate H;
    cbn [searchForNewsDataInObject truthy_value typeof_object negb];
    rewrite ?orb_true_r; reflexivity.
Qed.

Lemma searchForNewsData_array : forall items,
  searchForNewsDataInObject (VArr items)
  = first_in searchForNewsDataInObject items.
Proof.
  intro items.
  cbn [searchForNewsDataInObject truthy_value typeof_object negb orb].
  change (news_like (VArr items)) with false.
  change (has_news_object (VArr items)) with false. cbv iota.
  induction items as [|i items IH]; [reflexivity|].
  cbn [first_in]. rewrite <- IH. reflexivity.
Qed.

Lemma searchForNewsData_object : forall props,
  searchForNewsDataInObject (VObj props)
  = if news_like (VObj props) then Some (VObj props)
    else if has_news_object (VObj props)
         then Some (get (VObj props) (U "news"))
         else first_in searchForNewsDataInObject (map snd props).
Proof.
  intro props.
  cbn [searchForNewsDataInObject truthy_value typeof_object negb orb].
  destruct (news_like (VObj props)); [reflexivity|].
  destruct (has_news_object (VObj props)); [reflexivity|].
  induction props as [|[k v] props IH]; [reflexivity|].
  cbn [first_in map snd]. rewrite <- IH. reflexivity.
Qed.

Lemma news_shapes_are_objects : forall v,
  news_like v = true \/ has_news_object v = true ->
  exists props, v = VObj props.
Proof.
  intros v H. destruct v as [| | | |s|items|props];
    try (destruct H as [H|H]; cbn in H; discriminate H).
  eauto.
Qed.

(** X9: [searchForNewsDataInObject] returns an array or an object that
    stands inside the data and either has the properties of a news record
    (a truthy [id] and [title], and a truthy [publishedAt], [description]
    or [menuName]) or is the [news] property of an object inside the
    data; and it returns [null] only if nothing inside the data is such a
    record or has such a [news] property. *)
Theorem searchForNewsDataInObject_finds : forall obj,
  (forall found,
      searchForNewsDataInObject obj = Some found ->
      container found = true /\ inside found obj
      /\ (news_like found = true
          \/ exists parent,
               inside parent obj /\ has_news_object parent = true
               /\ found = get parent (U "news")))
  /\ (searchForNewsDataInObject obj = None ->
      forall v, inside v obj ->
                news_like v = false /\ has_news_object v = false).
Proof.
  intro obj.
  induction obj as [| |b|x|s|items IH|props IH] using value_nested_ind;
    try (rewrite searchForNewsData_primitive by reflexivity;
         split; [intros found H; discriminate H
                | intros _ v Hin; inversion Hin; subst;
                  split; reflexivity]).
  - rewrite searchForNewsData_array. rewrite Forall_forall in IH. split.
    + intros found H.
      destruct (first_in_found _ _ _ H) as (x & Hin & _ & Hx).
      destruct (proj1 (IH x Hin) found Hx) as (Hc & Hi & Hs).
      split; [exact Hc|]. split; [eapply inside_element; eassumption|].
      destruct Hs as [Hs|(parent & Hp & Hn & He)]; [left; exact Hs|].
      right. exists parent.
      split; [eapply inside_element; eassumption | auto].
    + intros H v Hin. inversion Hin as [|? x Hx Hv|]; subst.
      * split; reflexivity.
      * destruct (news_like v) eqn:E1; destruct (has_news_object v) eqn:E2;
          try (split; reflexivity);
          (destruct (news_shapes_are_objects v) as [pv ->];
           [rewrite E1, E2; auto|];
           pose proof (inside_container _ _ Hv eq_refl) as Hc;
           pose proof (first_in_none _ _ H x Hx Hc) as Hn;
           destruct (proj2 (IH x Hx) Hn _ Hv); congruence).
  - rewrite searchForNewsData_object. rewrite Forall_forall in IH.
    destruct (news_like (VObj props)) eqn:E1.
    { split; [|discriminate].
      intros found H. injection H as <-.
      split; [reflexivity|]. split; [apply inside_here | left; exact E1]. }
    destruct (has_news_object (VObj props)) eqn:E2.
    { split; [|discriminate].
      intros found H. injection H as <-.
      assert (Hc : container (get (VObj props) (U "news")) = true).
      { apply container_truthy_object. exact E2. }
      split; [exact Hc|].
      split; [apply (property_inside (VObj props) (U "news"));
              [exact Hc | reflexivity]|].
      right. exists (VObj props).
      split; [apply inside_here | auto]. }
    split.
    + intros found H.
      destruct (first_in_found _ _ _ H) as (x & Hin & _ & Hx).
      apply in_map_iff in Hin. destruct Hin as ([k x'] & Hk & Hin).
      cbn [snd] in Hk. subst x'.
      destruct (proj1 (IH (k, x) Hin) found Hx) as (Hc & Hi & Hs).
      split; [exact Hc|]. split; [eapply inside_property; eassumption|].
      destruct Hs as [Hs|(parent & Hp & Hn & He)]; [left; exact Hs|].
      right. exists parent.
      split; [eapply inside_property; eassumption | auto].
    + intros H v Hin. inversion Hin as [| |? k x Hx Hv]; subst.
      { split; assumption. }
      destruct (news_like v) eqn:F1; destruct (has_news_object v) eqn:F2;
        try (split; reflexivity);
        (destruct (news_shapes_are_objects v) as [pv ->];
         [rewrite F1, F2; auto|];
         pose proof (inside_container _ _ Hv eq_refl) as Hc;
         assert (Hm : In x (map snd props))
           by (apply in_map_iff; exists (k, x);
               split; [reflexivity|exact Hx]);
         pose proof (first_in_none _ _ H x Hm Hc) as Hn;
         destruct (proj2 (IH (k, x) Hx) Hn _ Hv); congruence).
Qed.

(** ** The transformation of news records *)

(** X10: when [transformNewsToAnnouncements] returns, it returns one
    announcement for every record, in the order of the records: the
    announcement at position [i] is made from the record at position [i],
    with [i] as the position that stands in for a missing identifier or
    title, and with the clock read once for every record. *)
Theorem transformNewsToAnnouncements_positions :
  forall time n newsData l n',
    transformNewsToAnnouncements time n newsData = (Some l, n') ->
    length l = length newsData /\ n' = (n + length newsData)%nat
    /\ forall i item,
         nth_error newsData i = Some item ->
         exists a, nth_error l i = Some a
                   /\ transform_item (time (n + i)%nat) item i = Some a.
Proof.
  intros time n newsData l n' H.
  apply (transform_from_positions time newsData n 0%nat l n') in H.
  exact H.
Qed.

(** A record whose identifier and date fields are primitive values: no
    arrays and no objects. *)
Definition plain_record (item : value) : bool :=
  negb (is_nullish item)
  && forallb (fun k => negb (container (get item k)))
             [U "id"; U "publishedAt"; U "createdAt"; U "updatedAt";
              U "date"].

Lemma Date_new_primitive : forall v,
  container v = false -> Date_new v <> None.
Proof. intros [] H; try discriminate H; discriminate. Qed.

Lemma ToString_primitive : forall v,
  container v = false -> ToString v <> None.
Proof. intros [] H; try discriminate H; discriminate. Qed.

Lemma transform_item_plain : forall now item index,
  plain_record item = true -> transform_item now item index <> None.
Proof.
  intros now item index H. unfold plain_record in H.
  cbn [forallb] in H.
  repeat match type of H with
         | _ && _ = true =>
             let H1 := fresh "P" in
             apply andb_prop in H; destruct H as [H1 H]
         end.
  repeat match goal with
         | P : negb _ = true |- _ => apply negb_true_iff in P
         end.
  unfold transform_item. rewrite P.
  assert (Hd : published_date now item <> None).
  { unfold published_date.
    repeat match goal with
           | |- context [if ?c then _ else _] => destruct c
           end; try (apply Date_new_primitive; assumption).
    discriminate. }
  destruct (published_date now item) as [d|]; [|congruence].
  assert (Hu : announcement_url item index <> None).
  { unfold announcement_url, or_else.
    destruct (truthy_value (get item (U "id"))).
    - pose proof (ToString_primitive _ P0) as Hs.
      destruct (ToString (get item (U "id"))); [discriminate | congruence].
    - discriminate. }
  destruct (announcement_url item index) as [u|]; [|congruence].
  assert (Hi : announcement_id item index <> None).
  { unfold announcement_id.
    destruct (is_nullish (get item (U "id"))); [discriminate|].
    pose proof (ToString_primitive _ P0) as Hs.
    destruct (ToString (get item (U "id"))) as [[|c s]|];
      [discriminate | discriminate | congruence]. }
  destruct (announcement_id item index) as [i|]; [|congruence].
  discriminate.
Qed.

Lemma transform_from_plain : forall time newsData n index,
  Forall (fun item => plain_record item = true) newsData ->
  exists l,
    transform_from time n index newsData
    = (Some l, (n + length newsData)%nat).
Proof.
  intros time newsData.
  induction newsData as [|item rest IH]; intros n index H.
  - exists []. cbn. rewrite Nat.add_0_r. reflexivity.
  - inversion H as [|? ? Hitem Hrest]; subst.
    cbn [transform_from].
    pose proof (transform_item_plain (time n) item index Hitem) as Ha.
    destruct (transform_item (time n) item index) as [a|]; [|congruence].
    destruct (IH (S n) (S index) Hrest) as [l Hl]. rewrite Hl.
    exists (a :: l). cbn [length]. f_equal. lia.
Qed.

(** X11: [transformNewsToAnnouncements] does not throw on records that
    are neither [null] nor [undefined] and whose [id], [publishedAt],
    [createdAt], [updatedAt] and [date] are primitive values (strings,
    numbers, booleans, [null] or absent): it returns an announcement for
    every record. *)
Theorem transformNewsToAnnouncements_plain_records :
  forall time n newsData,
    Forall (fun item => plain_record item = true) newsData ->
    exists l,
      transformNewsToAnnouncements time n newsData
      = (Some l, (n + length newsData)%nat)
      /\ length l = length newsData.
Proof.
  intros time n newsData H.
  destruct (transform_from_plain time newsData n 0%nat H) as [l Hl].
  exists l. split; [exact Hl|].
  apply (transform_from_positions time newsData n 0%nat l _ Hl).
Qed.

(** ** The rows of the grid *)




(** ** Patterns that start with a literal text *)

(** Every match of [r] starts with the text [p]. *)
Definition begins_with (r : regex) (p : jsstring) : Prop :=
  forall (R : Type) s caps k (x : R),
    rmatch r s caps k = Some x -> exists s', s = p ++ s'.

Lemma lit_units_match : forall (R : Type) p s caps k (x : R),
  rmatch (lit_units p) s caps k = Some x ->
  exists s', s = p ++ s' /\ k s' caps = Some x.
Proof.
  intros R p. induction p as [|c p IH]; intros s caps k x H.
  - exists s. split; [reflexivity | exact H].
  - destruct p as [|c2 p].
    + cbn [lit_units rmatch] in H. destruct s as [|y s]; [discriminate|].
      destruct (N.eqb_spec y c) as [->|]; [|discriminate].
      exists s. split; [reflexivity | exact H].
    + change (lit_units (c :: c2 :: p))
        with (RSeq (RChar c) (lit_units (c2 :: p))) in H.
      cbn [rmatch] in H. destruct s as [|y s]; [discriminate|].
      destruct (N.eqb_spec y c) as [->|]; [|discriminate].
      destruct (IH _ _ _ _ H) as (s' & -> & Hk).
      exists s'. split; [reflexivity | exact Hk].
Qed.

Lemma begins_with_lit : forall p, begins_with (lit_units p) p.
Proof.
  intros p R s caps k x H.
  destruct (lit_units_match _ _ _ _ _ _ H) as (s' & Hs & _). eauto.
Qed.

Lemma begins_with_seq : forall p b, begins_with (RSeq (lit_units p) b) p.
Proof.
  intros p b R s caps k x H. cbn [rmatch] in H.
  destruct (lit_units_match _ _ _ _ _ _ H) as (s' & Hs & _). eauto.
Qed.

Lemma starts_with_app : forall p s, starts_with p (p ++ s) = true.
Proof.
  induction p as [|c p IH]; intro s; [reflexivity|].
  cbn [app starts_with]. rewrite N.eqb_refl. apply IH.
Qed.

Lemma includes_prefix : forall p s, includes (p ++ s) p = true.
Proof.
  intros p s. pose proof (starts_with_app p s) as H.
  destruct (p ++ s); cbn [includes]; rewrite H; reflexivity.
Qed.

Lemma search_without_literal : forall r p,
  begins_with r p ->
  forall s before, includes s p = false -> search r before s = None.
Proof.
  intros r p Hr s. induction s as [|c s IH]; intros before H.
  - cbn [search]. unfold match_here.
    destruct (rmatch r [] [] _) as [[rest caps]|] eqn:E; [|reflexivity].
    destruct (Hr _ _ _ _ _ E) as [s' Hs].
    rewrite Hs, includes_prefix in H. discriminate.
  - cbn [search]. unfold match_here.
    destruct (rmatch r (c :: s) [] _) as [[rest caps]|] eqn:E.
    + destruct (Hr _ _ _ _ _ E) as [s' Hs].
      rewrite Hs, includes_prefix in H. discriminate.
    + apply IH. cbn [includes] in H. apply orb_false_elim in H. apply H.
Qed.

Lemma includes_char : forall c q s,
  forallb (fun x => negb (N.eqb x c)) s = true ->
  includes s (c :: q) = false.
Proof.
  intros c q s. induction s as [|y s IH]; intro H; [reflexivity|].
  cbn [forallb] in H. apply andb_prop in H. destruct H as [Hy Hs].
  apply negb_true_iff in Hy.
  cbn [includes starts_with]. rewrite N.eqb_sym, Hy. cbn [andb orb].
  apply IH. exact Hs.
Qed.

Lemma replace_all_without_literal : forall r p by_ s,
  begins_with r p -> includes s p = false -> replace_all r by_ s = s.
Proof.
  intros r p by_ s Hr H. unfold replace_all. cbn [replace_all_fuel].
  rewrite (search_without_literal r p Hr s [] H). reflexivity.
Qed.

(** X13: [decodeHtmlContent] returns a text without a backslash as it
    is. *)
Theorem decodeHtmlContent_without_backslash : forall content,
  forallb (fun c => negb (N.eqb c backslash)) content = true ->
  decodeHtmlContent content = content.
Proof.
  intros content H. unfold decodeHtmlContent.
  destruct content as [|c rest] eqn:E; [reflexivity|]. rewrite <- E in *.
  rewrite (replace_all_without_literal (lit_units (backslash :: U "u003c"))
             (backslash :: U "u003c"));
    [|apply begins_with_lit | apply includes_char; exact H].
  rewrite (replace_all_without_literal (lit_units (backslash :: U "u003e"))
             (backslash :: U "u003e"));
    [|apply begins_with_lit | apply includes_char; exact H].
  rewrite (replace_all_without_literal (lit_units (backslash :: U "u0026"))
             (backslash :: U "u0026"));
    [|apply begins_with_lit | apply includes_char; exact H].
  rewrite (replace_all_without_literal (lit_units [backslash; dq])
             [backslash; dq]);
    [|apply begins_with_lit | apply includes_char; exact H].
  rewrite (replace_all_without_literal (lit_units [backslash; backslash])
             [backslash; backslash]);
    [|apply begins_with_lit | apply includes_char; exact H].
  reflexivity.
Qed.

Lemma push_pattern_begins :
  begins_with push_pattern (U "self.__next_f.push(").
Proof. apply (begins_with_seq (U "self.__next_f.push(")). Qed.

Lemma match_all_without_literal : forall r p s,
  begins_with r p -> includes s p = false -> match_all r s = [].
Proof.
  intros r p s Hr H. unfold match_all. cbn [search_all].
  rewrite (search_without_literal r p Hr s [] H). reflexivity.
Qed.

(** X14: on a page that does not hold the text of a push call,
    [parseNewsDetailFromHtml] returns [null]. *)
Theorem parseNewsDetailFromHtml_without_push_call :
  forall now html newsId,
    includes html (U "self.__next_f.push(") = false ->
    parseNewsDetailFromHtml now html newsId = None.
Proof.
  intros now html newsId H. unfold parseNewsDetailFromHtml.
  rewrite (match_all_without_literal _ _ _ push_pattern_begins H).
  reflexivity.
Qed.

(** ** Date ranges *)

(** The largest time value of a [Date]. *)
Definition max_time : Z := 8640000000000000.

(** A host whose zone keeps one offset from UTC: no daylight saving and no
    other change of the clock, as in Japan. *)
Definition fixed_offset (tza : Z) : Prop := forall t b, LocalTZA t b = tza.

(** The start of the local day of the instant [t]. *)
Definition start_of_day (t : Z) : Z := t - TimeWithinDay (LocalTime t).

Lemma LocalTime_fixed : forall tza t,
  fixed_offset tza -> LocalTime t = t + tza.
Proof. intros tza t H. unfold LocalTime. rewrite (H t true). reflexivity. Qed.

Lemma UTC_fixed : forall tza t, fixed_offset tza -> UTC t = t - tza.
Proof. intros tza t H. unfold UTC. rewrite (H t false). reflexivity. Qed.

Lemma TimeClip_in_range : forall t,
  Z.abs t <= max_time -> TimeClip t = Some t.
Proof.
  intros t H. unfold TimeClip. unfold max_time in H.
  destruct (Z.leb_spec (Z.abs t) 8640000000000000); [reflexivity | lia].
Qed.

Lemma start_of_day_bounds : forall t,
  t - msPerDay < start_of_day t <= t.
Proof.
  intro t. unfold start_of_day, TimeWithinDay.
  pose proof (Z.mod_pos_bound (LocalTime t) msPerDay ltac:(reflexivity)).
  lia.
Qed.

Lemma start_of_day_local : forall tza t,
  fixed_offset tza ->
  LocalTime (start_of_day t) = Day (LocalTime t) * msPerDay.
Proof.
  intros tza t Hf. unfold start_of_day, TimeWithinDay, Day.
  rewrite !(LocalTime_fixed tza) by exact Hf.
  pose proof (Z.div_mod (t + tza) msPerDay ltac:(discriminate)). lia.
Qed.

Lemma setHours_value : forall tza t hh mm ss ms,
  fixed_offset tza ->
  setHours (Some t) hh mm ss ms
  = TimeClip (start_of_day t + MakeTime hh mm ss ms).
Proof.
  intros tza t hh mm ss ms Hf. unfold setHours. f_equal.
  pose proof (start_of_day_local tza t Hf) as H.
  rewrite (UTC_fixed tza) by exact Hf.
  rewrite (LocalTime_fixed tza (start_of_day t)) in H by exact Hf.
  unfold MakeDate. lia.
Qed.

Lemma start_of_day_shift : forall tza t k,
  fixed_offset tza ->
  start_of_day (start_of_day t + k * msPerDay)
  = start_of_day t + k * msPerDay.
Proof.
  intros tza t k Hf. unfold start_of_day at 1. unfold TimeWithinDay.
  replace (LocalTime (start_of_day t + k * msPerDay))
    with ((Day (LocalTime t) + k) * msPerDay).
  - rewrite Z.mod_mul by discriminate. lia.
  - pose proof (start_of_day_local tza t Hf) as H.
    rewrite (LocalTime_fixed tza (start_of_day t)) in H by exact Hf.
    rewrite (LocalTime_fixed tza (start_of_day t + k * msPerDay))
      by exact Hf.
    lia.
Qed.

Lemma start_of_day_add : forall tza t k,
  fixed_offset tza ->
  start_of_day (t + k * msPerDay) = start_of_day t + k * msPerDay.
Proof.
  intros tza t k Hf. unfold start_of_day, TimeWithinDay.
  rewrite !(LocalTime_fixed tza) by exact Hf.
  replace (t + k * msPerDay + tza) with (t + tza + k * msPerDay) by lia.
  rewrite Z.mod_add by discriminate. lia.
Qed.

Lemma month_of_day_range : forall dwy leap, 0 <= month_of_day dwy leap <= 11.
Proof.
  intros dwy leap. unfold month_of_day.
  repeat match goal with
         | |- context [if ?c then _ else _] => destruct c; [lia|]
         end.
  lia.
Qed.

(** The day number of a time is that of its year, month and day of the
    month; days added to the day of the month carry over. *)
Lemma MakeDay_of_fields : forall t k,
  MakeDay (YearFromTime t) (MonthFromTime t) (DateFromTime t + k)
  = Day t + k.
Proof.
  intros t k. unfold MakeDay, DateFromTime.
  pose proof (month_of_day_range (DayWithinYear t) (InLeapYear t)) as Hm.
  fold (MonthFromTime t) in Hm.
  rewrite Z.div_small, Z.mod_small by lia. rewrite Z.add_0_r.
  unfold DayWithinYear, InLeapYear. lia.
Qed.

Lemma getDate_setDate_shift : forall tza t k,
  fixed_offset tza ->
  Z.abs (t + k * msPerDay) <= max_time ->
  setDate (Some t) (option_map (fun n => n + k) (getDate (Some t)))
  = Some (t + k * msPerDay).
Proof.
  intros tza t k Hf H. cbn [getDate option_map setDate].
  rewrite MakeDay_of_fields.
  replace (UTC (MakeDate (Day (LocalTime t) + k)
                         (TimeWithinDay (LocalTime t))))
    with (t + k * msPerDay).
  - apply TimeClip_in_range. exact H.
  - rewrite (UTC_fixed tza) by exact Hf.
    rewrite !(LocalTime_fixed tza) by exact Hf.
    unfold MakeDate, Day, TimeWithinDay.
    pose proof (Z.div_mod (t + tza) msPerDay ltac:(discriminate)). lia.
Qed.

(** X15: [createSingleDayRange] throws exactly when the date is invalid.
    On a host whose zone keeps one offset from UTC, for a valid date (at
    least one day from the ends of the range of time values) it returns
    the local day of the date: [from] is the start of that day, at or
    before the date, and [to] is its last millisecond, 24 hours less one
    millisecond later. *)
Theorem createSingleDayRange_local_day : forall tza date,
  fixed_offset tza ->
  (to_Date date = None -> createSingleDayRange date = inl InvalidDateFormat)
  /\ (forall range, createSingleDayRange date = inr range ->
                    to_Date date <> None)
  /\ forall t,
       to_Date date = Some t ->
       Z.abs t <= max_time - msPerDay ->
       createSingleDayRange date
       = inr {| range_from := Some (start_of_day t);
                range_to := Some (start_of_day t + msPerDay - 1) |}
       /\ start_of_day t <= t <= start_of_day t + msPerDay - 1
       /\ TimeWithinDay (LocalTime (start_of_day t)) = 0.
Proof.
  intros tza date Hf. unfold createSingleDayRange. split; [|split].
  - intro H. rewrite H. reflexivity.
  - intros range H. destruct (to_Date date); [discriminate|discriminate H].
  - intros t H Hb. rewrite H.
    pose proof (start_of_day_bounds t) as B.
    unfold max_time, msPerDay in *.
    cbn [Date_copy]. rewrite TimeClip_in_range by (unfold max_time; lia).
    rewrite !(setHours_value tza) by exact Hf.
    rewrite !TimeClip_in_range
      by (unfold max_time, MakeTime; lia).
    split; [|split].
    + f_equal. f_equal; f_equal; unfold MakeTime; lia.
    + lia.
    + rewrite (start_of_day_local tza) by exact Hf. unfold TimeWithinDay.
      apply Z.mod_mul. discriminate.
Qed.

(** The [Date] that [createWeekDateRange] starts from. *)
Definition week_start (startDate : option date_arg) (now : Z) : JSDate :=
  match startDate with
  | None | Some (DateString []) => Some now
  | Some (DateString s) => Date_parse s
  | Some (DateObject d) => d
  end.

(** X16: [createWeekDateRange] does not validate: for an invalid start
    date both ends are invalid dates.  On a host whose zone keeps one
    offset from UTC it returns seven local days: [from] is the start of the
    day of the start date (of the clock's reading when no date is given),
    and [to] is the last millisecond of the sixth day after it. *)
Theorem createWeekDateRange_seven_days : forall tza startDate now,
  fixed_offset tza ->
  (week_start startDate now = None ->
   createWeekDateRange startDate now
   = {| range_from := None; range_to := None |})
  /\ forall t,
       week_start startDate now = Some t ->
       Z.abs t <= max_time - 7 * msPerDay ->
       createWeekDateRange startDate now
       = {| range_from := Some (start_of_day t);
            range_to := Some (start_of_day t + 7 * msPerDay - 1) |}
       /\ start_of_day t <= t.
Proof.
  intros tza startDate now Hf.
  assert (E : createWeekDateRange startDate now
              = let start := setHours (week_start startDate now) 0 0 0 0 in
                let end_ := Date_copy start in
                let end_ := setDate end_ (option_map (fun n => n + 6)
                                                     (getDate end_)) in
                {| range_from := start;
                   range_to := setHours end_ 23 59 59 999 |})
    by reflexivity.
  rewrite E. clear E. split.
  - intro H. rewrite H. reflexivity.
  - intros t H Hb. rewrite H. cbv zeta.
    pose proof (start_of_day_bounds t) as B.
    unfold max_time, msPerDay in Hb, B.
    rewrite (setHours_value tza) by exact Hf.
    replace (start_of_day t + MakeTime 0 0 0 0) with (start_of_day t)
      by (unfold MakeTime; lia).
    rewrite TimeClip_in_range by (unfold max_time; lia).
    cbn [Date_copy]. rewrite TimeClip_in_range by (unfold max_time; lia).
    rewrite (getDate_setDate_shift tza)
      by (exact Hf || (unfold max_time, msPerDay; lia)).
    rewrite (setHours_value tza) by exact Hf.
    rewrite (start_of_day_shift tza) by exact Hf.
    rewrite TimeClip_in_range
      by (unfold max_time, MakeTime, msPerDay; lia).
    split; [|lia].
    f_equal. f_equal. unfold MakeTime, msPerDay. lia.
Qed.

(** X17: on a host whose zone keeps one offset from UTC,
    [getDefaultDateRange] returns eight local days: [from] is the start of
    today and [to] the last millisecond of the seventh day after today;
    the clock's reading lies between them. *)
Theorem getDefaultDateRange_eight_days : forall tza now,
  fixed_offset tza ->
  Z.abs now <= max_time - 8 * msPerDay ->
  getDefaultDateRange now
  = {| range_from := Some (start_of_day now);
       range_to := Some (start_of_day now + 8 * msPerDay - 1) |}
  /\ start_of_day now <= now <= start_of_day now + 8 * msPerDay - 1.
Proof.
  intros tza now Hf Hb. unfold getDefaultDateRange.
  pose proof (start_of_day_bounds now) as B.
  unfold max_time, msPerDay in Hb, B.
  cbn [Date_copy]. rewrite TimeClip_in_range by (unfold max_time; lia).
  rewrite (getDate_setDate_shift tza)
    by (exact Hf || (unfold max_time, msPerDay; lia)).
  rewrite !(setHours_value tza) by exact Hf.
  rewrite (start_of_day_add tza) by exact Hf.
  rewrite !TimeClip_in_range
    by (unfold max_time, MakeTime, msPerDay; lia).
  split; [|unfold msPerDay; lia].
  f_equal; f_equal; unfold MakeTime, msPerDay; lia.
Qed.

Lemma MakeDay_month_end : forall y m,
  0 <= m <= 11 ->
  MakeDay y (m + 1) 0 = MakeDay y m 1 + DaysInMonth y (m + 1) - 1.
Proof.
  intros y m Hm. unfold DaysInMonth.
  replace (m + 1 - 1) with m by lia.
  destruct (Z.eq_dec m 11) as [->|Hne].
  - pose proof (MakeDay_in_range y 12 1 ltac:(lia)) as E.
    change (12 - 1) with 11 in E. rewrite E. clear E.
    unfold MakeDay.
    change ((11 + 1) / 12) with 1. change ((11 + 1) mod 12) with 0.
    change (11 + 1) with 12.
    rewrite DayFromYear_step.
    leap_cases y; leap_cases (y + 1); eval_months; lia.
  - replace m with (m + 1 - 1) at 2 by lia.
    replace (m + 1) with (m + 2 - 1) at 1 by lia.
    rewrite !MakeDay_in_range by lia.
    replace (m + 2 - 1) with (m + 1) by lia.
    replace (m + 1 - 1) with m by lia. lia.
Qed.

Lemma DayWithinYear_range : forall t,
  0 <= DayWithinYear t < DaysInYear (YearFromTime t).
Proof.
  intro t. unfold DayWithinYear, YearFromTime.
  pose proof (YearFromDay_spec (Day t)) as H.
  rewrite DayFromYear_step in H. lia.
Qed.

(** The day of the month lies within the month. *)
Lemma DateFromTime_range : forall t,
  1 <= DateFromTime t <= DaysInMonth (YearFromTime t) (MonthFromTime t + 1)
  /\ DaysInMonth (YearFromTime t) (MonthFromTime t + 1) <= 31.
Proof.
  intro t. pose proof (DayWithinYear_range t) as Hw.
  unfold DateFromTime, DaysInMonth, MonthFromTime, InLeapYear.
  set (dwy := DayWithinYear t) in *.
  leap_cases (YearFromTime t);
    unfold month_of_day;
    repeat match goal with
           | |- context [?a <? ?b] => destruct (Z.ltb_spec a b)
           end;
    eval_months; lia.
Qed.




(** X19: on a host whose zone keeps one offset from UTC, without
    arguments [createMonthDateRange] returns the local month of the
    clock's reading: [from] is the start of the first day of that month,
    [to] is the last millisecond of its last day, and the clock's reading
    lies between them.  (The year of the reading is not one of the years 0
    to 99, which the [Date] constructor reads as 1900 to 1999.) *)
Theorem createMonthDateRange_current_month : forall tza now,
  fixed_offset tza ->
  Z.abs now <= max_time - 32 * msPerDay ->
  (getFullYear now < 0 \/ 99 < getFullYear now) ->
  let first :=
    start_of_day now - (DateFromTime (LocalTime now) - 1) * msPerDay in
  let days := DaysInMonth (getFullYear now) (getMonth now + 1) in
  createMonthDateRange None None now
  = {| range_from := Some first;
       range_to := Some (first + days * msPerDay - 1) |}
  /\ first <= now <= first + days * msPerDay - 1.
Proof.
  intros tza now Hf Hb Hy first days.
  unfold createMonthDateRange, Date_of_fields.
  assert (E : (0 <=? getFullYear now) && (getFullYear now <=? 99) = false).
  { destruct (Z.leb_spec 0 (getFullYear now));
      destruct (Z.leb_spec (getFullYear now) 99); try reflexivity; lia. }
  rewrite E.
  pose proof (month_of_day_range (DayWithinYear (LocalTime now))
                                 (InLeapYear (LocalTime now))) as Hm.
  fold (MonthFromTime (LocalTime now)) in Hm. fold (getMonth now) in Hm.
  rewrite (MakeDay_month_end (getFullYear now) (getMonth now) Hm).
  fold days.
  pose proof (MakeDay_of_fields (LocalTime now)
                                (1 - DateFromTime (LocalTime now))) as F.
  replace (DateFromTime (LocalTime now)
           + (1 - DateFromTime (LocalTime now))) with 1 in F by lia.
  unfold getFullYear, getMonth. rewrite F.
  pose proof (DateFromTime_range (LocalTime now)) as [Hd Hdim].
  fold (getFullYear now) in Hd, Hdim. fold (getMonth now) in Hd, Hdim.
  fold days in Hd, Hdim.
  pose proof (start_of_day_bounds now) as B.
  pose proof (start_of_day_local tza now Hf) as L.
  rewrite (LocalTime_fixed tza (start_of_day now)) in L by exact Hf.
  assert (E1 : UTC (MakeDate (Day (LocalTime now)
                              + (1 - DateFromTime (LocalTime now)))
                             (MakeTime 0 0 0 0)) = first).
  { subst first. rewrite (UTC_fixed tza) by exact Hf.
    unfold MakeDate, MakeTime in *. lia. }
  assert (E2 : UTC (MakeDate (Day (LocalTime now)
                              + (1 - DateFromTime (LocalTime now))
                              + days - 1)
                             (MakeTime 23 59 59 999))
               = first + days * msPerDay - 1).
  { subst first. rewrite (UTC_fixed tza) by exact Hf.
    unfold MakeDate, MakeTime, msPerDay in *. lia. }
  rewrite E1, E2.
  assert (Hf' : now - 31 * msPerDay < first <= now)
    by (subst first; unfold msPerDay in *; lia).
  unfold max_time, msPerDay in *.
  rewrite !TimeClip_in_range by (unfold max_time; lia).
  split; [reflexivity|]. subst first. lia.
Qed.

(** ** Calendar events *)

(** An event without an end the conversion reads: in the flat format no
    [endDateTime]; in the nested format no [end.dateTime] and no
    [end.date]; or an event without any start, whose end is not looked
    at. *)
Definition no_end_given (event : value) : bool :=
  if truthy_value (get event (U "startDateTime")) then
    negb (truthy_value (get event (U "endDateTime")))
  else if truthy_value (get event (U "start")) then
    negb (truthy_value (get event (U "end"))
          && truthy_value (get (get event (U "end")) (U "dateTime")))
    && negb (truthy_value (get event (U "end"))
             && truthy_value (get (get event (U "end")) (U "date")))
  else true.

Lemma event_times_default_hour : forall now event startTime endTime,
  event_times now event = Some (startTime, endTime) ->
  no_end_given event = true ->
  endTime = Date_plus startTime (60 * 60 * 1000).
Proof.
  intros now event s e. unfold event_times, no_end_given.
  destruct (truthy_value (get event (U "startDateTime"))).
  - destruct (Date_new (get event (U "startDateTime"))); [|discriminate].
    destruct (truthy_value (get event (U "endDateTime")));
      [intros _ H; discriminate H|].
    intros H _. injection H as <- <-. reflexivity.
  - destruct (truthy_value (get event (U "start"))).
    + match goal with
      | |- context [match ?x with Some _ => _ | None => _ end = _] =>
          destruct x; [|discriminate]
      end.
      destruct (truthy_value (get event (U "end"))
                && truthy_value (get (get event (U "end")) (U "dateTime")));
        [intros _ H; discriminate H|].
      destruct (truthy_value (get event (U "end"))
                && truthy_value (get (get event (U "end")) (U "date")));
        [intros _ H; discriminate H|].
      intros H _. injection H as <- <-. reflexivity.
    + intros H _. injection H as <- <-. reflexivity.
Qed.

(** X20: an event without an end lasts one hour: whenever
    [convertGoogleCalendarEventsToScheduleItems] makes an item from such
    an event, the end of the item is its start plus 3600000 milliseconds
    (and an invalid date when the start is one). *)
Theorem event_without_end_lasts_an_hour :
  forall now draws event item draws',
    convert_event now draws event = Some (item, draws') ->
    no_end_given event = true ->
    endTime item = Date_plus (startTime item) (60 * 60 * 1000)
    /\ (startTime item = None -> endTime item = None)
    /\ forall t, startTime item = Some t ->
                 Z.abs (t + 3600000) <= max_time ->
                 endTime item = Some (t + 3600000).
Proof.
  intros now draws event item draws' H Hn.
  assert (E : endTime item = Date_plus (startTime item) (60 * 60 * 1000)).
  { unfold convert_event in H.
    destruct (is_nullish event); [discriminate|].
    destruct (event_times now event) as [[s e]|] eqn:Et; [|discriminate].
    destruct (summary_lower event); [|discriminate].
    destruct (event_participants event); [|discriminate].
    destruct (if truthy_value _ then _ else _) as [id d].
    injection H as <- _. cbn [endTime startTime].
    eapply event_times_default_hour; eassumption. }
  split; [exact E|]. split.
  - intro Hs. rewrite E, Hs. reflexivity.
  - intros t Hs Hb. rewrite E, Hs. cbn [Date_plus].
    change (60 * 60 * 1000) with 3600000.
    apply TimeClip_in_range. exact Hb.
Qed.

Lemma event_participants_truthy : forall event ps,
  event_participants event = Some ps ->
  Forall (fun p => truthy_value p = true) ps.
Proof.
  intros event ps. unfold event_participants.
  destruct (get event (U "attendees")); try (intro H; injection H as <-;
                                            constructor).
  destruct (sequence _) as [emails|]; [|discriminate].
  intro H. injection H as <-. apply Forall_forall.
  intros x Hx. apply filter_In in Hx. apply Hx.
Qed.

Lemma convert_events_positions : forall now events draws items,
  convert_events now draws events = Some items ->
  length items = length events
  /\ forall i event,
       nth_error events i = Some event ->
       exists item d d',
         nth_error items i = Some item
         /\ convert_event now d event = Some (item, d').
Proof.
  intros now events.
  induction events as [|event rest IH]; intros draws items H.
  - cbn in H. injection H as <-. split; [reflexivity|].
    intros [|i] x Hx; discriminate Hx.
  - cbn [convert_events] in H.
    destruct (convert_event now draws event) as [[item d']|] eqn:Hc;
      [|discriminate].
    destruct (convert_events now d' rest) as [items'|] eqn:Hr;
      [|discriminate].
    injection H as <-. destruct (IH _ _ Hr) as [Hlen Hnth].
    split; [cbn [length]; congruence|].
    intros [|i] x Hx.
    + cbn in Hx. injection Hx as <-. exists item, draws, d'.
      split; [reflexivity | exact Hc].
    + cbn [nth_error] in Hx |- *. apply Hnth. exact Hx.
Qed.

(** X21: when [convertGoogleCalendarEventsToScheduleItems] returns, it
    returns one item for every event, in the order of the events, and the
    participants of every item are truthy values: an attendee without an
    e-mail address is left out. *)
Theorem convertGoogleCalendarEvents_items : forall now events items,
  convertGoogleCalendarEventsToScheduleItems now events = Some items ->
  length items = length events
  /\ (forall i event,
        nth_error events i = Some event ->
        exists item d d',
          nth_error items i = Some item
          /\ convert_event now d event = Some (item, d'))
  /\ Forall (fun item =>
               Forall (fun p => truthy_value p = true) (participants item))
            items.
Proof.
  intros now events items H.
  unfold convertGoogleCalendarEventsToScheduleItems in H.
  destruct (convert_events_positions now events 0%nat items H) as [Hl Hn].
  split; [exact Hl|]. split; [exact Hn|].
  apply Forall_forall. intros item Hin.
  apply In_nth_error in Hin. destruct Hin as [i Hi].
  assert (Hlt : (i < length events)%nat).
  { rewrite <- Hl. apply nth_error_Some. congruence. }
  destruct (nth_error events i) as [event|] eqn:He;
    [|apply nth_error_None in He; lia].
  destruct (Hn i event He) as (item' & d & d' & Hi' & Hc).
  rewrite Hi in Hi'. injection Hi' as <-.
  unfold convert_event in Hc.
  destruct (is_nullish event); [discriminate|].
  destruct (event_times now event) as [[s e]|]; [|discriminate].
  destruct (summary_lower event); [|discriminate].
  destruct (event_participants event) as [ps|] eqn:Hp; [|discriminate].
  destruct (if truthy_value _ then _ else _) as [id dd].
  injection Hc as <- _. cbn [participants].
  eapply event_participants_truthy. exact Hp.
Qed.

(** ** The course summaries *)

Definition total_count (groups : count_table) : nat :=
  fold_right (fun kn acc => (snd kn + acc)%nat) 0%nat groups.

Definition count_of (k : jsstring) (groups : count_table) : nat :=
  match lookup_count k groups with
  | Some n => n
  | None => 0%nat
  end.

Lemma total_count_app : forall a b,
  total_count (a ++ b) = (total_count a + total_count b)%nat.
Proof.
  induction a as [|[k n] a IH]; intro b; [reflexivity|].
  cbn [app total_count fold_right snd] in *. fold (total_count (a ++ b)).
  fold (total_count a). rewrite IH. lia.
Qed.

Lemma increase_count_total : forall k groups n,
  lookup_count k groups = Some n ->
  total_count (increase_count k groups) = S (total_count groups)
  /\ forall k', count_of k' (increase_count k groups)
                = if str_eqb k' k then S (count_of k' groups)
                  else count_of k' groups.
Proof.
  intros k groups. induction groups as [|[k1 n1] rest IH]; intros n H;
    [discriminate|].
  cbn [lookup_count] in H. cbn [increase_count].
  destruct (str_eqb k k1) eqn:E.
  - apply str_eqb_eq in E. subst k1. split; [reflexivity|].
    intro k'. unfold count_of. cbn [lookup_count].
    destruct (str_eqb k' k); reflexivity.
  - destruct (IH n H) as [Ht Hc]. split.
    + cbn [total_count fold_right snd] in *.
      fold (total_count (increase_count k rest)).
      fold (total_count rest). rewrite Ht. lia.
    + intro k'. specialize (Hc k'). unfold count_of in *.
      cbn [lookup_count].
      destruct (str_eqb k' k1) eqn:E1; [|exact Hc].
      destruct (str_eqb k' k) eqn:E2; [|reflexivity].
      apply str_eqb_eq in E1, E2. subst. rewrite str_eqb_refl in E.
      discriminate.
Qed.

Lemma insert_count_index_total : forall i k groups,
  lookup_count k groups = None ->
  total_count (insert_count_index i k groups) = S (total_count groups)
  /\ forall k', count_of k' (insert_count_index i k groups)
                = if str_eqb k' k then 1%nat else count_of k' groups.
Proof.
  intros i k groups. induction groups as [|[k1 n1] rest IH]; intro H.
  - split; [reflexivity|]. intro k'. unfold count_of. cbn [insert_count_index lookup_count].
    destruct (str_eqb k' k); reflexivity.
  - cbn [lookup_count] in H. destruct (str_eqb k k1) eqn:E; [discriminate|].
    assert (Hnew : total_count ((k, 1%nat) :: (k1, n1) :: rest)
                   = S (total_count ((k1, n1) :: rest))
                   /\ forall k', count_of k' ((k, 1%nat) :: (k1, n1) :: rest)
                                 = if str_eqb k' k then 1%nat
                                   else count_of k' ((k1, n1) :: rest)).
    { split; [reflexivity|]. intro k'. unfold count_of.
      cbn [lookup_count]. destruct (str_eqb k' k); reflexivity. }
    cbn [insert_count_index].
    destruct (array_index k1) as [j|]; [|exact Hnew].
    destruct (j <? i); [|exact Hnew].
    destruct (IH H) as [Ht Hc]. split.
    + cbn [total_count fold_right snd] in *.
      fold (total_count (insert_count_index i k rest)).
      fold (total_count rest). rewrite Ht. lia.
    + intro k'. specialize (Hc k'). unfold count_of in *.
      cbn [lookup_count].
      destruct (str_eqb k' k1) eqn:E1; [|exact Hc].
      destruct (str_eqb k' k) eqn:E2; [|reflexivity].
      apply str_eqb_eq in E1, E2. subst. rewrite str_eqb_refl in E.
      discriminate.
Qed.

Lemma lookup_count_app_new : forall k' k groups,
  lookup_count k groups = None ->
  count_of k' (groups ++ [(k, 1%nat)])
  = if str_eqb k' k then 1%nat else count_of k' groups.
Proof.
  intros k' k groups. unfold count_of.
  induction groups as [|[k1 n1] rest IH]; intro H.
  - cbn [app lookup_count]. destruct (str_eqb k' k); reflexivity.
  - cbn [lookup_count] in H. destruct (str_eqb k k1) eqn:E; [discriminate|].
    cbn [app lookup_count].
    destruct (str_eqb k' k1) eqn:E1; [|exact (IH H)].
    destruct (str_eqb k' k) eqn:E2; [|reflexivity].
    apply str_eqb_eq in E1, E2. subst. rewrite str_eqb_refl in E.
    discriminate.
Qed.

Lemma count_one_total : forall groups key,
  total_count (count_one groups key) = S (total_count groups)
  /\ forall k', count_of k' (count_one groups key)
                = if str_eqb k' key then S (count_of k' groups)
                  else count_of k' groups.
Proof.
  intros groups key. unfold count_one.
  destruct (lookup_count key groups) as [n|] eqn:E.
  - apply (increase_count_total key groups n E).
  - assert (Hz : forall k', str_eqb k' key = true -> count_of k' groups = 0%nat).
    { intros k' Hk. apply str_eqb_eq in Hk. subst k'.
      unfold count_of. rewrite E. reflexivity. }
    destruct (array_index key) as [i|].
    + destruct (insert_count_index_total i key groups E) as [Ht Hc].
      split; [exact Ht|]. intro k'. rewrite Hc.
      destruct (str_eqb k' key) eqn:Ek; [|reflexivity].
      rewrite (Hz k' Ek). reflexivity.
    + split.
      * rewrite total_count_app. cbn. lia.
      * intro k'. rewrite (lookup_count_app_new k' key groups E).
        destruct (str_eqb k' key) eqn:Ek; [|reflexivity].
        rewrite (Hz k' Ek). reflexivity.
Qed.

(** The number of courses whose key is [k]. *)
Fixpoint courses_with_key (field k : jsstring) (courses : list value) : nat :=
  match courses with
  | [] => 0%nat
  | course :: rest =>
      match group_key field course with
      | inr key => if str_eqb k key then S (courses_with_key field k rest)
                   else courses_with_key field k rest
      | inl _ => courses_with_key field k rest
      end
  end.

Lemma group_courses_counts : forall field courses groups table,
  group_courses field groups courses = inr table ->
  total_count table = (total_count groups + length courses)%nat
  /\ forall k, count_of k table
               = (count_of k groups + courses_with_key field k courses)%nat.
Proof.
  intros field courses.
  induction courses as [|course rest IH]; intros groups table H.
  - cbn in H. injection H as <-. cbn [length courses_with_key].
    split; [lia | intro k; lia].
  - cbn [group_courses] in H. cbn [courses_with_key length].
    destruct (group_key field course) as [e|key]; [discriminate|].
    destruct (IH _ _ H) as [Ht Hc].
    destruct (count_one_total groups key) as [Ht1 Hc1].
    split; [lia|]. intro k. rewrite Hc, Hc1.
    destruct (str_eqb k key); lia.
Qed.

(** X22: when [groupCoursesByGrade] and [groupCoursesByCurriculum] return
    a table of counts, the counts add up to the number of courses, and the
    count under every key is the number of courses with that key (the
    grade or the curriculum name, Unknown when the course has none). *)
Theorem groupCourses_counts_add_up : forall courses table,
  (groupCoursesByGrade courses = inr table ->
   total_count table = length courses
   /\ forall k, count_of k table = courses_with_key (U "grade") k courses)
  /\ (groupCoursesByCurriculum courses = inr table ->
      total_count table = length courses
      /\ forall k, count_of k table
                   = courses_with_key (U "curriculumName") k courses).
Proof.
  intros courses table. split; intro H;
    apply group_courses_counts in H; destruct H as [Ht Hc];
    (split; [exact Ht | intro k; rewrite Hc; reflexivity]).
Qed.
End Environment.

(* ===================================================================== *)
(** * The theorems at work *)
(* ===================================================================== *)

(** An environment of the bridge: Japan Standard Time (nine hours ahead of
    UTC at every instant), a [Date.parse] that
    reads the local date-time format only, lower-casing of the Latin
    capitals, a random source that counts, the portal's address and a page
    parser that finds no element. *)
Definition jst (t : Z) (isUTC : bool) : Z := 9 * 60 * 60 * 1000.
Definition iso_only : jsstring -> JSDate := fun _ => None.
Definition latin_lower (s : jsstring) : jsstring :=
  map (fun c => if ((65 <=? c) && (c <=? 90))%N then (c + 32)%N else c) s.
Definition counting (n : nat) : jsstring := decimal (Z.of_nat n).
Definition portal_url : jsstring := U "https://nlobby.nnn.ed.jp".
Definition no_elements : jsstring -> list node := fun _ => [].

(** ** Reference markers *)

(** C1, the claim as stated fails: on the two documented fragments the
    payload 9:Hello is no reference marker, the side table stays empty and
    the record comes back with the empty string for its content. *)
Lemma documented_fragments_leave_content_empty :
  exists d,
    parseNewsDetailFromHtml jst iso_only portal_url 0 documented_page (U "7")
    = Some d
    /\ detail_content d = VStr []
    /\ detail_content d <> VStr (U "Hello").
Proof.
  eexists. split; [vm_compute; reflexivity|].
  split; [reflexivity | discriminate].
Qed.

(** ** Two runs on one page *)

(** A page whose only record carries no date. *)
Definition undated_page : jsstring :=
  push_call
    (quoted "[1,'5:[[\'$\',\'$L1\',null,{\'news\':[{\'id\':\'7\',\'title\':\'A\'}]}]]']").

Definition at_time (t : Z) : clock := fun _ => t.

(** C3, the claim as stated fails: a record without a date is stamped with
    the time of the run, so two runs on the same page at different times
    return different lists. *)
Lemma extraction_reads_the_clock :
  map publishedAt
      (parseNewsFromHtml jst iso_only portal_url no_elements (at_time 0)
                         undated_page) = [Some 0]
  /\ map publishedAt
         (parseNewsFromHtml jst iso_only portal_url no_elements (at_time 1000)
                            undated_page) = [Some 1000]
  /\ parseNewsFromHtml jst iso_only portal_url no_elements (at_time 0)
                       undated_page
     <> parseNewsFromHtml jst iso_only portal_url no_elements (at_time 1000)
                          undated_page.
Proof.
  assert (H0 : map publishedAt
                 (parseNewsFromHtml jst iso_only portal_url no_elements
                                    (at_time 0) undated_page) = [Some 0])
    by (vm_compute; reflexivity).
  assert (H1 : map publishedAt
                 (parseNewsFromHtml jst iso_only portal_url no_elements
                                    (at_time 1000) undated_page)
               = [Some 1000])
    by (vm_compute; reflexivity).
  split; [exact H0|]. split; [exact H1|].
  intro E. rewrite E in H0. rewrite H0 in H1. discriminate.
Qed.

(** ** All-day events *)

(** The clock of Sao Paulo around 4 November 2018: three hours behind UTC
    until daylight saving started at local midnight (03:00 UTC), when the
    clock went from 00:00 to 01:00, and two hours behind from then on.
    The local times of the skipped hour are read with the offset before
    the change. *)
Definition sao_paulo (t : Z) (isUTC : bool) : Z :=
  if isUTC then
    if t <? 1541300400000 then - (3 * 3600000) else - (2 * 3600000)
  else
    if t <? 1541293200000 then - (3 * 3600000) else - (2 * 3600000).

(** An all-day event on the day of the change. *)
Definition change_day_event : value :=
  VObj [ (U "start", VObj [(U "date", VStr (U "2018-11-04"))]);
         (U "end", VObj [(U "date", VStr (U "2018-11-05"))]) ].

(** C4, the claim as stated fails: on a host in Sao Paulo the all-day
    event of 4 November 2018 starts at the instant 03:00 UTC, at which the
    local clock shows 01:00:00 and not 00:00:00; no instant of that clock
    shows 00:00:00 of the start date. *)
Lemma skipped_midnight_starts_at_one :
  all_day_shape change_day_event (2018, 11, 4) (2018, 11, 5)
  /\ (exists item,
        convertGoogleCalendarEventsToScheduleItems
          sao_paulo iso_only latin_lower counting 0 [change_day_event]
        = Some [item]
        /\ startTime item = Some 1541300400000
        /\ LocalTime sao_paulo 1541300400000 = local_time 2018 11 4 1 0 0
        /\ LocalTime sao_paulo 1541300400000 <> local_time 2018 11 4 0 0 0)
  /\ forall t, LocalTime sao_paulo t <> local_time 2018 11 4 0 0 0.
Proof.
  split; [|split].
  - unfold all_day_shape. repeat split; try reflexivity;
      eexists; split; reflexivity.
  - vm_compute. eexists. split; [reflexivity|].
    split; [reflexivity|]. split; [reflexivity | discriminate].
  - intro t. unfold LocalTime, sao_paulo.
    change (local_time 2018 11 4 0 0 0) with 1541289600000.
    destruct (Z.ltb_spec t 1541300400000); lia.
Qed.

Lemma jst_in_range : zone_in_range jst.
Proof. intros t b. unfold jst, msPerDay. lia. Qed.

(** The example event of the specification, in Japan Standard Time. *)
Lemma all_day_event_normalized_witness :
  exists item ts te,
    convertGoogleCalendarEventsToScheduleItems
      jst iso_only latin_lower counting 0 [all_day_example] = Some [item]
    /\ startTime item = Some ts /\ endTime item = Some te
    /\ LocalTime jst ts = local_time 2024 1 15 0 0 0
    /\ LocalTime jst te = local_time 2024 1 16 23 59 59.
Proof.
  assert (S : all_day_shape all_day_example (2024, 1, 15) (2024, 1, 17)).
  { unfold all_day_shape.
    repeat split; try reflexivity; eexists; split; reflexivity. }
  assert (B : day_before (2024, 1, 17) = (2024, 1, 16)) by reflexivity.
  assert (H1 : shown jst (local_time 2024 1 15 0 0 0)) by reflexivity.
  assert (H2 : shown jst (local_time 2024 1 17 23 59 59)) by reflexivity.
  assert (H3 : shown jst (local_time 2024 1 16 23 59 59)) by reflexivity.
  exact (proj2 (proj2
           (all_day_event_normalized jst iso_only latin_lower counting
              0 0%nat all_day_example 2024 1 15 2024 1 17 2024 1 16
              jst_in_range S B H1 H2 H3)) H1 H2 H3).
Defined.

(** ** The session store *)

Definition signed_in : ApiState :=
  {| http_cookie := Some (U "__Secure-next-auth.session-token=abc");
     nextAuth := mkCookies (Some (U "abc")) None None;
     trpc_allCookies := U "__Secure-next-auth.session-token=abc" |}.

(** Three spaces leave a signed-in session as it is. *)
Lemma setCookies_blank_noop_witness :
  trim (U "   ") = []
  /\ setCookies (U "   ") signed_in = (signed_in, false).
Proof.
  assert (B : U "   " = [] \/ trim (U "   ") = [])
    by (right; reflexivity).
  split; [reflexivity|].
  exact (proj1 (setCookies_blank_noop (U "   ") signed_in B)).
Defined.

(** A session token cut in the middle of a surrogate pair. *)
Definition cut_token : NextAuthCookies :=
  mkCookies (Some [55357%N]) None None.

(** C10, the claim as stated fails: a token that is a non-empty string
    with an unpaired surrogate makes [encodeURIComponent] throw, and
    [getCookieHeader] produces no header to parse. *)
Lemma lone_surrogate_has_no_header :
  sessionToken cut_token = Some [55357%N]
  /\ getCookieHeader cut_token = None.
Proof. split; reflexivity. Qed.

Definition sample_cookies : NextAuthCookies :=
  mkCookies (Some (U "a=b; c%d")) (Some (U "token|hash"))
            (Some (U "https://nlobby.nnn.ed.jp/")).

(** Tokens with the separators of the header and a percent sign. *)
Lemma cookie_header_roundtrip_witness :
  token_ok (sessionToken sample_cookies)
  /\ token_ok (csrfToken sample_cookies)
  /\ token_ok (callbackUrl sample_cookies)
  /\ exists header,
       getCookieHeader sample_cookies = Some header
       /\ parseCookies header = Some sample_cookies.
Proof.
  assert (H1 : token_ok (sessionToken sample_cookies))
    by (split; [discriminate | reflexivity]).
  assert (H2 : token_ok (csrfToken sample_cookies))
    by (split; [discriminate | reflexivity]).
  assert (H3 : token_ok (callbackUrl sample_cookies))
    by (split; [discriminate | reflexivity]).
  repeat (split; [assumption|]).
  exact (cookie_header_roundtrip sample_cookies H1 H2 H3).
Defined.

(** ** Identifiers and addresses *)








(* ===================================================================== *)
(** * The further theorems at work *)
(* ===================================================================== *)

(** ** The sweep over the endpoints *)

(** The portal that turns away [news.find] and answers [news.list]. *)
Lemma tryMultipleNewsEndpoints_nonempty_array_witness :
  tryMultipleNewsEndpoints portal_401_on_find 1 = Some one_record
  /\ exists first rest, one_record = VArr (first :: rest).
Proof.
  assert (H : tryMultipleNewsEndpoints portal_401_on_find 1 = Some one_record)
    by (vm_compute; reflexivity).
  split; [exact H|].
  exact (tryMultipleNewsEndpoints_nonempty_array portal_401_on_find 1
           one_record H).
Defined.

(** A portal that does not answer. *)
Definition portal_down (req : http_request) : http_outcome := NoResponse.

Lemma tryMultipleNewsEndpoints_all_fail_witness :
  always_fails portal_down
  /\ tryMultipleNewsEndpoints portal_down 1 = None.
Proof.
  assert (H : always_fails portal_down) by (intro req; exact I).
  split; [exact H|].
  exact (tryMultipleNewsEndpoints_all_fail portal_down 1 H).
Defined.

(** ** Cookie headers *)

(** A theme cookie between a language cookie and the session cookie. *)
Lemma parseCookies_ignores_other_cookies_witness :
  parseCookies (U "lang=ja; theme=dark; __Secure-next-auth.session-token=abc")
  = parseCookies (U "lang=ja; __Secure-next-auth.session-token=abc").
Proof.
  assert (H1 : no_char (ch ";") (U " theme=dark") = true) by reflexivity.
  assert (H2 : other_cookie (U " theme=dark") = true) by reflexivity.
  exact (proj1 (parseCookies_ignores_other_cookies
                  (U "lang=ja") (U " theme=dark")
                  (U " __Secure-next-auth.session-token=abc") H1 H2)).
Defined.

(** A session token in base 64 with its padding. *)
Lemma parseCookies_cuts_value_at_equals_witness :
  parseCookies (U "__Secure-next-auth.session-token=YWJj=")
  = Some (mkCookies (Some (U "YWJj")) None None).
Proof.
  assert (H0 : U "YWJj" <> []) by discriminate.
  assert (H1 : no_char (ch "=") (U "YWJj") = true) by reflexivity.
  assert (H2 : no_char (ch ";") (U "YWJj") = true) by reflexivity.
  assert (H3 : no_char (ch ";") [] = true) by reflexivity.
  exact (parseCookies_cuts_value_at_equals (U "YWJj") [] H0 H1 H2 H3).
Defined.

(** A blob with the CSRF token only, set on a signed-in session: the
    session token is gone. *)
Lemma setCookies_replaces_state_witness :
  setCookies (U "__Host-next-auth.csrf-token=t") signed_in
  = ({| http_cookie := Some (U "__Host-next-auth.csrf-token=t");
        nextAuth := mkCookies None (Some (U "t")) None;
        trpc_allCookies := U "__Host-next-auth.csrf-token=t" |}, false).
Proof.
  assert (H1 : blank (U "__Host-next-auth.csrf-token=t") = false)
    by reflexivity.
  assert (H2 : parseCookies (U "__Host-next-auth.csrf-token=t")
               = Some (mkCookies None (Some (U "t")) None))
    by reflexivity.
  exact (proj1 (setCookies_replaces_state
                  (U "__Host-next-auth.csrf-token=t")
                  (mkCookies None (Some (U "t")) None) signed_in H1 H2)).
Defined.

(** A session token that ends in a percent sign. *)
Lemma setCookies_throws_after_header_witness :
  setCookies (U "__Secure-next-auth.session-token=50%") signed_in
  = ({| http_cookie := Some (U "__Secure-next-auth.session-token=50%");
        nextAuth := nextAuth signed_in;
        trpc_allCookies := trpc_allCookies signed_in |}, true).
Proof.
  assert (H1 : blank (U "__Secure-next-auth.session-token=50%") = false)
    by reflexivity.
  assert (H2 : parseCookies (U "__Secure-next-auth.session-token=50%") = None)
    by reflexivity.
  exact (setCookies_throws_after_header
           (U "__Secure-next-auth.session-token=50%") signed_in H1 H2).
Defined.

(** ** Records and announcements *)

(** Two records, the second without an identifier. *)
Definition two_records : list value :=
  [VObj [(U "id", VStr (U "7")); (U "title", VStr (U "A"))];
   VObj [(U "title", VStr (U "B"))]].

Lemma transformNewsToAnnouncements_positions_witness :
  exists l,
    transformNewsToAnnouncements jst iso_only portal_url (at_time 0) 0
                                 two_records = (Some l, 2%nat)
    /\ length l = 2%nat.
Proof.
  assert (H : exists l,
             transformNewsToAnnouncements jst iso_only portal_url (at_time 0)
                                          0 two_records = (Some l, 2%nat))
    by (vm_compute; eexists; reflexivity).
  destruct H as [l H]. exists l. split; [exact H|].
  exact (proj1 (transformNewsToAnnouncements_positions
                  jst iso_only portal_url (at_time 0) 0%nat two_records l
                  2%nat H)).
Defined.

Lemma transformNewsToAnnouncements_plain_records_witness :
  Forall (fun item => plain_record item = true) two_records
  /\ exists l,
       transformNewsToAnnouncements jst iso_only portal_url (at_time 0) 0
                                    two_records
       = (Some l, (0 + length two_records)%nat)
       /\ length l = length two_records.
Proof.
  assert (H : Forall (fun item => plain_record item = true) two_records)
    by (repeat constructor).
  split; [exact H|].
  exact (transformNewsToAnnouncements_plain_records
           jst iso_only portal_url (at_time 0) 0%nat two_records H).
Defined.


Lemma decodeHtmlContent_without_backslash_witness :
  decodeHtmlContent (U "<p>Hello &amp; welcome</p>")
  = U "<p>Hello &amp; welcome</p>".
Proof.
  assert (H : forallb (fun c => negb (N.eqb c backslash))
                      (U "<p>Hello &amp; welcome</p>") = true)
    by reflexivity.
  exact (decodeHtmlContent_without_backslash _ H).
Defined.

Lemma parseNewsDetailFromHtml_without_push_call_witness :
  parseNewsDetailFromHtml jst iso_only portal_url 0
                          (U "<html><body>Sign in</body></html>") (U "7")
  = None.
Proof.
  assert (H : includes (U "<html><body>Sign in</body></html>")
                       (U "self.__next_f.push(") = false)
    by (vm_compute; reflexivity).
  exact (parseNewsDetailFromHtml_without_push_call
           jst iso_only portal_url 0
           (U "<html><body>Sign in</body></html>") (U "7") H).
Defined.

(** ** Date ranges *)

Lemma jst_fixed : fixed_offset jst (9 * 60 * 60 * 1000).
Proof. intros t b. reflexivity. Qed.

(** 2023-11-14T22:13:20Z, which is the morning of 15 November in Japan. *)
Definition a_reading : Z := 1700000000000.

Lemma createSingleDayRange_local_day_witness :
  createSingleDayRange jst iso_only (DateObject (Some a_reading))
  = inr {| range_from := Some (civil_time jst 2023 11 15 0 0 0);
           range_to := Some (civil_time jst 2023 11 15 23 59 59 + 999) |}.
Proof.
  assert (T : to_Date jst iso_only (DateObject (Some a_reading))
              = Some a_reading) by reflexivity.
  assert (H : Z.abs a_reading <= max_time - msPerDay)
    by (vm_compute; discriminate).
  assert (E : start_of_day jst a_reading = civil_time jst 2023 11 15 0 0 0)
    by (vm_compute; reflexivity).
  assert (E2 : civil_time jst 2023 11 15 0 0 0 + msPerDay - 1
               = civil_time jst 2023 11 15 23 59 59 + 999)
    by (vm_compute; reflexivity).
  rewrite <- E2, <- E.
  exact (proj1 (proj2 (proj2 (createSingleDayRange_local_day
                                jst iso_only (9 * 60 * 60 * 1000)
                                (DateObject (Some a_reading)) jst_fixed))
                  a_reading T H)).
Defined.

Lemma createWeekDateRange_seven_days_witness :
  createWeekDateRange jst iso_only None a_reading
  = {| range_from := Some (civil_time jst 2023 11 15 0 0 0);
       range_to := Some (civil_time jst 2023 11 21 23 59 59 + 999) |}.
Proof.
  assert (T : week_start jst iso_only None a_reading = Some a_reading)
    by reflexivity.
  assert (H : Z.abs a_reading <= max_time - 7 * msPerDay)
    by (vm_compute; discriminate).
  assert (E : start_of_day jst a_reading = civil_time jst 2023 11 15 0 0 0)
    by (vm_compute; reflexivity).
  assert (E2 : civil_time jst 2023 11 15 0 0 0 + 7 * msPerDay - 1
               = civil_time jst 2023 11 21 23 59 59 + 999)
    by (vm_compute; reflexivity).
  rewrite <- E2, <- E.
  exact (proj1 (proj2 (createWeekDateRange_seven_days
                         jst iso_only (9 * 60 * 60 * 1000) None a_reading
                         jst_fixed)
                  a_reading T H)).
Defined.

Lemma getDefaultDateRange_eight_days_witness :
  getDefaultDateRange jst a_reading
  = {| range_from := Some (civil_time jst 2023 11 15 0 0 0);
       range_to := Some (civil_time jst 2023 11 22 23 59 59 + 999) |}.
Proof.
  assert (H : Z.abs a_reading <= max_time - 8 * msPerDay)
    by (vm_compute; discriminate).
  assert (E : start_of_day jst a_reading = civil_time jst 2023 11 15 0 0 0)
    by (vm_compute; reflexivity).
  assert (E2 : civil_time jst 2023 11 15 0 0 0 + 8 * msPerDay - 1
               = civil_time jst 2023 11 22 23 59 59 + 999)
    by (vm_compute; reflexivity).
  rewrite <- E2, <- E.
  exact (proj1 (getDefaultDateRange_eight_days
                  jst (9 * 60 * 60 * 1000) a_reading jst_fixed H)).
Defined.


(** November 2023. *)
Lemma createMonthDateRange_current_month_witness :
  createMonthDateRange jst None None a_reading
  = {| range_from := Some (civil_time jst 2023 11 1 0 0 0);
       range_to := Some (civil_time jst 2023 11 30 23 59 59 + 999) |}.
Proof.
  assert (H : Z.abs a_reading <= max_time - 32 * msPerDay)
    by (vm_compute; discriminate).
  assert (Y : getFullYear jst a_reading < 0 \/ 99 < getFullYear jst a_reading)
    by (right; vm_compute; reflexivity).
  assert (E1 : start_of_day jst a_reading
               - (DateFromTime (LocalTime jst a_reading) - 1) * msPerDay
               = civil_time jst 2023 11 1 0 0 0)
    by (vm_compute; reflexivity).
  assert (E2 : civil_time jst 2023 11 1 0 0 0
               + DaysInMonth (getFullYear jst a_reading)
                             (getMonth jst a_reading + 1) * msPerDay - 1
               = civil_time jst 2023 11 30 23 59 59 + 999)
    by (vm_compute; reflexivity).
  rewrite <- E2, <- E1.
  exact (proj1 (createMonthDateRange_current_month
                  jst (9 * 60 * 60 * 1000) a_reading jst_fixed H Y)).
Defined.

(** ** Calendar events *)

(** An event with a start and no end. *)
Definition open_event : value :=
  VObj [(U "id", VStr (U "e1"));
        (U "summary", VStr (U "Homeroom"));
        (U "start", VObj [(U "dateTime", VStr (U "2024-01-15T10:00:00"))])].

Lemma event_without_end_lasts_an_hour_witness :
  exists item,
    convertGoogleCalendarEventsToScheduleItems
      jst iso_only latin_lower counting 0 [open_event] = Some [item]
    /\ startTime item = Some (civil_time jst 2024 1 15 10 0 0)
    /\ endTime item = Some (civil_time jst 2024 1 15 11 0 0).
Proof.
  assert (H : exists item d,
             convert_event jst iso_only latin_lower counting 0 0 open_event
             = Some (item, d)
             /\ convertGoogleCalendarEventsToScheduleItems
                  jst iso_only latin_lower counting 0 [open_event]
                = Some [item]
             /\ startTime item = Some (civil_time jst 2024 1 15 10 0 0)).
  { vm_compute. eexists. eexists. repeat split; reflexivity. }
  destruct H as (item & d & Hc & Hl & Hs).
  assert (N : no_end_given open_event = true) by reflexivity.
  assert (B : Z.abs (civil_time jst 2024 1 15 10 0 0 + 3600000) <= max_time)
    by (vm_compute; discriminate).
  exists item. split; [exact Hl|]. split; [exact Hs|].
  exact (proj2 (proj2 (event_without_end_lasts_an_hour
                         jst iso_only latin_lower counting 0 0%nat open_event
                         item d Hc N))
           (civil_time jst 2024 1 15 10 0 0) Hs B).
Defined.

Lemma convertGoogleCalendarEvents_items_witness :
  exists items,
    convertGoogleCalendarEventsToScheduleItems
      jst iso_only latin_lower counting 0 [all_day_example; open_event]
    = Some items
    /\ length items = 2%nat.
Proof.
  assert (H : exists items,
             convertGoogleCalendarEventsToScheduleItems
               jst iso_only latin_lower counting 0
               [all_day_example; open_event] = Some items)
    by (vm_compute; eexists; reflexivity).
  destruct H as [items H]. exists items. split; [exact H|].
  exact (proj1 (convertGoogleCalendarEvents_items
                  jst iso_only latin_lower counting 0
                  [all_day_example; open_event] items H)).
Defined.
